(** * Data-Analysis-Journey: the A/B-test inference engine and the
      user-behaviour cleaner, embedded from the Python sources.

    Numbers.  The Python code computes with IEEE doubles.  The embedding
    keeps the four special outcomes of a double apart ([Fin], [PInf],
    [NInf], [NaN]) and computes finite values in [Q].  Rounding to the
    nearest double ([Double.double]) is written out where it decides an
    outcome: in [.round(4)] of the per-group mean, where it breaks the
    ties of the fourth decimal, and in [1 - alpha/2], which is 1.0 for a
    small [alpha].  The other operations are exact and the sign of zero
    is not modelled; an equation between their finite results is stated
    with [==] on [Q] and reads "equal up to floating-point rounding" on
    the Python side.

    Libraries.  NumPy, SciPy and pandas are not part of the repository.
    Their transcendental functions ([np.sqrt], [np.arcsin],
    [stats.norm.ppf], the chi-square survival function) and the global
    random generator are taken as parameters ([FloatLib], [RandomLib]);
    their control flow ([stats.chi2_contingency], [pd.crosstab],
    [groupby], [drop_duplicates]) is written out after the libraries'
    documented behaviour. *)

From Stdlib Require Import ZArith QArith Qabs Qround Qpower List String Ascii Bool Lia Lqa.
From Stdlib Require Import DecimalString Sorted.
From Stdlib Require Import DecimalNat.
Import ListNotations.

Open Scope Q_scope.

(* ================================================================== *)
(** * Python values: exceptions and doubles *)
(* ================================================================== *)

Module Py.

(** The built-in exceptions the modelled code can raise. *)
Inductive exn : Type :=
| ZeroDivisionError
| ValueError
| KeyError
| IndexError.

Inductive result (A : Type) : Type :=
| Ok (a : A)
| Raise (e : exn).
Arguments Ok {A} a.
Arguments Raise {A} e.

Definition bind {A B} (m : result A) (k : A -> result B) : result B :=
  match m with
  | Ok a => k a
  | Raise e => Raise e
  end.

Definition fails {A} (m : result A) : Prop := exists e, m = Raise e.

(** A double: a finite value, an infinity, or not-a-number. *)
Inductive fval : Type :=
| Fin (q : Q)
| PInf
| NInf
| NaN.

Definition Qlt_bool (x y : Q) : bool := negb (Qle_bool y x).

Definition fneg (x : fval) : fval :=
  match x with
  | Fin q => Fin (- q)
  | PInf => NInf
  | NInf => PInf
  | NaN => NaN
  end.

Definition fadd (x y : fval) : fval :=
  match x, y with
  | NaN, _ | _, NaN => NaN
  | Fin a, Fin b => Fin (a + b)
  | PInf, NInf | NInf, PInf => NaN
  | PInf, _ | _, PInf => PInf
  | NInf, _ | _, NInf => NInf
  end.

Definition fsub (x y : fval) : fval := fadd x (fneg y).

(** Sign of an infinity times a finite factor; [0 * inf] is [nan]. *)
Definition scale_inf (pos : bool) (q : Q) : fval :=
  if Qeq_bool q 0 then NaN
  else if Bool.eqb pos (Qlt_bool 0 q) then PInf else NInf.

Definition fmul (x y : fval) : fval :=
  match x, y with
  | NaN, _ | _, NaN => NaN
  | Fin a, Fin b => Fin (a * b)
  | Fin a, PInf | PInf, Fin a => scale_inf true a
  | Fin a, NInf | NInf, Fin a => scale_inf false a
  | PInf, PInf | NInf, NInf => PInf
  | PInf, NInf | NInf, PInf => NInf
  end.

(** IEEE division, as NumPy scalars perform it: a zero divisor gives an
    infinity or [nan] (with a RuntimeWarning), never an exception. *)
Definition fdiv (x y : fval) : fval :=
  match x, y with
  | NaN, _ | _, NaN => NaN
  | Fin a, Fin b =>
      if Qeq_bool b 0 then
        (if Qeq_bool a 0 then NaN else if Qlt_bool 0 a then PInf else NInf)
      else Fin (a / b)
  | Fin _, (PInf | NInf) => Fin 0
  | PInf, Fin b => if Qlt_bool b 0 then NInf else PInf
  | NInf, Fin b => if Qlt_bool b 0 then PInf else NInf
  | (PInf | NInf), (PInf | NInf) => NaN
  end.

Definition fabs (x : fval) : fval :=
  match x with
  | Fin q => Fin (Qabs q)
  | PInf | NInf => PInf
  | NaN => NaN
  end.

(** [x < y] on doubles: false as soon as one side is [nan]. *)
Definition fltb (x y : fval) : bool :=
  match x, y with
  | NaN, _ | _, NaN => false
  | Fin a, Fin b => Qlt_bool a b
  | NInf, (Fin _ | PInf) => true
  | Fin _, PInf => true
  | _, _ => false
  end.

(** Equality of doubles up to the representation of the rational;
    [nan] is equal to nothing, itself included. *)
Definition feq (x y : fval) : Prop :=
  match x, y with
  | Fin a, Fin b => a == b
  | PInf, PInf | NInf, NInf => True
  | _, _ => False
  end.

(** Which arithmetic a scalar brings: the built-in [int]/[float], whose
    division raises on a zero divisor, or a NumPy scalar
    ([np.int64]/[np.float64]), whose division follows IEEE.  A NumPy
    operand wins in a mixed operation. *)
Inductive numkind : Type := PyNum | NpNum.

Definition join (k1 k2 : numkind) : numkind :=
  match k1, k2 with
  | PyNum, PyNum => PyNum
  | _, _ => NpNum
  end.

Record scalar : Type := Scalar { kind : numkind; val : fval }.

(** An integer argument of either kind: [int] or [np.int64]. *)
Definition int_scalar (k : numkind) (z : Z) : scalar :=
  Scalar k (Fin (inject_Z z)).
Definition py_int (z : Z) : scalar := int_scalar PyNum z.
Definition np_int (z : Z) : scalar := int_scalar NpNum z.
Definition py_float (q : Q) : scalar := Scalar PyNum (Fin q).

Definition is_zero (x : fval) : bool :=
  match x with
  | Fin q => Qeq_bool q 0
  | _ => false
  end.

Definition sadd (x y : scalar) : scalar :=
  Scalar (join (kind x) (kind y)) (fadd (val x) (val y)).
Definition ssub (x y : scalar) : scalar :=
  Scalar (join (kind x) (kind y)) (fsub (val x) (val y)).
Definition smul (x y : scalar) : scalar :=
  Scalar (join (kind x) (kind y)) (fmul (val x) (val y)).

(** Whether a division of this kind raises on a zero divisor. *)
Definition raises_on_zero (k : numkind) : bool :=
  match k with
  | PyNum => true
  | NpNum => false
  end.

(** True division [x / y]. *)
Definition sdiv (x y : scalar) : result scalar :=
  match join (kind x) (kind y) with
  | PyNum =>
      if is_zero (val y) then Raise ZeroDivisionError
      else Ok (Scalar PyNum (fdiv (val x) (val y)))
  | NpNum => Ok (Scalar NpNum (fdiv (val x) (val y)))
  end.

End Py.

Import Py.

Notation "x <- m ;; k" := (Py.bind m (fun x => k))
  (at level 61, m at next level, right associativity).

(** Rounding to the doubles. *)
Module Double.

(** [np.rint]: the nearest integer, ties to the even one. *)
Definition round_half_even (q : Q) : Z :=
  let f := Qfloor q in
  let r := q - inject_Z f in
  match Qcompare r (1 # 2) with
  | Lt => f
  | Gt => (f + 1)%Z
  | Eq => if Z.even f then f else (f + 1)%Z
  end.

Definition pow2 (e : Z) : Q := 2 ^ e.

(** The binade of a positive number: the [e] with
    [2^e <= q < 2^(e+1)]. *)
Definition binade (q : Q) : Z :=
  let e := (Z.log2 (Qnum q) - Z.log2 (Zpos (Qden q)))%Z in
  if Qle_bool (pow2 e) q then e else (e - 1)%Z.

(** The double nearest to a number, ties to the even significand: 53
    bits in the binade of the number, and the spacing [2^-1074] of the
    subnormal doubles below [2^-1022].  The overflow to an infinity, from
    [2^1024] on, is left out, for it is never reached: what is rounded
    here is a rate, ten thousand times a rate, and [1 - alpha/2] for a
    double [alpha]. *)
Definition double (q : Q) : Q :=
  let e := Z.max (binade (Qabs q)) (-1022) in
  let ulp := pow2 (e - 52) in
  inject_Z (round_half_even (q / ulp)) * ulp.

End Double.

(** The functions of NumPy and SciPy whose values are not rational
    computations.  Each is the finite branch of the library function; the
    domain checks around it are written out where it is used. *)
Class FloatLib : Type := {
  fsqrt : Q -> Q;            (* np.sqrt on a non-negative argument *)
  farcsin : Q -> Q;          (* np.arcsin on [-1, 1] *)
  norm_ppf_fn : Q -> Q;      (* stats.norm.ppf on the open interval (0, 1) *)
  chi2_sf : Q -> Z -> Q      (* chi2.sf(x, df), the upper tail *)
}.

(* ================================================================== *)
(** * scipy.stats.chi2_contingency *)
(* ================================================================== *)

Module Scipy.

Section WithFloatLib.
Context {FL : FloatLib}.

Definition table : Type := list (list Z).

Definition sumZ (l : list Z) : Z := fold_right Z.add 0%Z l.
Definition sumQ (l : list Q) : Q := fold_right Qplus 0 l.

Fixpoint zip_with {A B C} (f : A -> B -> C) (l : list A) (m : list B) : list C :=
  match l, m with
  | a :: l', b :: m' => f a b :: zip_with f l' m'
  | _, _ => []
  end.

Definition row_sums (t : table) : list Z := map sumZ t.

Fixpoint col_sums (t : table) : list Z :=
  match t with
  | [] => []
  | [r] => r
  | r :: t' => zip_with Z.add r (col_sums t')
  end.

Definition total (t : table) : Z := sumZ (row_sums t).

Definition n_rows (t : table) : Z := Z.of_nat (List.length t).
Definition n_cols (t : table) : Z :=
  match t with
  | [] => 0%Z
  | r :: _ => Z.of_nat (List.length r)
  end.
Definition size (t : table) : Z := (n_rows t * n_cols t)%Z.

(** [expected_freq]: the outer product of the margins over the total. *)
Definition expected_freq (t : table) : list (list Q) :=
  let n := inject_Z (total t) in
  map (fun r => map (fun c => inject_Z r * inject_Z c / n) (col_sums t))
      (row_sums t).

(** [np.sign]. *)
Definition Qsign (q : Q) : Q :=
  match Qcompare q 0 with
  | Lt => -(1)
  | Eq => 0
  | Gt => 1
  end.

(** [np.minimum]. *)
Definition Qminimum (x y : Q) : Q := if Qle_bool x y then x else y.

(** Yates' correction of one cell: move the observed count towards the
    expected one by at most a half, and never past it. *)
Definition yates (o e : Q) : Q :=
  let diff := e - o in
  let direction := Qsign diff in
  let magnitude := Qminimum (1 # 2) (Qabs diff) in
  o + magnitude * direction.

(** The Pearson term of one cell, [(f_obs - f_exp)**2 / f_exp]. *)
Definition pearson_term (o e : Q) : Q := (o - e) * (o - e) / e.

Definition pearson_sum (obs exp : list (list Q)) : Q :=
  sumQ (map sumQ (zip_with (zip_with pearson_term) obs exp)).

Record chi2_result : Type := Chi2Result {
  chi2_statistic : fval;
  p_value : fval;
  degrees_of_freedom : Z;
  expected_frequencies : list (list fval)
}.

Definition has_negative (t : table) : bool :=
  existsb (existsb (fun x => (x <? 0)%Z)) t.

Definition has_zero (e : list (list Q)) : bool :=
  existsb (existsb (fun x => Qeq_bool x 0)) e.

(** [chi2_contingency(observed)] with its defaults [correction=True],
    [lambda_=None] (Pearson), for a two-dimensional table, as in SciPy 1.7
    and later (earlier versions always shift by a half in [yates]; the
    two agree on every cell at least a half away from its expectation).
    The corrected counts keep the total of the expected ones, so the
    check of the totals in [power_divergence] never fires here and is left
    out. *)
Definition chi2_contingency (observed : table) : result chi2_result :=
  if has_negative observed then Raise ValueError
  else if (size observed =? 0)%Z then Raise ValueError
  else
    let dof := (size observed - (n_rows observed + n_cols observed) + 2 - 1)%Z in
    if (total observed =? 0)%Z then
      (* every expected frequency is 0/0 = nan, and nan == 0 is false *)
      let e := map (map (fun _ => NaN)) observed in
      if (dof =? 0)%Z then Ok (Chi2Result (Fin 0) (Fin 1) dof e)
      else Ok (Chi2Result NaN NaN dof e)
    else
      let expected := expected_freq observed in
      if has_zero expected then Raise ValueError
      else
        let e := map (map Fin) expected in
        if (dof =? 0)%Z then Ok (Chi2Result (Fin 0) (Fin 1) dof e)
        else
          let obs := map (map inject_Z) observed in
          let obs' :=
            if (dof =? 1)%Z then zip_with (zip_with yates) obs expected
            else obs in
          let chi2 := pearson_sum obs' expected in
          Ok (Chi2Result (Fin chi2) (Fin (chi2_sf chi2 dof)) dof e).

End WithFloatLib.

End Scipy.

(* ================================================================== *)
(** * The random generator and the pandas operations *)
(* ================================================================== *)

(** NumPy's process-wide generator: [seed] replaces the global state, a
    draw reads and advances it.  A draw may reject its arguments
    ([ValueError]); the state is kept in either case. *)
Class RandomLib : Type := {
  rng : Type;
  seed : Z -> rng;
  binomial : Z -> Q -> rng -> result Z * rng;
  choice : list string -> Z -> list Q -> rng -> result (list string) * rng;
  randint : Z -> Z -> rng -> result Z * rng
}.

Module Rand.

Section WithRandomLib.
Context {RL : RandomLib}.

(** Computations that read and advance the global generator and may
    raise. *)
Definition M (A : Type) : Type := rng -> result A * rng.

Definition ret {A} (a : A) : M A := fun g => (Ok a, g).

Definition mbind {A B} (m : M A) (k : A -> M B) : M B :=
  fun g =>
    match m g with
    | (Ok a, g') => k a g'
    | (Raise e, g') => (Raise e, g')
    end.

Definition lift {A} (r : result A) : M A := fun g => (r, g).

(** [np.random.seed(s)]. *)
Definition reseed (s : Z) : M unit := fun _ => (Ok tt, seed s).

End WithRandomLib.

End Rand.

Notation "x <~ m ;; k" := (Rand.mbind m (fun x => k))
  (at level 61, m at next level, right associativity).

Module Frame.

(** One record of the A/B-test table.  [timestamp] counts the hours since
    2024-01-01 00:00, the start date of the generator. *)
Record row : Type := Row {
  user_id : string;
  timestamp : Z;
  group : string;
  clicked : Z
}.

Definition dataframe : Type := list row.

(** Insertion into a strictly increasing list. *)
Fixpoint insert_uniq {A} (cmp : A -> A -> comparison) (x : A) (l : list A)
  : list A :=
  match l with
  | [] => [x]
  | y :: l' =>
      match cmp x y with
      | Lt => x :: l
      | Eq => l
      | Gt => y :: insert_uniq cmp x l'
      end
  end.

(** The sorted distinct values of a column, the labels pandas gives to
    the groups of [groupby] and to the axes of [crosstab]. *)
Definition sorted_unique {A} (cmp : A -> A -> comparison) (l : list A)
  : list A :=
  fold_right (insert_uniq cmp) [] l.

(** The order of the labels: code points, lexicographically. *)
Definition str_lt (x y : string) : Prop := String.compare x y = Lt.

Definition group_labels (df : dataframe) : list string :=
  sorted_unique String.compare (map group df).

Definition clicked_labels (df : dataframe) : list Z :=
  sorted_unique Z.compare (map clicked df).

Definition count_cell (df : dataframe) (g : string) (c : Z) : Z :=
  Z.of_nat (List.length
    (filter (fun r => String.eqb (group r) g && Z.eqb (clicked r) c) df)).

(** [pd.crosstab(df['group'], df['clicked'])]: one line per group
    present, one column per outcome present, counts in the cells. *)
Definition crosstab (df : dataframe) : Scipy.table :=
  map (fun g => map (fun c => count_cell df g c) (clicked_labels df))
      (group_labels df).

(** The ['clicked'] column of the rows of one group. *)
Definition clicked_of (df : dataframe) (g : string) : list Z :=
  map clicked (filter (fun r => String.eqb (group r) g) df).

(** [Series.mean()] of a column of 0 and 1, the outcomes of the data
    model: the sum and the count are exact in doubles (a table holds far
    fewer than [2^53] records), their quotient is rounded once. *)
Definition group_mean (sum count : Z) : Q :=
  Double.double (inject_Z sum / inject_Z count).

(** [.round(4)] of a double, as NumPy computes it: the double product
    with [1e4], [np.rint] of it, and the double quotient by [1e4]. *)
Definition round4 (x : Q) : Q :=
  Double.double
    (inject_Z (Double.round_half_even (Double.double (x * 10000))) / 10000).

(** The dtype pandas infers for the ['clicked'] column: [int64] from
    the values of a table with records, [object] for a table without
    any, as [read_csv] gives it for a file that holds only the header
    line.  A selection of records keeps the dtype of its table. *)
Inductive dtype : Type := int64 | object.

Definition clicked_dtype (df : dataframe) : dtype :=
  match df with
  | [] => object
  | _ :: _ => int64
  end.

(** [Series.sum()]: a NumPy integer for an [int64] column; for an
    [object] column the built-in sum of its values, the built-in 0 when
    it has none. *)
Definition sum_kind (d : dtype) : numkind :=
  match d with
  | int64 => NpNum
  | object => PyNum
  end.

End Frame.

(* ================================================================== *)
(** * statistical_analysis.py *)
(* ================================================================== *)

Module ABTest.

Import Scipy Frame Rand.

Section Engine.
Context {FL : FloatLib} {RL : RandomLib}.

(** A line of the table [calculate_click_rates] returns. *)
Record group_summary : Type := GroupSummary {
  count : Z;
  clicks : Z;
  ctr : Q
}.

(** [df.groupby('group')['clicked'].agg(count, sum, mean).round(4)].
    There is no check on the number of groups: the table has one line per
    label that occurs.  [.round(4)] leaves the two integer columns as
    they are.  The sum is an [int64] in pandas; it is the exact sum as
    long as that fits 64 bits, as it does for outcomes 0 and 1. *)
Definition calculate_click_rates (df : dataframe)
  : result (list (string * group_summary)) :=
  Ok (map (fun g =>
             let col := clicked_of df g in
             let n := Z.of_nat (List.length col) in
             let s := sumZ col in
             (g, GroupSummary n s (round4 (group_mean s n))))
          (group_labels df)).

Definition chi_square_test (df : dataframe) : result chi2_result :=
  let contingency_table := crosstab df in
  chi2_contingency contingency_table.

(** [np.sqrt]: always a NumPy double; [nan] below zero. *)
Definition np_sqrt (x : fval) : fval :=
  match x with
  | Fin q => if Qlt_bool q 0 then NaN else Fin (fsqrt q)
  | PInf => PInf
  | NInf | NaN => NaN
  end.

(** [np.arcsin]: [nan] outside [-1, 1]. *)
Definition np_arcsin (x : fval) : fval :=
  match x with
  | Fin q => if Qle_bool (Qabs q) 1 then Fin (farcsin q) else NaN
  | _ => NaN
  end.

(** [stats.norm.ppf] of a double: the quantile on (0, 1), the infinities
    at the two ends, [nan] outside [0, 1]. *)
Definition norm_ppf (q : Q) : fval :=
  if Qlt_bool 0 q && Qlt_bool q 1 then Fin (norm_ppf_fn q)
  else if Qeq_bool q 0 then NInf
  else if Qeq_bool q 1 then PInf
  else NaN.

Record interval_estimate : Type := IntervalEstimate {
  difference : fval;
  ci_lower : fval;
  ci_upper : fval;
  margin_of_error : fval;
  relative_improvement : fval
}.

Definition calculate_confidence_interval
    (clicks_a total_a clicks_b total_b : scalar) (alpha : Q)
  : result interval_estimate :=
  p_a <- sdiv clicks_a total_a ;;
  p_b <- sdiv clicks_b total_b ;;
  let diff := ssub p_b p_a in
  va <- sdiv (smul p_a (ssub (py_int 1) p_a)) total_a ;;
  vb <- sdiv (smul p_b (ssub (py_int 1) p_b)) total_b ;;
  let se := Scalar NpNum (np_sqrt (val (sadd va vb))) in
  let z_score := Scalar NpNum (norm_ppf (Double.double (1 - alpha / 2))) in
  let margin_of_error := smul z_score se in
  let ci_lower := ssub diff margin_of_error in
  let ci_upper := sadd diff margin_of_error in
  ri <- sdiv (ssub p_b p_a) p_a ;;
  Ok (IntervalEstimate (val diff) (val ci_lower) (val ci_upper)
        (val margin_of_error) (val ri)).

(** The call both [comprehensive_analysis] and [plot_confidence_intervals]
    make, on a table whose ['clicked'] column has dtype [d]: the clicks
    are [Series.sum()] of the group's column, the totals are [len] of it,
    a built-in integer; [alpha] is left at its default, 0.05 (the double
    of that literal and the rational 1/20 give the same double
    [1 - alpha/2]). *)
Definition confidence_interval_as (d : dtype) (df : dataframe)
  : result interval_estimate :=
  let control_data := clicked_of df "control" in
  let treatment_data := clicked_of df "treatment" in
  let control_clicks := int_scalar (sum_kind d) (sumZ control_data) in
  let control_total := py_int (Z.of_nat (List.length control_data)) in
  let treatment_clicks := int_scalar (sum_kind d) (sumZ treatment_data) in
  let treatment_total := py_int (Z.of_nat (List.length treatment_data)) in
  calculate_confidence_interval control_clicks control_total
    treatment_clicks treatment_total (5 # 100).

(** The same call on a table as [load_data] hands it over, with the
    dtype pandas has inferred. *)
Definition confidence_interval_of (df : dataframe) : result interval_estimate :=
  confidence_interval_as (clicked_dtype df) df.

Record power_estimate : Type := PowerEstimate {
  power : fval;
  n_simulations : Z;
  significant_detections : Z
}.

(** The body of the simulation loop: two draws, the 2x2 table of clicks
    and non-clicks, the test, and whether [p_value < alpha]. *)
Definition trial (control_ctr treatment_ctr : Q) (sample_size : Z) (alpha : Q)
  : M bool :=
  control_clicks <~ binomial sample_size control_ctr ;;
  treatment_clicks <~ binomial sample_size treatment_ctr ;;
  let control_no_clicks := (sample_size - control_clicks)%Z in
  let treatment_no_clicks := (sample_size - treatment_clicks)%Z in
  let contingency_table :=
    [[control_clicks; control_no_clicks];
     [treatment_clicks; treatment_no_clicks]] in
  r <~ lift (chi2_contingency contingency_table) ;;
  ret (fltb (p_value r) (Fin alpha)).

(** [for _ in range(n)]: the counter after [n] more passes. *)
Fixpoint simulation_loop (control_ctr treatment_ctr : Q) (sample_size : Z)
    (alpha : Q) (n : nat) (significant_results : Z) : M Z :=
  match n with
  | O => ret significant_results
  | S n' =>
      detected <~ trial control_ctr treatment_ctr sample_size alpha ;;
      simulation_loop control_ctr treatment_ctr sample_size alpha n'
        (if detected then (significant_results + 1)%Z else significant_results)
  end.

Definition manual_power_analysis (control_ctr treatment_ctr : Q)
    (sample_size : Z) (alpha : Q) (n_simulations : Z) : M power_estimate :=
  significant_results <~
    simulation_loop control_ctr treatment_ctr sample_size alpha
      (Z.to_nat n_simulations) 0%Z ;;
  power <~ lift (sdiv (py_int significant_results) (py_int n_simulations)) ;;
  ret (PowerEstimate (val power) n_simulations significant_results).

Definition calculate_effect_size (control_ctr treatment_ctr : Q) : fval :=
  let h :=
    fmul (Fin 2)
      (fsub (np_arcsin (np_sqrt (Fin treatment_ctr)))
            (np_arcsin (np_sqrt (Fin control_ctr)))) in
  fabs h.

End Engine.

End ABTest.

(* ================================================================== *)
(** * data_generator.py *)
(* ================================================================== *)

Module Generator.

Import Frame Rand.

Section Gen.
Context {RL : RandomLib}.

(** [f"{i:06d}"]: decimal digits, zero-padded on the left to width 6. *)
Definition format_06d (i : nat) : string :=
  let digits := NilZero.string_of_uint (Nat.to_uint i) in
  let pad := Nat.sub 6 (String.length digits) in
  String.append (String.concat "" (repeat "0"%string pad)) digits.

Definition user_ids (n_users : Z) : list string :=
  map (fun i => String.append "user_" (format_06d i))
      (seq 0 (Z.to_nat n_users)).

(** [for group in groups]: one Bernoulli draw per user, at the rate of
    the user's group. *)
Fixpoint draw_clicks (control_ctr treatment_ctr : Q) (groups : list string)
  : M (list Z) :=
  match groups with
  | [] => ret []
  | group :: rest =>
      click <~ (if String.eqb group "control"
                then binomial 1 control_ctr
                else binomial 1 treatment_ctr) ;;
      clicks <~ draw_clicks control_ctr treatment_ctr rest ;;
      ret (click :: clicks)
  end.

(** [for i in range(n_users)]: a day of the week and an hour of the day
    after the start date. *)
Fixpoint draw_timestamps (n : nat) : M (list Z) :=
  match n with
  | O => ret []
  | S n' =>
      random_days <~ randint 0 7 ;;
      random_hours <~ randint 0 24 ;;
      timestamps <~ draw_timestamps n' ;;
      ret ((24 * random_days + random_hours)%Z :: timestamps)
  end.

(** [pd.DataFrame] from four columns: [ValueError] unless they have one
    length. *)
Fixpoint make_frame (ids : list string) (ts : list Z) (gs : list string)
    (cs : list Z) : result dataframe :=
  match ids, ts, gs, cs with
  | [], [], [], [] => Ok []
  | i :: ids', t :: ts', g :: gs', c :: cs' =>
      rest <- make_frame ids' ts' gs' cs' ;;
      Ok (Row i t g c :: rest)
  | _, _, _, _ => Raise ValueError
  end.

Definition generate_ab_test_data (control_ctr treatment_ctr : Q) (n_users : Z)
  : M dataframe :=
  _ <~ reseed 42 ;;
  let ids := user_ids n_users in
  groups <~ choice ["control"; "treatment"]%string n_users [1 # 2; 1 # 2] ;;
  clicks <~ draw_clicks control_ctr treatment_ctr groups ;;
  timestamps <~ draw_timestamps (Z.to_nat n_users) ;;
  lift (make_frame ids timestamps groups clicks).

End Gen.

End Generator.

(* ================================================================== *)
(** * data_cleaner.py *)
(* ================================================================== *)

Module Cleaner.

Section Clean.

(** A record of the user-behaviour table, with every column it has.  Two
    records are duplicates when all their columns agree. *)
Variable record : Type.
Variable record_eq_dec : forall x y : record, {x = y} + {x <> y}.
(** The ['read_time'] column. *)
Variable read_time : record -> fval.

(** A table keeps its index label next to each record; [drop_duplicates]
    and boolean selection leave the labels as they are. *)
Definition frame : Type := list (Z * record).

(** [drop_duplicates()], [keep='first']: a record goes when an equal one
    was seen before it. *)
Fixpoint drop_duplicates_from (seen : list record) (df : frame) : frame :=
  match df with
  | [] => []
  | (i, r) :: rest =>
      if in_dec record_eq_dec r seen
      then drop_duplicates_from seen rest
      else (i, r) :: drop_duplicates_from (r :: seen) rest
  end.

Definition drop_duplicates (df : frame) : frame := drop_duplicates_from [] df.

(** [df_clean[df_clean['read_time'] > 0]]. *)
Definition positive_read_time (ir : Z * record) : bool :=
  fltb (Fin 0) (read_time (snd ir)).

(** What [clean_data] returns; its three console lines are not modelled. *)
Definition clean_data (df : frame) : frame :=
  let df_clean := df in
  let df_clean := drop_duplicates df_clean in
  let df_clean := filter positive_read_time df_clean in
  df_clean.

End Clean.

Arguments frame record : clear implicits.
Arguments drop_duplicates_from {record} record_eq_dec seen df.
Arguments drop_duplicates {record} record_eq_dec df.
Arguments positive_read_time {record} read_time ir.
Arguments clean_data {record} record_eq_dec read_time df.

End Cleaner.

(* ================================================================== *)
(** * Concrete libraries, for running the model *)
(* ================================================================== *)

Module Demo.

(** A square root on seven decimals, rounded down. *)
Definition sqrt_approx (q : Q) : Q :=
  inject_Z (Z.sqrt (Qfloor (q * 100000000000000))) / 10000000.

(** The first terms of the arcsine series. *)
Definition arcsin_approx (x : Q) : Q :=
  x + x * x * x / 6 + 3 * x * x * x * x * x / 40.

(** Standard normal quantiles by table lookup. *)
Definition ppf_upper (q : Q) : Q :=
  if Qle_bool (995 # 1000) q then 25758 # 10000
  else if Qle_bool (975 # 1000) q then 196 # 100
  else if Qle_bool (95 # 100) q then 16449 # 10000
  else if Qle_bool (9 # 10) q then 12816 # 10000
  else if Qle_bool (75 # 100) q then 6745 # 10000
  else 0.

Definition ppf_table (q : Q) : Q :=
  if Qle_bool (1 # 2) q then ppf_upper q else - ppf_upper (1 - q).

(** Upper tail of the chi-square distribution with one degree of freedom,
    by its table of critical values (other degrees of freedom are not
    tabulated and share it). *)
Definition chi2_sf_table (x : Q) (dof : Z) : Q :=
  if Qle_bool (10828 # 1000) x then 1 # 1000
  else if Qle_bool (6635 # 1000) x then 1 # 100
  else if Qle_bool (3841 # 1000) x then 49 # 1000
  else if Qle_bool (2706 # 1000) x then 1 # 10
  else 1.

#[export] Instance table_float : FloatLib := {
  fsqrt := sqrt_approx;
  farcsin := arcsin_approx;
  norm_ppf_fn := ppf_table;
  chi2_sf := chi2_sf_table
}.

(** A linear congruential generator over 31 bits. *)
Definition lcg_next (s : Z) : Z := ((1103515245 * s + 12345) mod 2147483648)%Z.

(** A uniform draw in [0, 1). *)
Definition uniform (s : Z) : Q * Z :=
  let s' := lcg_next s in (inject_Z s' / 2147483648, s').

Fixpoint bernoulli_sum (n : nat) (p : Q) (s : Z) : Z * Z :=
  match n with
  | O => (0%Z, s)
  | S n' =>
      let (u, s') := uniform s in
      let (k, s'') := bernoulli_sum n' p s' in
      ((if Qlt_bool u p then k + 1 else k)%Z, s'')
  end.

Definition lcg_binomial (n : Z) (p : Q) (s : Z) : result Z * Z :=
  if (n <? 0)%Z || Qlt_bool p 0 || Qlt_bool 1 p then (Raise ValueError, s)
  else let (k, s') := bernoulli_sum (Z.to_nat n) p s in (Ok k, s').

(** The label whose cumulative probability first exceeds [u]. *)
Fixpoint pick (labels : list string) (probs : list Q) (u : Q) : option string :=
  match labels, probs with
  | [l], _ => Some l
  | l :: labels', p :: probs' =>
      if Qlt_bool u p then Some l else pick labels' probs' (u - p)
  | _, _ => None
  end.

Fixpoint lcg_choices (labels : list string) (probs : list Q) (n : nat) (s : Z)
  : option (list string) * Z :=
  match n with
  | O => (Some [], s)
  | S n' =>
      let (u, s') := uniform s in
      match pick labels probs u, lcg_choices labels probs n' s' with
      | Some l, (Some ls, s'') => (Some (l :: ls), s'')
      | _, (_, s'') => (None, s'')
      end
  end.

Definition lcg_choice (labels : list string) (size : Z) (probs : list Q) (s : Z)
  : result (list string) * Z :=
  if (size <? 0)%Z then (Raise ValueError, s)
  else
    match lcg_choices labels probs (Z.to_nat size) s with
    | (Some ls, s') => (Ok ls, s')
    | (None, _) => (Raise ValueError, s)
    end.

Definition lcg_randint (low high : Z) (s : Z) : result Z * Z :=
  if (high <=? low)%Z then (Raise ValueError, s)
  else let s' := lcg_next s in (Ok (low + s' mod (high - low))%Z, s').

#[export] Instance lcg_random : RandomLib := {
  rng := Z;
  seed := fun s => s;
  binomial := lcg_binomial;
  choice := lcg_choice;
  randint := lcg_randint
}.

(** A record of the user-behaviour table with the columns the analysis
    reads; [read_time] in minutes. *)
Record event : Type := Event {
  ev_user : string;
  ev_timestamp : Z;
  ev_category : string;
  ev_action : string;
  ev_read_time : Z
}.

Definition event_eq_dec (x y : event) : {x = y} + {x <> y}.
Proof.
  decide equality; auto using string_dec, Z.eq_dec.
Defined.

Definition event_read_time (e : event) : fval := Fin (inject_Z (ev_read_time e)).


(** Sample tables. *)

(** Eight records: three of four controls did not click, three of four
    treated users did. *)
Definition eight_users : Frame.dataframe :=
  [ Frame.Row "user_000000" 0 "control" 0;   Frame.Row "user_000001" 5 "treatment" 1;
    Frame.Row "user_000002" 9 "control" 0;   Frame.Row "user_000003" 30 "treatment" 1;
    Frame.Row "user_000004" 31 "control" 0;  Frame.Row "user_000005" 47 "treatment" 0;
    Frame.Row "user_000006" 50 "control" 1;  Frame.Row "user_000007" 70 "treatment" 1 ]%Z.

(** Six records: two of three controls did not click, two of three
    treated users did. *)
Definition six_users : Frame.dataframe :=
  [ Frame.Row "user_000000" 0 "control" 0;   Frame.Row "user_000001" 5 "treatment" 1;
    Frame.Row "user_000002" 9 "control" 1;   Frame.Row "user_000003" 30 "treatment" 1;
    Frame.Row "user_000004" 31 "control" 0;  Frame.Row "user_000005" 47 "treatment" 0 ]%Z.

(** Six records in which no control user clicked. *)
Definition silent_control : Frame.dataframe :=
  [ Frame.Row "user_000000" 0 "control" 0;  Frame.Row "user_000001" 5 "treatment" 1;
    Frame.Row "user_000002" 9 "control" 0;  Frame.Row "user_000003" 30 "treatment" 0;
    Frame.Row "user_000004" 31 "control" 0; Frame.Row "user_000005" 47 "treatment" 1 ]%Z.

(** Two records, both in the control group. *)
Definition control_only : Frame.dataframe :=
  [ Frame.Row "user_000000" 3 "control" 1; Frame.Row "user_000001" 27 "control" 0 ]%Z.

(** An extract of the table: the second line repeats the first, the
    fourth has no reading time. *)
Definition four_events : Cleaner.frame event :=
  [ (0, Event "u1" 10 "fantasy" "read" 25);
    (1, Event "u1" 10 "fantasy" "read" 25);
    (2, Event "u2" 11 "history" "read" 40);
    (3, Event "u3" 12 "fantasy" "click" 0) ]%Z.

End Demo.

(* ================================================================== *)
(** * The statistics of a 2x2 table, as the specification words them *)
(* ================================================================== *)

Module Spec.

(** [p_x = successes_x / total_x]. *)
Definition rate (successes total : Z) : Q :=
  inject_Z successes / inject_Z total.

(** [expected[i][j] = row_total[i] * col_total[j] / grand_total]. *)
Definition expected (row_total col_total grand_total : Z) : Q :=
  inject_Z row_total * inject_Z col_total / inject_Z grand_total.

(** The four cells of the table [[a, b], [c, d]], each with its observed
    and its expected frequency. *)
Definition cells (a b c d : Z) : list (Q * Q) :=
  let n := (a + b + c + d)%Z in
  [ (inject_Z a, expected (a + b) (a + c) n);
    (inject_Z b, expected (a + b) (b + d) n);
    (inject_Z c, expected (c + d) (a + c) n);
    (inject_Z d, expected (c + d) (b + d) n) ].

Definition sum_over (f : Q -> Q -> Q) (l : list (Q * Q)) : Q :=
  fold_right (fun oe acc => f (fst oe) (snd oe) + acc) 0 l.

(** The uncorrected Pearson statistic: the sum over the four cells of
    [(observed - expected)^2 / expected]. *)
Definition pearson_statistic (a b c d : Z) : Q :=
  sum_over (fun o e => (o - e) * (o - e) / e) (cells a b c d).

(** The distance of a cell from its expectation after Yates' correction:
    shortened by a half, and to nothing when it is below a half. *)
Definition corrected_distance (o e : Q) : Q :=
  let x := Qabs (o - e) in
  if Qle_bool (1 # 2) x then x - (1 # 2) else 0.

(** The statistic with the continuity correction. *)
Definition yates_statistic (a b c d : Z) : Q :=
  sum_over (fun o e => corrected_distance o e * corrected_distance o e / e)
           (cells a b c d).

(** Observed equals expected in every cell. *)
Definition proportional (a b c d : Z) : Prop :=
  Forall (fun oe => fst oe == snd oe) (cells a b c d).

(** No cell is further than a half from its expectation. *)
Definition within_half (a b c d : Z) : Prop :=
  Forall (fun oe => Qabs (fst oe - snd oe) <= 1 # 2) (cells a b c d).

Section Power.
Context {FL : FloatLib} {RL : RandomLib}.

(** One trial of the Power Simulator: from generator state [g], the
    control and the treatment successes are drawn from
    [Binomial(sample_size, rate)], the 2x2 table of successes and failures
    goes through the chi-square test, and the trial is detected iff the
    p-value is below [alpha]; the generator is left in state [g']. *)
Definition trial_outcome (control_rate treatment_rate : Q) (sample_size : Z)
    (alpha : Q) (g : rng) (detected : bool) (g' : rng) : Prop :=
  exists control_successes g1 treatment_successes r,
    binomial sample_size control_rate g = (Ok control_successes, g1) /\
    binomial sample_size treatment_rate g1 = (Ok treatment_successes, g') /\
    Scipy.chi2_contingency
      [[control_successes; (sample_size - control_successes)%Z];
       [treatment_successes; (sample_size - treatment_successes)%Z]] = Ok r /\
    detected = fltb (Scipy.p_value r) (Fin alpha).

(** [n] trials one after the other, none of which raises, with the
    outcome of each. *)
Inductive trials_run (control_rate treatment_rate : Q) (sample_size : Z)
    (alpha : Q) : nat -> rng -> list bool -> rng -> Prop :=
| run_done (g : rng) :
    trials_run control_rate treatment_rate sample_size alpha O g [] g
| run_trial (n : nat) (g g1 g' : rng) (detected : bool) (rest : list bool) :
    trial_outcome control_rate treatment_rate sample_size alpha g detected g1 ->
    trials_run control_rate treatment_rate sample_size alpha n g1 rest g' ->
    trials_run control_rate treatment_rate sample_size alpha (S n) g
      (detected :: rest) g'.

(** The number of detected trials. *)
Definition detections (outcomes : list bool) : Z :=
  Z.of_nat (List.length (filter (fun b : bool => b) outcomes)).

End Power.

End Spec.

(* ================================================================== *)
(** * The rest of the A/B-test pipeline *)
(* ================================================================== *)

Module Pipeline.

Import Scipy Frame Rand ABTest.

(** A record of the processed table that [save_data] writes: the raw
    columns, the calendar day (counted from 2024-01-01, the start date of
    the generator) and the hour of the day of the timestamp. *)
Record processed_row : Type := ProcessedRow {
  raw : row;
  date : Z;
  hour : Z
}.

(** What [save_data] returns: [df_clean] with the columns ['date']
    ([.dt.date]) and ['hour'] ([.dt.hour]) added.  The two [to_csv] writes
    are not modelled. *)
Definition save_data (df : dataframe) : list processed_row :=
  let df_clean := df in
  map (fun r => ProcessedRow r (timestamp r / 24)%Z (timestamp r mod 24)%Z)
      df_clean.

Section WithLibs.
Context {FL : FloatLib} {RL : RandomLib}.

(** [click_rates.loc[label, 'ctr']]: [KeyError] when the summary has no
    line for the label. *)
Fixpoint loc_ctr (click_rates : list (string * group_summary)) (label : string)
  : result Q :=
  match click_rates with
  | [] => Raise KeyError
  | (l, s) :: rest => if String.eqb l label then Ok (ctr s) else loc_ctr rest label
  end.

(** The dictionary [comprehensive_analysis] returns, key by key. *)
Record comprehensive_results : Type := ComprehensiveResults {
  r_click_rates : list (string * group_summary);
  r_chi_square_test : chi2_result;
  r_confidence_intervals : interval_estimate;
  r_power_analysis : power_estimate;
  r_effect_size : fval;
  r_sample_sizes : Z * Z
}.

Definition comprehensive_analysis (df : dataframe) : M comprehensive_results :=
  click_rates <~ lift (calculate_click_rates df) ;;
  let control_data := clicked_of df "control" in
  let treatment_data := clicked_of df "treatment" in
  let control_total := Z.of_nat (List.length control_data) in
  let treatment_total := Z.of_nat (List.length treatment_data) in
  chi2_results <~ lift (chi_square_test df) ;;
  ci_results <~ lift (confidence_interval_of df) ;;
  control_ctr <~ lift (loc_ctr click_rates "control") ;;
  treatment_ctr <~ lift (loc_ctr click_rates "treatment") ;;
  power_results <~
    manual_power_analysis control_ctr treatment_ctr
      (Z.min control_total treatment_total) (5 # 100) 5000 ;;
  control_ctr' <~ lift (loc_ctr click_rates "control") ;;
  treatment_ctr' <~ lift (loc_ctr click_rates "treatment") ;;
  let effect_size := calculate_effect_size control_ctr' treatment_ctr' in
  ret (ComprehensiveResults click_rates chi2_results ci_results power_results
         effect_size (control_total, treatment_total)).

End WithLibs.

End Pipeline.

(* ================================================================== *)
(** * Project-User-Behavior-Analysis: main.py and analyzer.py *)
(* ================================================================== *)

Module Runner.

Section Run.

(** The files and processes a script can touch. *)
Variable world : Type.
(** [run_script(script_name)]: runs the script with the interpreter and
    says whether it exited with status zero. *)
Variable run_script : string -> world -> bool * world.

(** What the loop prints besides the banners of [run_script]. *)
Inductive notice : Type :=
| Stopping (script : string)
| AllCompleted.

(** [for script in scripts: if not run_script(script): ...; break] with
    its [else] branch: the scripts that were launched, in order, and the
    closing notice. *)
Fixpoint run_all (scripts : list string) (w : world)
  : list string * notice * world :=
  match scripts with
  | [] => ([], AllCompleted, w)
  | script :: rest =>
      let (ok, w') := run_script script w in
      if ok then
        let '(launched, n, w'') := run_all rest w' in
        (script :: launched, n, w'')
      else ([script], Stopping script, w')
  end.

(** The scripts of a list run one after the other, each in the world the
    one before has left, and every one of them exits with status zero. *)
Inductive succeed_in_turn : list string -> world -> world -> Prop :=
| no_script (w : world) : succeed_in_turn [] w w
| next_script (script : string) (rest : list string) (w w1 w' : world) :
    run_script script w = (true, w1) ->
    succeed_in_turn rest w1 w' ->
    succeed_in_turn (script :: rest) w w'.

(** The scripts of the project, in the order [main.py] runs them. *)
Definition scripts : list string :=
  ["data_generator.py"; "data_cleaner.py"; "analyzer.py"]%string.

End Run.

Arguments run_all {world} run_script scripts w.
Arguments succeed_in_turn {world} run_script scripts w w'.

End Runner.

Module Analyzer.

Import Frame.

Section Activity.

(** A record of the cleaned table, with the columns [analyze_user_activity]
    reads: ['date'] (a string after [read_csv]), ['hour'] and ['user_id']. *)
Variable record : Type.
Variable date : record -> string.
Variable hour : record -> Z.
Variable user_id : record -> string.

(** [Series.nunique()]. *)
Definition nunique (ids : list string) : Z :=
  Z.of_nat (List.length (nodup string_dec ids)).

(** [df.groupby('date')['user_id'].nunique()]: one line per date, in
    increasing order. *)
Definition dau (df : list record) : list (string * Z) :=
  map (fun d =>
         (d, nunique (map user_id
                        (filter (fun r => String.eqb (date r) d) df))))
      (sorted_unique String.compare (map date df)).

(** [df.groupby('hour').size()]. *)
Definition hourly_activity (df : list record) : list (Z * Z) :=
  map (fun h =>
         (h, Z.of_nat (List.length (filter (fun r => Z.eqb (hour r) h) df))))
      (sorted_unique Z.compare (map hour df)).

(** [Series.idxmax()]: the label of the first largest value;
    [ValueError] on an empty series. *)
Fixpoint idxmax_from (best : Z * Z) (s : list (Z * Z)) : Z :=
  match s with
  | [] => fst best
  | (h, v) :: rest =>
      if (snd best <? v)%Z then idxmax_from (h, v) rest
      else idxmax_from best rest
  end.

Definition idxmax (s : list (Z * Z)) : result Z :=
  match s with
  | [] => Raise ValueError
  | first :: rest => Ok (idxmax_from first rest)
  end.

(** [Series.mean()]: [nan] on an empty series. *)
Definition mean (values : list Z) : fval :=
  match values with
  | [] => NaN
  | _ => Fin (inject_Z (Scipy.sumZ values)
              / inject_Z (Z.of_nat (List.length values)))
  end.

(** [Series.plot(kind='bar')]: one bar per line of the series, and
    [IndexError] from pandas when there is none.  The figure is not
    modelled. *)
Definition plot_bar (s : list (Z * Z)) : result unit :=
  match s with
  | [] => Raise IndexError
  | _ :: _ => Ok tt
  end.

Record user_activity : Type := UserActivity {
  avg_dau : fval;
  peak_hour : Z
}.

(** The dictionary [analyze_user_activity] returns.  Of the two figures
    it draws on the way only the failure of the bar chart on a table
    without records is modelled; the line chart of [dau] draws an empty
    series without complaint. *)
Definition analyze_user_activity (df : list record) : result user_activity :=
  let dau := dau df in
  let hourly_activity := hourly_activity df in
  _ <- plot_bar hourly_activity ;;
  let avg := mean (map snd dau) in
  peak <- idxmax hourly_activity ;;
  Ok (UserActivity avg peak).

End Activity.

Arguments dau {record} date user_id df.
Arguments hourly_activity {record} hour df.
Arguments analyze_user_activity {record} date hour user_id df.

End Analyzer.

(** The textbook form of the corrected statistic of [[a, b], [c, d]]:
    [n (|ad - bc| - n/2)^2 / (r1 r2 c1 c2)], and nothing when [|ad - bc|]
    is below [n/2]. *)
Module Textbook.

Definition yates_closed_form (a b c d : Z) : Q :=
  let n := inject_Z (a + b + c + d) in
  let cross := Qabs (inject_Z (a * d - b * c)) in
  let shortened := if Qle_bool (n / 2) cross then cross - n / 2 else 0 in
  n * shortened * shortened
  / (inject_Z (a + b) * inject_Z (c + d) * inject_Z (a + c) * inject_Z (b + d)).

End Textbook.

(** Reading a zero-padded decimal number back, the inverse of
    [Generator.format_06d]. *)
Definition read_digits (s : string) : option nat :=
  option_map Nat.of_uint (NilEmpty.uint_of_string s).

(** More sample data. *)
Module Samples.

(** The five records the generator makes with the sample generator of
    [Demo]. *)
Definition five_generated : Frame.dataframe :=
  [ Frame.Row "user_000000" 78 "treatment" 1;
    Frame.Row "user_000001" 76 "treatment" 0;
    Frame.Row "user_000002" 26 "control" 0;
    Frame.Row "user_000003" 32 "treatment" 0;
    Frame.Row "user_000004" 70 "control" 0 ]%Z.

(** Six events of three users on two days. *)
Definition six_events : list Demo.event :=
  [ Demo.Event "u1" 9 "fantasy" "read" 25;
    Demo.Event "u2" 9 "history" "read" 40;
    Demo.Event "u1" 21 "fantasy" "read" 10;
    Demo.Event "u3" 33 "fantasy" "click" 5;
    Demo.Event "u3" 45 "history" "read" 30;
    Demo.Event "u1" 45 "history" "read" 15 ]%Z.

(** The day of an event, as the text of its date, and its hour, from a
    timestamp in hours. *)
Definition event_date (e : Demo.event) : string :=
  if (Demo.ev_timestamp e <? 24)%Z then "2024-01-01" else "2024-01-02".

Definition event_hour (e : Demo.event) : Z := (Demo.ev_timestamp e mod 24)%Z.

(** A world that remembers what ran; [data_cleaner.py] fails in it. *)
Definition cleaner_fails (script : string) (log : list string)
  : bool * list string :=
  (negb (String.eqb script "data_cleaner.py"), script :: log).

End Samples.

(* ================================================================== *)
(** * Facts about rationals and doubles *)
(* ================================================================== *)

Lemma Qeq_bool_false (x y : Q) : ~ x == y -> Qeq_bool x y = false.
Proof.
  intros H. destruct (Qeq_bool x y) eqn:E; [|reflexivity].
  apply Qeq_bool_iff in E. contradiction.
Qed.

Lemma Qle_bool_false (x y : Q) : Qle_bool x y = false -> y < x.
Proof.
  intros E. apply Qnot_le_lt. intros H. apply Qle_bool_iff in H. congruence.
Qed.

Lemma Qlt_bool_true (x y : Q) : x < y -> Qlt_bool x y = true.
Proof.
  intros H. unfold Qlt_bool. destruct (Qle_bool y x) eqn:E; [|reflexivity].
  apply Qle_bool_iff in E. lra.
Qed.

Lemma Qlt_bool_false (x y : Q) : y <= x -> Qlt_bool x y = false.
Proof.
  intros H. unfold Qlt_bool. apply Qle_bool_iff in H. now rewrite H.
Qed.

Lemma Qabs_cases (x : Q) :
  (0 <= x /\ Qabs x == x) \/ (x <= 0 /\ Qabs x == - x).
Proof.
  destruct (Qlt_le_dec x 0) as [H|H].
  - right. split; [lra|]. apply Qabs_neg. lra.
  - left. split; [exact H|]. now apply Qabs_pos.
Qed.

Lemma inject_Z_pos (z : Z) : (0 < z)%Z -> 0 < inject_Z z.
Proof. intros H. unfold Qlt, inject_Z; simpl. lia. Qed.

Lemma inject_Z_nonzero (z : Z) : z <> 0%Z -> ~ inject_Z z == 0.
Proof. intros H E. unfold Qeq, inject_Z in E; simpl in E. lia. Qed.

(** Facts about the rounding to doubles. *)
Module DoubleFacts.
Import Double.

Lemma pow2_pos (e : Z) : 0 < pow2 e.
Proof. apply Qpower_0_lt. reflexivity. Qed.

Lemma pow2_add (a b : Z) : pow2 (a + b) == pow2 a * pow2 b.
Proof. apply Qpower_plus. discriminate. Qed.

Lemma pow2_succ (a : Z) : pow2 (a + 1) == 2 * pow2 a.
Proof. rewrite pow2_add. unfold pow2 at 2. rewrite Qpower_1_r. ring. Qed.

Lemma pow2_lt (a b : Z) : (a < b)%Z -> pow2 a < pow2 b.
Proof. intros H. apply Qpower_lt_compat_l; [exact H | reflexivity]. Qed.

Lemma pow2_le (a b : Z) : (a <= b)%Z -> pow2 a <= pow2 b.
Proof. intros H. apply Qpower_le_compat_l; [exact H | discriminate]. Qed.

Lemma pow2_lt_inv (a b : Z) : pow2 a < pow2 b -> (a < b)%Z.
Proof. intros H. apply (Qpower_lt_compat_l_inv 2); [exact H | reflexivity]. Qed.

Lemma pow2_inject (e : Z) : (0 <= e)%Z -> pow2 e == inject_Z (2 ^ e).
Proof. intros H. unfold pow2. now rewrite Zpower_Qpower. Qed.

Lemma pow2_inv (a b : Z) : pow2 a * pow2 b == pow2 (a + b).
Proof. now rewrite pow2_add. Qed.

(** The binade of a positive number holds it. *)
Lemma binade_spec (q : Q) :
  0 < q -> pow2 (binade q) <= q /\ q < pow2 (binade q + 1).
Proof.
  intros Hq. destruct q as [n d].
  assert (Hn : (0 < n)%Z) by (unfold Qlt in Hq; simpl in Hq; lia).
  unfold binade. cbn [Qnum Qden].
  set (a := Z.log2 n). set (b := Z.log2 (Z.pos d)).
  destruct (Z.log2_spec n Hn) as [Na Na'].
  destruct (Z.log2_spec (Z.pos d) (Pos2Z.is_pos d)) as [Db Db'].
  fold a in Na, Na'. fold b in Db, Db'.
  pose proof (Z.log2_nonneg n) as Ha. pose proof (Z.log2_nonneg (Z.pos d)) as Hb.
  fold a in Ha. fold b in Hb.
  rewrite Zle_Qle, <- pow2_inject in Na, Db by lia.
  rewrite Zlt_Qlt, <- pow2_inject in Na', Db' by lia.
  replace (Z.succ a) with (a + 1)%Z in Na' by lia.
  replace (Z.succ b) with (b + 1)%Z in Db' by lia.
  rewrite pow2_succ in Na', Db'.
  pose proof (pow2_pos a) as Pa. pose proof (pow2_pos b) as Pb.
  assert (Eab : pow2 (a - b) * pow2 b == pow2 a).
  { rewrite pow2_inv. now replace (a - b + b)%Z with a by lia. }
  assert (Eq : (n # d) * inject_Z (Z.pos d) == inject_Z n).
  { rewrite (Qmake_Qdiv n d). field. intros E.
    unfold Qeq, inject_Z in E; simpl in E. lia. }
  set (q := n # d) in *. set (N := inject_Z n) in *.
  set (D := inject_Z (Z.pos d)) in *.
  set (A := pow2 a) in *. set (B := pow2 b) in *. set (R := pow2 (a - b)) in *.
  assert (HR : 0 < R) by apply pow2_pos.
  destruct (Qle_bool R q) eqn:E.
  - apply Qle_bool_iff in E. split; [exact E|].
    rewrite pow2_succ. fold R.
    (* q * D = N < 2A = 2 R B <= 2 R D *)
    apply Qnot_le_lt. intros Hc.
    assert (H1 : 2 * R * D <= q * D) by nra.
    assert (H2 : 2 * R * B <= 2 * R * D) by nra.
    nra.
  - apply Qle_bool_false in E.
    replace (a - b - 1 + 1)%Z with (a - b)%Z by lia. fold R.
    split; [|exact E].
    assert (ER : pow2 (a - b - 1) * 2 == R).
    { unfold R. replace (a - b)%Z with (a - b - 1 + 1)%Z at 2 by lia.
      rewrite pow2_succ. ring. }
    set (R' := pow2 (a - b - 1)) in *.
    assert (HR' : 0 < R') by apply pow2_pos.
    apply Qnot_lt_le. intros Hc.
    (* N = q D < R' D < R' 2 B = R B = A <= N *)
    assert (H1 : q * D < R' * D) by nra.
    assert (H2 : R' * D < R' * (2 * B)) by nra.
    nra.
Qed.

Lemma binade_unique (q : Q) (e : Z) :
  pow2 e <= q -> q < pow2 (e + 1) -> binade q = e.
Proof.
  intros Hlo Hhi.
  assert (Hq : 0 < q) by (pose proof (pow2_pos e); lra).
  destruct (binade_spec q Hq) as [Blo Bhi].
  assert (H1 : (binade q < e + 1)%Z) by (apply pow2_lt_inv; lra).
  assert (H2 : (e < binade q + 1)%Z) by (apply pow2_lt_inv; lra).
  lia.
Qed.

(** Rounding to the nearest integer moves a number by a half at most. *)
Lemma round_half_even_near (q : Q) :
  q - (1 # 2) <= inject_Z (round_half_even q) <= q + (1 # 2).
Proof.
  unfold round_half_even.
  pose proof (Qfloor_le q) as Hf. pose proof (Qlt_floor q) as Hc.
  rewrite inject_Z_plus in Hc. change (inject_Z 1) with 1 in Hc.
  destruct (Qcompare_spec (q - inject_Z (Qfloor q)) (1 # 2)) as [E|E|E].
  - destruct (Z.even (Qfloor q)).
    + split; lra.
    + rewrite inject_Z_plus. change (inject_Z 1) with 1. split; lra.
  - split; lra.
  - rewrite inject_Z_plus. change (inject_Z 1) with 1. split; lra.
Qed.

(** Rounding to the nearest integer does not cross an integer. *)
Lemma round_half_even_ge (q : Q) (lo : Z) :
  inject_Z lo <= q -> (lo <= round_half_even q)%Z.
Proof.
  intros Hlo. unfold round_half_even.
  assert (Hlo' : (lo <= Qfloor q)%Z).
  { pose proof (Qfloor_resp_le _ _ Hlo) as H. now rewrite Qfloor_Z in H. }
  destruct (Qcompare (q - inject_Z (Qfloor q)) (1 # 2));
    [destruct (Z.even (Qfloor q))| |]; lia.
Qed.

Lemma round_half_even_le (q : Q) (hi : Z) :
  q <= inject_Z hi -> (round_half_even q <= hi)%Z.
Proof.
  intros Hhi. unfold round_half_even.
  pose proof (Qfloor_le q) as Hf.
  assert (Hhi' : (Qfloor q <= hi)%Z).
  { pose proof (Qfloor_resp_le _ _ Hhi) as H. now rewrite Qfloor_Z in H. }
  assert (Hup : inject_Z (Qfloor q) < q -> (Qfloor q + 1 <= hi)%Z).
  { intros Hlt. assert (H : inject_Z (Qfloor q) < inject_Z hi) by lra.
    rewrite <- Zlt_Qlt in H. lia. }
  destruct (Qcompare_spec (q - inject_Z (Qfloor q)) (1 # 2)) as [E|E|E].
  - destruct (Z.even (Qfloor q)); [lia|]. apply Hup. lra.
  - lia.
  - apply Hup. lra.
Qed.

Lemma Qabs_of_nonneg (x : Q) : 0 <= x -> Qabs x = x.
Proof.
  destruct x as [n d]. unfold Qle, Qabs. cbn [Qnum Qden]. intros H.
  f_equal. lia.
Qed.

(** The two candidates for the spacing of the doubles around a number. *)
Lemma double_eq (q : Q) :
  exists e, (-1022 <= e)%Z /\ (binade (Qabs q) <= e)%Z /\
    (e = binade (Qabs q) \/ e = (-1022)%Z) /\
    double q = inject_Z (round_half_even (q / pow2 (e - 52))) * pow2 (e - 52).
Proof.
  exists (Z.max (binade (Qabs q)) (-1022)). repeat split; try lia.
Qed.

Lemma double_nonneg (x : Q) : 0 <= x -> 0 <= double x.
Proof.
  intros Hx. destruct (double_eq x) as [e [_ [_ [_ ->]]]].
  pose proof (pow2_pos (e - 52)) as Hu.
  assert (H : (0 <= round_half_even (x / pow2 (e - 52)))%Z).
  { apply round_half_even_ge. change (inject_Z 0) with 0.
    apply Qle_shift_div_l; [exact Hu | lra]. }
  rewrite Zle_Qle in H. change (inject_Z 0) with 0 in H. nra.
Qed.

(** Rounding to a double does not cross an integer below [2^53]. *)
Lemma double_le_int (x : Q) (b : Z) :
  (0 < b < 2 ^ 53)%Z -> x <= inject_Z b -> double x <= inject_Z b.
Proof.
  intros [Hb0 Hb1] Hx. destruct (double_eq x) as [e [He [Hbin [Hcase ->]]]].
  pose proof (pow2_pos (e - 52)) as Hu.
  assert (Hb0' : 0 < inject_Z b).
  { change 0 with (inject_Z 0). now rewrite <- Zlt_Qlt. }
  destruct (Qlt_le_dec 0 x) as [Hpos|Hneg].
  - assert (He52 : (e <= 52)%Z).
    { destruct Hcase as [->| ->]; [|lia].
      rewrite Qabs_of_nonneg by lra.
      destruct (binade_spec x Hpos) as [Blo _].
      assert (H : pow2 (binade x) < pow2 53).
      { rewrite (pow2_inject 53) by lia.
        assert (H53 : inject_Z b < inject_Z (2 ^ 53)) by now rewrite <- Zlt_Qlt.
        lra. }
      apply pow2_lt_inv in H. lia. }
    assert (Einv : inject_Z (2 ^ (52 - e)) * pow2 (e - 52) == 1).
    { rewrite <- pow2_inject by lia. rewrite pow2_inv.
      now replace (52 - e + (e - 52))%Z with 0%Z by lia. }
    assert (H : (round_half_even (x / pow2 (e - 52)) <= b * 2 ^ (52 - e))%Z).
    { apply round_half_even_le. rewrite inject_Z_mult.
      apply Qle_shift_div_r; [exact Hu|].
      rewrite <- Qmult_assoc, Einv. lra. }
    rewrite Zle_Qle, inject_Z_mult in H.
    set (k := inject_Z (round_half_even (x / pow2 (e - 52)))) in *.
    set (u := pow2 (e - 52)) in *. set (m := inject_Z (2 ^ (52 - e))) in *.
    assert (H' : k * u <= inject_Z b * m * u) by nra.
    rewrite <- Qmult_assoc, Einv in H'. lra.
  - assert (H : (round_half_even (x / pow2 (e - 52)) <= 0)%Z).
    { apply round_half_even_le. change (inject_Z 0) with 0.
      apply Qle_shift_div_r; [exact Hu | lra]. }
    rewrite Zle_Qle in H. change (inject_Z 0) with 0 in H. nra.
Qed.

(** A number of [1/2, 1) that is more than a quarter of the spacing
    [2^-52] below 1 is rounded to a double of [1/2, 1). *)
Lemma double_below_one (x : Q) :
  1 # 2 <= x -> x < 1 - pow2 (-54) -> 1 # 2 <= double x /\ double x < 1.
Proof.
  intros Hlo Hhi.
  pose proof (pow2_pos (-54)) as H54.
  assert (Hb : binade (Qabs x) = (-1)%Z).
  { rewrite Qabs_of_nonneg by lra. apply binade_unique.
    - change (pow2 (-1)) with (1 # 2). exact Hlo.
    - change (pow2 (-1 + 1)) with 1. lra. }
  unfold double. rewrite Hb. change (Z.max (-1) (-1022) - 52)%Z with (-53)%Z.
  pose proof (pow2_pos (-53)) as Hu.
  assert (E53 : pow2 53 * pow2 (-53) == 1) by reflexivity.
  assert (E54 : pow2 (-54) * pow2 53 == 1 # 2) by reflexivity.
  assert (Ey : x / pow2 (-53) == x * pow2 53).
  { field_simplify_eq; [|lra]. rewrite <- Qmult_assoc, E53. ring. }
  pose proof (pow2_pos 53) as Hp.
  set (y := x / pow2 (-53)) in *.
  assert (E52 : inject_Z (2 ^ 52) == (1 # 2) * pow2 53) by reflexivity.
  assert (E53' : inject_Z (2 ^ 53) == pow2 53) by reflexivity.
  assert (Hy1 : inject_Z (2 ^ 52) <= y).
  { rewrite Ey, E52. nra. }
  assert (Hy2 : y + (1 # 2) < inject_Z (2 ^ 53)).
  { rewrite Ey, E53'.
    assert (x * pow2 53 < (1 - pow2 (-54)) * pow2 53) by nra. lra. }
  pose proof (round_half_even_ge y _ Hy1) as K1.
  pose proof (round_half_even_near y) as [_ K2].
  assert (K3 : (round_half_even y < 2 ^ 53)%Z).
  { rewrite Zlt_Qlt. lra. }
  assert (K4 : (round_half_even y <= 2 ^ 53 - 1)%Z) by lia.
  rewrite Zle_Qle in K1, K4.
  unfold Zminus in K4. rewrite inject_Z_plus in K4.
  rewrite E53' in K4. rewrite E52 in K1.
  change (inject_Z (- (1))) with (- (1)) in K4.
  set (k := inject_Z (round_half_even y)) in *.
  split; nra.
Qed.


Lemma pow2_le_inv (a b : Z) : pow2 a <= pow2 b -> (a <= b)%Z.
Proof. intros H. apply (Qpower_le_compat_l_inv 2); [exact H | reflexivity]. Qed.

(** Rounding to a double moves a number below [2^k] by [2^(k-53)] at
    most. *)
Lemma double_near (x : Q) (k : Z) :
  (-1022 <= k)%Z -> 0 <= x -> x <= pow2 k ->
  - pow2 (k - 53) <= double x - x <= pow2 (k - 53).
Proof.
  intros Hk Hx0 Hx. destruct (double_eq x) as [e [He [Hbin [Hcase ->]]]].
  pose proof (pow2_pos (e - 52)) as Hu.
  pose proof (pow2_pos (k - 53)) as Hk53.
  pose proof (round_half_even_near (x / pow2 (e - 52))) as [N1 N2].
  assert (Ey : x / pow2 (e - 52) * pow2 (e - 52) == x) by (field; lra).
  set (y := x / pow2 (e - 52)) in *.
  set (r := inject_Z (round_half_even y)) in *.
  apply Qle_lteq in Hx0 as [Hpos|Hzero].
  - assert (Hek : (e <= k)%Z).
    { destruct Hcase as [->| ->]; [|exact Hk].
      rewrite Qabs_of_nonneg by lra.
      destruct (binade_spec _ Hpos) as [Blo _].
      apply pow2_le_inv. lra. }
    assert (Hle : pow2 (e - 53) <= pow2 (k - 53)) by (apply pow2_le; lia).
    assert (Eh : pow2 (e - 52) == 2 * pow2 (e - 53)).
    { replace (e - 52)%Z with (e - 53 + 1)%Z by lia. apply pow2_succ. }
    set (u := pow2 (e - 52)) in *. set (h := pow2 (e - 53)) in *.
    assert (H1 : (y - (1 # 2)) * u <= r * u) by nra.
    assert (H2 : r * u <= (y + (1 # 2)) * u) by nra.
    split; nra.
  - assert (Hy : y == 0).
    { unfold y. rewrite <- Hzero. unfold Qdiv. ring. }
    assert (Hr : round_half_even y = 0%Z).
    { assert (A : (0 <= round_half_even y)%Z).
      { apply round_half_even_ge. rewrite Hy. apply Qle_refl. }
      assert (B : (round_half_even y <= 0)%Z).
      { apply round_half_even_le. rewrite Hy. apply Qle_refl. }
      lia. }
    unfold r. rewrite Hr. change (inject_Z 0) with 0. split; nra.
Qed.

End DoubleFacts.

(* ================================================================== *)
(** * The chi-square test on a 2x2 table *)
(* ================================================================== *)

Module Chi2Facts.

Import Scipy Frame ABTest.

Lemma expected_pos (r c n : Z) :
  (0 < r)%Z -> (0 < c)%Z -> (0 < n)%Z -> 0 < Spec.expected r c n.
Proof.
  intros Hr Hc Hn. unfold Spec.expected.
  apply Qlt_shift_div_l; [now apply inject_Z_pos|].
  rewrite Qmult_0_l.
  apply Qmult_lt_0_compat; now apply inject_Z_pos.
Qed.

(** One cell: the square of the residual after [yates] is the square of
    the shortened distance. *)
Lemma yates_residual_sq (o e : Q) :
  (yates o e - e) * (yates o e - e)
  == Spec.corrected_distance o e * Spec.corrected_distance o e.
Proof.
  unfold yates, Spec.corrected_distance, Qminimum, Qsign.
  assert (Hsym : Qabs (e - o) == Qabs (o - e)).
  { rewrite <- Qabs_opp. apply Qabs_wd. ring. }
  assert (Hb : Qle_bool (1 # 2) (Qabs (e - o))
               = Qle_bool (1 # 2) (Qabs (o - e))).
  { destruct (Qle_bool (1 # 2) (Qabs (o - e))) eqn:E.
    - apply Qle_bool_iff. apply Qle_bool_iff in E. now rewrite Hsym.
    - destruct (Qle_bool (1 # 2) (Qabs (e - o))) eqn:E'; [|reflexivity].
      apply Qle_bool_iff in E'. rewrite Hsym in E'.
      apply Qle_bool_iff in E'. congruence. }
  rewrite Hb.
  destruct (Qabs_cases (o - e)) as [[Hs Ha]|[Hs Ha]];
  destruct (Qle_bool (1 # 2) (Qabs (o - e))) eqn:E;
  try (apply Qle_bool_iff in E); try (apply Qle_bool_false in E);
  destruct (Qcompare_spec (e - o) 0) as [Hc|Hc|Hc];
  rewrite ?Hsym, ?Ha in *; try lra; try nra.
Qed.

Lemma corrected_distance_nonneg (o e : Q) : 0 <= Spec.corrected_distance o e.
Proof.
  unfold Spec.corrected_distance.
  destruct (Qle_bool (1 # 2) (Qabs (o - e))) eqn:E; [|lra].
  apply Qle_bool_iff in E. lra.
Qed.

Lemma corrected_distance_zero (o e : Q) :
  Spec.corrected_distance o e == 0 <-> Qabs (o - e) <= 1 # 2.
Proof.
  unfold Spec.corrected_distance.
  destruct (Qle_bool (1 # 2) (Qabs (o - e))) eqn:E.
  - apply Qle_bool_iff in E. split; intros H; lra.
  - apply Qle_bool_false in E. split; intros H; lra.
Qed.

(** The contribution of one cell is non-negative, and nothing exactly
    when the cell is within a half of its expectation. *)
Lemma corrected_term (o e : Q) :
  0 < e ->
  let t := Spec.corrected_distance o e * Spec.corrected_distance o e / e in
  0 <= t /\ (t == 0 <-> Qabs (o - e) <= 1 # 2).
Proof.
  intros He t. subst t.
  pose proof (corrected_distance_nonneg o e) as Hd.
  rewrite <- corrected_distance_zero.
  set (x := Spec.corrected_distance o e) in *.
  pose proof (Qinv_lt_0_compat e He) as Hi.
  unfold Qdiv. set (i := / e) in *.
  split; [nra|]. split; intros H.
  - destruct (Qeq_dec x 0) as [E|E]; [exact E|].
    assert (Hx : 0 < x) by lra.
    assert (Hxx : 0 < x * x) by nra.
    assert (Hxxi : 0 < x * x * i) by nra. lra.
  - rewrite H. ring.
Qed.

(** The counts of a cross-tabulation are counts. *)
Lemma crosstab_nonneg (df : dataframe) :
  Forall (Forall (fun x => (0 <= x)%Z)) (crosstab df).
Proof.
  unfold crosstab. apply Forall_forall. intros line Hl.
  apply in_map_iff in Hl as [g [<- _]].
  apply Forall_forall. intros x Hx.
  apply in_map_iff in Hx as [c [<- _]].
  unfold count_cell. lia.
Qed.

Section WithFloatLib.
Context {FL : FloatLib}.

(** What [chi2_contingency] does on a 2x2 table with positive margins:
    one degree of freedom, Yates' correction, no exception. *)
Lemma chi2_contingency_2x2 (a b c d : Z) :
  (0 <= a)%Z -> (0 <= b)%Z -> (0 <= c)%Z -> (0 <= d)%Z ->
  (0 < a + b)%Z -> (0 < c + d)%Z -> (0 < a + c)%Z -> (0 < b + d)%Z ->
  exists r s,
    chi2_contingency [[a; b]; [c; d]] = Ok r /\
    chi2_statistic r = Fin s /\
    p_value r = Fin (chi2_sf s 1) /\
    degrees_of_freedom r = 1%Z /\
    s == Spec.yates_statistic a b c d.
Proof.
  intros Ha Hb Hc Hd Hr1 Hr2 Hc1 Hc2.
  unfold chi2_contingency.
  replace (has_negative [[a; b]; [c; d]]) with false.
  2:{ unfold has_negative. cbn [existsb].
      repeat match goal with
             | |- context [(?x <? 0)%Z] => destruct (Z.ltb_spec x 0); [lia|]
             end.
      reflexivity. }
  change (size [[a; b]; [c; d]]) with 4%Z.
  change (n_rows [[a; b]; [c; d]]) with 2%Z.
  change (n_cols [[a; b]; [c; d]]) with 2%Z.
  change (4 - (2 + 2) + 2 - 1)%Z with 1%Z.
  cbn [Z.eqb Pos.eqb].
  assert (Hexp : expected_freq [[a; b]; [c; d]] =
    let n := (a + b + c + d)%Z in
    [[Spec.expected (a + b) (a + c) n; Spec.expected (a + b) (b + d) n];
     [Spec.expected (c + d) (a + c) n; Spec.expected (c + d) (b + d) n]]).
  { unfold expected_freq, total, row_sums, Spec.expected.
    cbn [map sumZ fold_right col_sums zip_with].
    replace (a + (b + 0))%Z with (a + b)%Z by lia.
    replace (c + (d + 0))%Z with (c + d)%Z by lia.
    replace (a + b + (c + d + 0))%Z with (a + b + c + d)%Z by lia.
    reflexivity. }
  unfold total, row_sums. cbn [map sumZ fold_right].
  destruct (Z.eqb_spec (a + (b + 0) + (c + (d + 0) + 0)) 0) as [E|_]; [lia|].
  rewrite Hexp. cbv zeta.
  assert (Hn : (0 < a + b + c + d)%Z) by lia.
  pose proof (expected_pos _ _ _ Hr1 Hc1 Hn) as P11.
  pose proof (expected_pos _ _ _ Hr1 Hc2 Hn) as P12.
  pose proof (expected_pos _ _ _ Hr2 Hc1 Hn) as P21.
  pose proof (expected_pos _ _ _ Hr2 Hc2 Hn) as P22.
  replace (has_zero _) with false.
  2:{ unfold has_zero. cbn [existsb].
      rewrite !Qeq_bool_false; [reflexivity| | | |]; lra. }
  eexists. eexists. split; [reflexivity|].
  cbn [chi2_statistic p_value degrees_of_freedom].
  repeat split.
  unfold pearson_sum, Spec.yates_statistic, Spec.sum_over, Spec.cells,
    pearson_term.
  cbn [map zip_with sumQ fold_right fst snd]. cbv zeta.
  rewrite !yates_residual_sq. field. repeat split; lra.
Qed.

(** A 2x2 table of counts with an empty column is refused. *)
Lemma chi2_contingency_empty_column (a b c d : Z) :
  (0 <= a)%Z -> (0 <= b)%Z -> (0 <= c)%Z -> (0 <= d)%Z ->
  (0 < a + b + c + d)%Z ->
  (a + c = 0)%Z \/ (b + d = 0)%Z ->
  chi2_contingency [[a; b]; [c; d]] = Raise ValueError.
Proof.
  intros Ha Hb Hc Hd Hn Hcol.
  unfold chi2_contingency.
  replace (has_negative [[a; b]; [c; d]]) with false.
  2:{ unfold has_negative. cbn [existsb].
      repeat match goal with
             | |- context [(?x <? 0)%Z] => destruct (Z.ltb_spec x 0); [lia|]
             end.
      reflexivity. }
  change (size [[a; b]; [c; d]]) with 4%Z. cbn [Z.eqb].
  unfold total, row_sums. cbn [map sumZ fold_right].
  destruct (Z.eqb_spec (a + (b + 0) + (c + (d + 0) + 0)) 0) as [E|_]; [lia|].
  replace (has_zero (expected_freq [[a; b]; [c; d]])) with true; [reflexivity|].
  symmetry. unfold has_zero, expected_freq, total, row_sums.
  cbn [map sumZ fold_right col_sums zip_with existsb].
  destruct Hcol as [E|E]; rewrite E.
  - replace (Qeq_bool _ 0) with true at 1; [reflexivity|].
    symmetry. apply Qeq_bool_iff. unfold Qdiv. change (inject_Z 0) with 0. ring.
  - match goal with
    | |- (?x || (?y || false) || _)%bool = true =>
        replace y with true; [now rewrite !orb_true_r|]
    end.
    symmetry. apply Qeq_bool_iff. unfold Qdiv. change (inject_Z 0) with 0. ring.
Qed.

(** The table of a simulated trial, from two draws between 0 and a
    positive sample size: it is refused when both groups drew no success
    or both drew nothing but successes, and goes through the test with
    one degree of freedom otherwise. *)
Lemma trial_table_cases (n cc tc : Z) :
  (0 < n)%Z -> (0 <= cc <= n)%Z -> (0 <= tc <= n)%Z ->
  let contingency_table := [[cc; (n - cc)%Z]; [tc; (n - tc)%Z]] in
  let same_everywhere := (cc = 0%Z /\ tc = 0%Z) \/ (cc = n /\ tc = n) in
  (same_everywhere -> chi2_contingency contingency_table = Raise ValueError) /\
  (~ same_everywhere ->
   exists r, chi2_contingency contingency_table = Ok r /\
             degrees_of_freedom r = 1%Z).
Proof.
  intros Hn Hc Ht. cbv zeta. split.
  - intros Hsame. apply chi2_contingency_empty_column; lia.
  - intros Hnot.
    destruct (chi2_contingency_2x2 cc (n - cc) tc (n - tc))
      as [r [s [Hr [_ [_ [Hd _]]]]]]; try lia.
    exists r. auto.
Qed.

(** The same through [chi_square_test], for a table of records whose
    cross-tabulation is 2x2. *)
Lemma chi_square_test_2x2 (df : dataframe) (a b c d : Z) :
  crosstab df = [[a; b]; [c; d]] ->
  (0 < a + b)%Z -> (0 < c + d)%Z -> (0 < a + c)%Z -> (0 < b + d)%Z ->
  exists r s,
    chi_square_test df = Ok r /\
    chi2_statistic r = Fin s /\
    p_value r = Fin (chi2_sf s 1) /\
    degrees_of_freedom r = 1%Z /\
    s == Spec.yates_statistic a b c d.
Proof.
  intros Ht Hr1 Hr2 Hc1 Hc2.
  pose proof (crosstab_nonneg df) as Hnn. rewrite Ht in Hnn.
  inversion Hnn as [|? ? L1 Hnn']; subst.
  inversion Hnn' as [|? ? L2 _]; subst.
  inversion L1 as [|? ? Ha L1']; subst. inversion L1' as [|? ? Hb _]; subst.
  inversion L2 as [|? ? Hc L2']; subst. inversion L2' as [|? ? Hd _]; subst.
  unfold chi_square_test. rewrite Ht.
  now apply chi2_contingency_2x2.
Qed.

End WithFloatLib.

Example crosstab_eight_users : crosstab Demo.eight_users = [[3; 1]; [1; 3]]%Z.
Proof. reflexivity. Qed.

Example crosstab_six_users : crosstab Demo.six_users = [[2; 1]; [1; 2]]%Z.
Proof. reflexivity. Qed.

(** C1, as claimed, fails: on the table [[3, 1], [1, 3]] the uncorrected
    Pearson statistic is 2, and [chi_square_test] returns 1/2. *)
Lemma chi_square_test_not_uncorrected :
  crosstab Demo.eight_users = [[3; 1]; [1; 3]]%Z /\
  Spec.pearson_statistic 3 1 1 3 == 2 /\
  exists r s,
    chi_square_test (FL := Demo.table_float) Demo.eight_users = Ok r /\
    chi2_statistic r = Fin s /\
    s == 1 # 2 /\
    ~ s == Spec.pearson_statistic 3 1 1 3.
Proof.
  split; [reflexivity|]. split; [reflexivity|].
  eexists. eexists. split; [vm_compute; reflexivity|].
  split; [reflexivity|]. split; [reflexivity|].
  intros H. vm_compute in H. discriminate H.
Qed.

(** C1, amended: for every table of records whose cross-tabulation is a
    2x2 table with strictly positive row and column totals,
    [chi_square_test] returns the Pearson statistic with Yates' continuity
    correction: the sum over the four cells of
    [(|observed - expected| - min(1/2, |observed - expected|))^2 / expected],
    with [expected[i][j] = row_total[i] * col_total[j] / grand_total]. *)
Theorem chi_square_test_yates_corrected
    {FL : FloatLib} (df : dataframe) (a b c d : Z) :
  crosstab df = [[a; b]; [c; d]] ->
  (0 < a + b)%Z -> (0 < c + d)%Z -> (0 < a + c)%Z -> (0 < b + d)%Z ->
  exists r s,
    chi_square_test df = Ok r /\
    chi2_statistic r = Fin s /\
    s == Spec.yates_statistic a b c d.
Proof.
  intros Ht Hr1 Hr2 Hc1 Hc2.
  destruct (chi_square_test_2x2 df a b c d Ht Hr1 Hr2 Hc1 Hc2)
    as [r [s [Hr [Hs [_ [_ Hy]]]]]].
  exists r, s. auto.
Qed.

Lemma chi_square_test_yates_corrected_witness :
  exists r s,
    chi_square_test (FL := Demo.table_float) Demo.eight_users = Ok r /\
    chi2_statistic r = Fin s /\
    s == Spec.yates_statistic 3 1 1 3.
Proof.
  apply (chi_square_test_yates_corrected Demo.eight_users 3 1 1 3);
    [reflexivity | lia | lia | lia | lia].
Defined.

(** C3, as claimed, fails: on the table [[2, 1], [1, 2]] the statistic is
    zero although no cell equals its expectation of 3/2. *)
Lemma chi_square_zero_not_proportional :
  crosstab Demo.six_users = [[2; 1]; [1; 2]]%Z /\
  ~ Spec.proportional 2 1 1 2 /\
  exists r s,
    chi_square_test (FL := Demo.table_float) Demo.six_users = Ok r /\
    chi2_statistic r = Fin s /\
    s == 0.
Proof.
  split; [reflexivity|]. split.
  - intros H. inversion H as [|? ? H1 _]; subst.
    vm_compute in H1. discriminate H1.
  - eexists. eexists. split; [vm_compute; reflexivity|].
    split; reflexivity.
Qed.

(** C3, amended: for every table of records whose cross-tabulation is a
    2x2 table with strictly positive margins, the statistic returned by
    [chi_square_test] is non-negative, and it is zero if and only if every
    cell is within 1/2 of its expected frequency; in particular it is zero
    when observed equals expected in all four cells. *)
Theorem chi_square_statistic_nonneg_zero_iff
    {FL : FloatLib} (df : dataframe) (a b c d : Z) :
  crosstab df = [[a; b]; [c; d]] ->
  (0 < a + b)%Z -> (0 < c + d)%Z -> (0 < a + c)%Z -> (0 < b + d)%Z ->
  exists r s,
    chi_square_test df = Ok r /\
    chi2_statistic r = Fin s /\
    0 <= s /\
    (s == 0 <-> Spec.within_half a b c d) /\
    (Spec.proportional a b c d -> s == 0).
Proof.
  intros Ht Hr1 Hr2 Hc1 Hc2.
  destruct (chi_square_test_2x2 df a b c d Ht Hr1 Hr2 Hc1 Hc2)
    as [r [s [Hr [Hs [_ [_ Hy]]]]]].
  exists r, s. split; [exact Hr|]. split; [exact Hs|].
  assert (Hn : (0 < a + b + c + d)%Z) by lia.
  pose proof (expected_pos _ _ _ Hr1 Hc1 Hn) as P11.
  pose proof (expected_pos _ _ _ Hr1 Hc2 Hn) as P12.
  pose proof (expected_pos _ _ _ Hr2 Hc1 Hn) as P21.
  pose proof (expected_pos _ _ _ Hr2 Hc2 Hn) as P22.
  assert (Hiff : 0 <= s /\ (s == 0 <-> Spec.within_half a b c d)).
  { rewrite Hy.
    unfold Spec.yates_statistic, Spec.within_half, Spec.sum_over, Spec.cells.
    cbn [fold_right fst snd]. cbv zeta.
    destruct (corrected_term (inject_Z a) _ P11) as [N1 Z1].
    destruct (corrected_term (inject_Z b) _ P12) as [N2 Z2].
    destruct (corrected_term (inject_Z c) _ P21) as [N3 Z3].
    destruct (corrected_term (inject_Z d) _ P22) as [N4 Z4].
    cbv zeta in *.
    split; [lra|]. split.
    - intros H0.
      repeat (apply Forall_cons); cbn [fst snd];
        [apply Z1 | apply Z2 | apply Z3 | apply Z4 | apply Forall_nil]; lra.
    - intros HF.
      inversion HF as [|? ? W1 HF1]; subst.
      inversion HF1 as [|? ? W2 HF2]; subst.
      inversion HF2 as [|? ? W3 HF3]; subst.
      inversion HF3 as [|? ? W4 _]; subst.
      cbn [fst snd] in *.
      apply Z1 in W1. apply Z2 in W2. apply Z3 in W3. apply Z4 in W4. lra. }
  destruct Hiff as [Hnonneg Hiff].
  split; [exact Hnonneg|]. split; [exact Hiff|].
  intros Hp. apply Hiff. unfold Spec.within_half, Spec.proportional in *.
  eapply Forall_impl; [|exact Hp].
  intros [o e] Hoe. cbn [fst snd] in *.
  assert (Hz : o - e == 0) by lra.
  rewrite Hz. vm_compute. discriminate.
Qed.

Lemma chi_square_statistic_nonneg_zero_iff_witness :
  exists r s,
    chi_square_test (FL := Demo.table_float) Demo.six_users = Ok r /\
    chi2_statistic r = Fin s /\
    0 <= s /\
    (s == 0 <-> Spec.within_half 2 1 1 2) /\
    (Spec.proportional 2 1 1 2 -> s == 0).
Proof.
  apply (chi_square_statistic_nonneg_zero_iff Demo.six_users 2 1 1 2);
    [reflexivity | lia | lia | lia | lia].
Defined.

End Chi2Facts.

(* ================================================================== *)
(** * The confidence interval *)
(* ================================================================== *)

Module IntervalFacts.

Import ABTest.

Lemma sdiv_eq (x y : scalar) :
  sdiv x y =
  if raises_on_zero (join (kind x) (kind y)) && is_zero (val y)
  then Raise ZeroDivisionError
  else Ok (Scalar (join (kind x) (kind y)) (fdiv (val x) (val y))).
Proof.
  unfold sdiv. destruct (join (kind x) (kind y)); cbn [raises_on_zero andb].
  - destruct (is_zero (val y)); reflexivity.
  - reflexivity.
Qed.

Lemma Qeq_bool_inject_Z (z : Z) : Qeq_bool (inject_Z z) 0 = (z =? 0)%Z.
Proof. unfold Qeq_bool, inject_Z, Qnum, Qden. f_equal; lia. Qed.

Lemma rate_zero_iff (c t : Z) : t <> 0%Z -> (Spec.rate c t == 0 <-> c = 0%Z).
Proof.
  intros Ht. unfold Spec.rate.
  pose proof (inject_Z_nonzero t Ht) as Hq. split.
  - intros E. destruct (Z.eq_dec c 0) as [|Hc]; [assumption|].
    exfalso. apply (inject_Z_nonzero c Hc).
    assert (H : inject_Z c == inject_Z c / inject_Z t * inject_Z t)
      by (field; exact Hq).
    rewrite H, E. ring.
  - intros ->. unfold Qdiv. change (inject_Z 0) with 0. ring.
Qed.

Lemma Qeq_bool_rate (c t : Z) :
  t <> 0%Z -> Qeq_bool (Spec.rate c t) 0 = (c =? 0)%Z.
Proof.
  intros Ht. destruct (Z.eqb_spec c 0) as [Hc|Hc].
  - apply Qeq_bool_iff. now apply rate_zero_iff.
  - apply Qeq_bool_false. now rewrite rate_zero_iff.
Qed.

Lemma fdiv_by_int (q : Q) (t : Z) :
  t <> 0%Z -> fdiv (Fin q) (Fin (inject_Z t)) = Fin (q / inject_Z t).
Proof.
  intros Ht. cbn [fdiv]. rewrite Qeq_bool_inject_Z.
  destruct (Z.eqb_spec t 0) as [|_]; [contradiction|reflexivity].
Qed.

Lemma is_zero_rate (c t : Z) :
  t <> 0%Z ->
  is_zero (fdiv (Fin (inject_Z c)) (Fin (inject_Z t))) = (c =? 0)%Z.
Proof.
  intros Ht. rewrite fdiv_by_int by assumption.
  cbn [is_zero]. now apply Qeq_bool_rate.
Qed.

Lemma rate_bounds (c t : Z) :
  (0 < t)%Z -> (0 <= c <= t)%Z -> 0 <= Spec.rate c t <= 1.
Proof.
  intros Ht [H0 H1]. unfold Spec.rate.
  pose proof (inject_Z_pos t Ht) as Hq. split.
  - apply Qle_shift_div_l; [exact Hq|].
    rewrite Qmult_0_l. change 0 with (inject_Z 0). now rewrite <- Zle_Qle.
  - apply Qle_shift_div_r; [exact Hq|].
    rewrite Qmult_1_l. now rewrite <- Zle_Qle.
Qed.

Lemma rate_pos (c t : Z) : (0 < t)%Z -> (0 < c)%Z -> 0 < Spec.rate c t.
Proof.
  intros Ht Hc. unfold Spec.rate.
  apply Qlt_shift_div_l; [now apply inject_Z_pos|].
  rewrite Qmult_0_l. now apply inject_Z_pos.
Qed.

Lemma rate_neg (c t : Z) : (0 < t)%Z -> (c < 0)%Z -> Spec.rate c t < 0.
Proof.
  intros Ht Hc. unfold Spec.rate.
  apply Qlt_shift_div_r; [now apply inject_Z_pos|].
  rewrite Qmult_0_l. change 0 with (inject_Z 0). now rewrite <- Zlt_Qlt.
Qed.

(** The variance term of one group is non-negative for a rate in [0, 1]. *)
Lemma variance_term_nonneg (p : Q) (t : Z) :
  (0 < t)%Z -> 0 <= p <= 1 -> 0 <= p * (inject_Z 1 + - p) / inject_Z t.
Proof.
  intros Ht [H0 H1].
  pose proof (Qinv_lt_0_compat _ (inject_Z_pos t Ht)) as Hi.
  unfold Qdiv. set (i := / inject_Z t) in *.
  change (inject_Z 1) with 1.
  assert (Hp : 0 <= p * (1 + - p)) by nra. nra.
Qed.

Section WithFloatLib.
Context {FL : FloatLib}.

(** With non-zero totals the four divisions behind the interval go
    through; what is left is the division by the control rate. *)
Lemma cci_nonzero_totals ka kta kb ktb ca ta cb tb alpha :
  ta <> 0%Z -> tb <> 0%Z ->
  let p_a := Spec.rate ca ta in
  let p_b := Spec.rate cb tb in
  let variance :=
    p_a * (inject_Z 1 + - p_a) / inject_Z ta
    + p_b * (inject_Z 1 + - p_b) / inject_Z tb in
  let margin :=
    fmul (norm_ppf (Double.double (1 - alpha / 2))) (np_sqrt (Fin variance)) in
  calculate_confidence_interval (int_scalar ka ca) (int_scalar kta ta)
    (int_scalar kb cb) (int_scalar ktb tb) alpha =
  if raises_on_zero (join (join ka kta) (join kb ktb)) && (ca =? 0)%Z
  then Raise ZeroDivisionError
  else Ok (IntervalEstimate
             (Fin (p_b + - p_a))
             (fsub (Fin (p_b + - p_a)) margin)
             (fadd (Fin (p_b + - p_a)) margin)
             margin
             (fdiv (Fin (p_b + - p_a)) (Fin p_a))).
Proof.
  intros Hta Htb. cbv zeta.
  unfold calculate_confidence_interval, Spec.rate.
  rewrite !sdiv_eq. cbn [int_scalar kind val is_zero].
  rewrite !Qeq_bool_inject_Z.
  destruct (Z.eqb_spec ta 0) as [|_]; [contradiction|].
  destruct (Z.eqb_spec tb 0) as [|_]; [contradiction|].
  rewrite !andb_false_r. cbn [bind].
  rewrite !sdiv_eq.
  cbn [kind val ssub smul sadd py_int int_scalar is_zero].
  rewrite !Qeq_bool_inject_Z.
  destruct (Z.eqb_spec ta 0) as [|_]; [contradiction|].
  destruct (Z.eqb_spec tb 0) as [|_]; [contradiction|].
  rewrite !andb_false_r. cbn [bind kind val].
  rewrite (is_zero_rate ca ta Hta).
  rewrite (fdiv_by_int (inject_Z ca) ta Hta), (fdiv_by_int (inject_Z cb) tb Htb).
  cbn [fsub fneg fadd fmul].
  rewrite (fdiv_by_int _ ta Hta), (fdiv_by_int _ tb Htb). cbn [fadd].
  replace (join (join (join kb ktb) (join ka kta)) (join ka kta))
    with (join (join ka kta) (join kb ktb))
    by (destruct ka, kta, kb, ktb; reflexivity).
  destruct (raises_on_zero (join (join ka kta) (join kb ktb)) && (ca =? 0)%Z);
    reflexivity.
Qed.

Lemma norm_ppf_inside (q : Q) :
  0 < q -> q < 1 -> norm_ppf q = Fin (norm_ppf_fn q).
Proof.
  intros H0 H1. unfold norm_ppf. now rewrite !Qlt_bool_true.
Qed.

End WithFloatLib.

(** For a level above [2^-53] the double [1 - alpha/2] stays below 1. *)
Lemma z_score_argument (alpha : Q) :
  Double.pow2 (-53) < alpha -> alpha < 1 ->
  1 # 2 <= Double.double (1 - alpha / 2) /\ Double.double (1 - alpha / 2) < 1.
Proof.
  intros H0 H1.
  assert (E : Double.pow2 (-53) == 2 * Double.pow2 (-54)) by reflexivity.
  apply DoubleFacts.double_below_one;
    unfold Qdiv; change (/ 2) with (1 # 2); lra.
Qed.

(** C2, as claimed, fails: with the NumPy click counts that
    [comprehensive_analysis] passes ([Series.sum()]), a control group
    without clicks gives an infinite relative improvement, or [nan] when
    the treatment group has none either, and no exception: on a table of
    six records through the callers' own call, and on the counts 0 of
    5000 against 525 and 0 of 5000. *)
Lemma zero_control_rate_not_signalled :
  (exists r,
     confidence_interval_of (FL := Demo.table_float) Demo.silent_control = Ok r /\
     relative_improvement r = PInf) /\
  (exists r,
     calculate_confidence_interval (FL := Demo.table_float)
       (np_int 0) (py_int 5000) (np_int 525) (py_int 5000) (5 # 100) = Ok r /\
     relative_improvement r = PInf) /\
  (exists r,
     calculate_confidence_interval (FL := Demo.table_float)
       (np_int 0) (py_int 5000) (np_int 0) (py_int 5000) (5 # 100) = Ok r /\
     relative_improvement r = NaN).
Proof.
  repeat split; eexists; (split; [vm_compute; reflexivity | reflexivity]).
Qed.

(** C2, amended: for every input with [total_a > 0] and [total_b > 0],
    when the control rate is not zero [calculate_confidence_interval]
    returns [relative_improvement = (p_b - p_a) / p_a]; when it is zero
    there is no check of the code's own: built-in Python numbers make the
    division raise [ZeroDivisionError], NumPy scalars give a result whose
    [relative_improvement] is [nan] (treatment rate zero too) or an
    infinity. *)
Theorem relative_improvement_by_number_kind
    {FL : FloatLib} (ka kta kb ktb : numkind) (ca ta cb tb : Z) (alpha : Q) :
  (0 < ta)%Z -> (0 < tb)%Z ->
  let call :=
    calculate_confidence_interval (int_scalar ka ca) (int_scalar kta ta)
      (int_scalar kb cb) (int_scalar ktb tb) alpha in
  let p_a := Spec.rate ca ta in
  let p_b := Spec.rate cb tb in
  (ca <> 0%Z ->
   exists r q, call = Ok r /\ relative_improvement r = Fin q /\
               q == (p_b - p_a) / p_a) /\
  (ca = 0%Z -> join (join ka kta) (join kb ktb) = PyNum ->
   call = Raise ZeroDivisionError) /\
  (ca = 0%Z -> join (join ka kta) (join kb ktb) = NpNum ->
   exists r, call = Ok r /\
             relative_improvement r =
               if (cb =? 0)%Z then NaN
               else if (0 <? cb)%Z then PInf else NInf).
Proof.
  intros Hta Htb call p_a p_b. subst call p_a p_b.
  assert (Hta' : ta <> 0%Z) by lia. assert (Htb' : tb <> 0%Z) by lia.
  rewrite (cci_nonzero_totals ka kta kb ktb ca ta cb tb alpha Hta' Htb').
  cbv zeta. repeat split.
  - intros Hca. destruct (Z.eqb_spec ca 0) as [|_]; [contradiction|].
    rewrite andb_false_r.
    eexists. eexists. split; [reflexivity|].
    cbn [relative_improvement fdiv].
    rewrite (Qeq_bool_rate ca ta Hta').
    destruct (Z.eqb_spec ca 0) as [|_]; [contradiction|].
    split; [reflexivity|]. unfold Qminus. reflexivity.
  - intros -> ->. reflexivity.
  - intros -> ->. cbn [raises_on_zero andb].
    eexists. split; [reflexivity|].
    cbn [relative_improvement fdiv].
    rewrite (Qeq_bool_rate 0 ta Hta'). cbn [Z.eqb].
    assert (H0 : Spec.rate 0 ta == 0) by (now apply rate_zero_iff).
    destruct (Z.eqb_spec cb 0) as [Hcb|Hcb].
    + assert (Hb : Spec.rate cb tb == 0) by (now apply rate_zero_iff).
      replace (Qeq_bool (Spec.rate cb tb + - Spec.rate 0 ta) 0) with true;
        [reflexivity|].
      symmetry. apply Qeq_bool_iff. lra.
    + rewrite Qeq_bool_false.
      2:{ intros E. apply Hcb. apply (rate_zero_iff cb tb Htb'). lra. }
      destruct (Z.ltb_spec 0 cb) as [Hpos|Hneg].
      * pose proof (rate_pos cb tb Htb Hpos).
        rewrite Qlt_bool_true; [reflexivity|lra].
      * assert (Hlt : (cb < 0)%Z) by lia.
        pose proof (rate_neg cb tb Htb Hlt).
        rewrite Qlt_bool_false; [reflexivity|lra].
Qed.

Lemma relative_improvement_by_number_kind_witness :
  let call :=
    calculate_confidence_interval (FL := Demo.table_float)
      (np_int 400) (py_int 5000) (np_int 525) (py_int 5000) (5 # 100) in
  let p_a := Spec.rate 400 5000 in
  let p_b := Spec.rate 525 5000 in
  (400%Z <> 0%Z ->
   exists r q, call = Ok r /\ relative_improvement r = Fin q /\
               q == (p_b - p_a) / p_a) /\
  (400%Z = 0%Z -> join (join NpNum PyNum) (join NpNum PyNum) = PyNum ->
   call = Raise ZeroDivisionError) /\
  (400%Z = 0%Z -> join (join NpNum PyNum) (join NpNum PyNum) = NpNum ->
   exists r, call = Ok r /\
             relative_improvement r =
               if (525 =? 0)%Z then NaN
               else if (0 <? 525)%Z then PInf else NInf).
Proof.
  apply (relative_improvement_by_number_kind
           NpNum PyNum NpNum PyNum 400 5000 525 5000 (5 # 100)); lia.
Defined.

(** C4, as claimed, fails: a negative total, and a level [alpha = 1]
    outside (0, 1), both come back with a result. *)
Lemma invalid_input_not_rejected :
  ~ fails (calculate_confidence_interval (FL := Demo.table_float)
             (py_int 1) (py_int (-5)) (py_int 1) (py_int 5) (5 # 100)) /\
  ~ fails (calculate_confidence_interval (FL := Demo.table_float)
             (py_int 1) (py_int 5) (py_int 1) (py_int 5) 1).
Proof.
  split; intros [e He]; vm_compute in He; discriminate He.
Qed.

(** C4, amended: [calculate_confidence_interval] checks none of its
    arguments.  Its only failure is [ZeroDivisionError], and it fails
    exactly when a division between built-in Python numbers meets a zero
    divisor: [total_a = 0], [total_b = 0], or a zero control rate.
    Negative totals, NumPy scalars and every [alpha] give a result. *)
Theorem confidence_interval_failures
    {FL : FloatLib} (ka kta kb ktb : numkind) (ca ta cb tb : Z) (alpha : Q) :
  let call :=
    calculate_confidence_interval (int_scalar ka ca) (int_scalar kta ta)
      (int_scalar kb cb) (int_scalar ktb tb) alpha in
  (forall e, call = Raise e -> e = ZeroDivisionError) /\
  (fails call <->
     (join ka kta = PyNum /\ ta = 0%Z) \/
     (join kb ktb = PyNum /\ tb = 0%Z) \/
     (join (join ka kta) (join kb ktb) = PyNum /\ ca = 0%Z)).
Proof.
  cbv zeta. unfold calculate_confidence_interval, fails.
  rewrite !sdiv_eq. cbn [int_scalar kind val is_zero].
  rewrite !Qeq_bool_inject_Z.
  destruct (Z.eqb_spec ta 0) as [Hta|Hta];
  destruct (Z.eqb_spec tb 0) as [Htb|Htb];
  destruct ka, kta, kb, ktb; cbn [raises_on_zero join andb bind];
  rewrite ?sdiv_eq;
  cbn [kind val ssub smul sadd py_int int_scalar join raises_on_zero andb
       bind is_zero];
  rewrite ?Qeq_bool_inject_Z, ?is_zero_rate by assumption;
  repeat match goal with
  | |- context [(?z =? 0)%Z] => destruct (Z.eqb_spec z 0); try contradiction
  end;
  cbn [raises_on_zero join andb bind];
  (split;
   [ intros ex Hex; congruence
   | split;
     [ intros [ex Hex]; try discriminate Hex;
       first [ left; split; [reflexivity | assumption]
             | right; left; split; [reflexivity | assumption]
             | right; right; split; [reflexivity | assumption] ]
     | intros [[H1 H2]|[[H1 H2]|[H1 H2]]];
       try discriminate H1; try contradiction; eexists; reflexivity ] ]).
Qed.

(** C5, as claimed, fails, in two ways.  With more clicks than records
    in a group (10 of 5 against 1 of 5, level 0.05) the variance is
    negative, its square root is [nan], and so are the margin and both
    bounds: [ci_upper - difference] is not equal to
    [difference - ci_lower].  With a level below [2^-53] (here [2^-60])
    the double [1 - alpha/2] is 1.0 and the z-score infinite; when both
    rates are 1 the standard error is 0 and the margin, infinity times
    zero, is [nan] again. *)
Lemma confidence_interval_not_symmetric :
  (exists r,
     calculate_confidence_interval (FL := Demo.table_float)
       (py_int 10) (py_int 5) (py_int 1) (py_int 5) (5 # 100) = Ok r /\
     margin_of_error r = NaN /\
     ~ feq (fsub (ci_upper r) (difference r))
           (fsub (difference r) (ci_lower r))) /\
  (0 < Double.pow2 (-60) /\ Double.pow2 (-60) < 1 /\
   exists r,
     calculate_confidence_interval (FL := Demo.table_float)
       (py_int 5) (py_int 5) (py_int 5) (py_int 5) (Double.pow2 (-60)) = Ok r /\
     margin_of_error r = NaN /\
     ~ feq (fsub (ci_upper r) (difference r))
           (fsub (difference r) (ci_lower r))).
Proof.
  split; [|split; [reflexivity | split; [reflexivity|]]];
    (eexists; split; [vm_compute; reflexivity|];
     split; [reflexivity | intros H; exact H]).
Qed.

(** C5, amended: for every input with [total_a > 0] and [total_b > 0],
    the interval that [calculate_confidence_interval] returns is
    symmetric around the point difference, [ci_upper - difference] and
    [difference - ci_lower] both equal to [margin_of_error], exactly when
    the margin is not [nan] (an infinite margin gives the whole line,
    symmetric in the arithmetic of doubles); when the margin is [nan] so
    are both bounds.  The margin is a finite number, and the equalities
    hold between finite numbers, when the click counts lie between 0 and
    their totals and [alpha] lies above [2^-53] and below 1.  A result is
    returned unless the control rate is zero and every argument is a
    built-in Python number. *)
Theorem confidence_interval_symmetric_unless_nan
    {FL : FloatLib} (ka kta kb ktb : numkind) (ca ta cb tb : Z) (alpha : Q) :
  (0 < ta)%Z -> (0 < tb)%Z ->
  let call :=
    calculate_confidence_interval (int_scalar ka ca) (int_scalar kta ta)
      (int_scalar kb cb) (int_scalar ktb tb) alpha in
  (forall r, call = Ok r ->
     (margin_of_error r <> NaN ->
      feq (fsub (ci_upper r) (difference r)) (margin_of_error r) /\
      feq (fsub (difference r) (ci_lower r)) (margin_of_error r)) /\
     (margin_of_error r = NaN ->
      ci_lower r = NaN /\ ci_upper r = NaN /\
      ~ feq (fsub (ci_upper r) (difference r))
            (fsub (difference r) (ci_lower r))) /\
     ((0 <= ca <= ta)%Z -> (0 <= cb <= tb)%Z ->
      Double.pow2 (-53) < alpha -> alpha < 1 ->
      exists d m l u,
        difference r = Fin d /\ margin_of_error r = Fin m /\
        ci_lower r = Fin l /\ ci_upper r = Fin u /\
        u - d == m /\ d - l == m)) /\
  (ca <> 0%Z \/ join (join ka kta) (join kb ktb) = NpNum ->
   exists r, call = Ok r).
Proof.
  intros Hta Htb call. subst call.
  assert (Hta' : ta <> 0%Z) by lia. assert (Htb' : tb <> 0%Z) by lia.
  rewrite (cci_nonzero_totals ka kta kb ktb ca ta cb tb alpha Hta' Htb').
  cbv zeta.
  set (variance := Spec.rate ca ta * (inject_Z 1 + - Spec.rate ca ta)
                   / inject_Z ta
                   + Spec.rate cb tb * (inject_Z 1 + - Spec.rate cb tb)
                     / inject_Z tb).
  set (margin := fmul (norm_ppf (Double.double (1 - alpha / 2)))
                   (np_sqrt (Fin variance))).
  split.
  - intros r Hr.
    destruct (raises_on_zero (join (join ka kta) (join kb ktb)) && (ca =? 0)%Z);
      [discriminate Hr|].
    injection Hr as <-. cbn [difference margin_of_error ci_lower ci_upper].
    split; [|split].
    + intros Hnn.
      destruct margin as [m| | |]; [| | |contradiction];
        cbn [fsub fadd fneg feq]; split; try exact I; ring.
    + intros ->. cbn [fsub fadd fneg feq]. repeat split. intros H; exact H.
    + intros Hca Hcb Ha0 Ha1.
      pose proof (variance_term_nonneg _ ta Hta (rate_bounds ca ta Hta Hca))
        as Va.
      pose proof (variance_term_nonneg _ tb Htb (rate_bounds cb tb Htb Hcb))
        as Vb.
      assert (Hv : 0 <= variance) by (subst variance; lra).
      destruct (z_score_argument alpha Ha0 Ha1) as [Z0 Z1].
      assert (Em : margin
                   = Fin (norm_ppf_fn (Double.double (1 - alpha / 2))
                          * fsqrt variance)).
      { subst margin. rewrite norm_ppf_inside by lra.
        cbn [np_sqrt]. now rewrite Qlt_bool_false. }
      rewrite Em. cbn [fmul fsub fadd fneg].
      do 4 eexists. repeat (split; [reflexivity|]). split; ring.
  - intros [Hnz|Hnp].
    + destruct (Z.eqb_spec ca 0) as [|_]; [contradiction|].
      rewrite andb_false_r. eexists; reflexivity.
    + rewrite Hnp. cbn [raises_on_zero andb]. eexists; reflexivity.
Qed.

Lemma confidence_interval_symmetric_unless_nan_witness :
  let call :=
    calculate_confidence_interval (FL := Demo.table_float)
      (np_int 400) (py_int 5000) (np_int 525) (py_int 5000) (5 # 100) in
  (forall r, call = Ok r ->
     (margin_of_error r <> NaN ->
      feq (fsub (ci_upper r) (difference r)) (margin_of_error r) /\
      feq (fsub (difference r) (ci_lower r)) (margin_of_error r)) /\
     (margin_of_error r = NaN ->
      ci_lower r = NaN /\ ci_upper r = NaN /\
      ~ feq (fsub (ci_upper r) (difference r))
            (fsub (difference r) (ci_lower r))) /\
     ((0 <= 400 <= 5000)%Z -> (0 <= 525 <= 5000)%Z ->
      Double.pow2 (-53) < 5 # 100 -> 5 # 100 < 1 ->
      exists d m l u,
        difference r = Fin d /\ margin_of_error r = Fin m /\
        ci_lower r = Fin l /\ ci_upper r = Fin u /\
        u - d == m /\ d - l == m)) /\
  (400%Z <> 0%Z \/ join (join NpNum PyNum) (join NpNum PyNum) = NpNum ->
   exists r, call = Ok r).
Proof.
  apply (confidence_interval_symmetric_unless_nan
           NpNum PyNum NpNum PyNum 400 5000 525 5000 (5 # 100)); lia.
Defined.

End IntervalFacts.

(* ================================================================== *)
(** * The per-group summary *)
(* ================================================================== *)

Module AggregatorFacts.

Import Frame ABTest.

Lemma ascii_compare_refl (a : ascii) : Ascii.compare a a = Eq.
Proof. unfold Ascii.compare. apply N.compare_refl. Qed.

Lemma string_compare_refl (s : string) : String.compare s s = Eq.
Proof.
  induction s as [|a s IH]; [reflexivity|].
  cbn [String.compare]. now rewrite ascii_compare_refl.
Qed.

Lemma ascii_lt_trans (a b c : ascii) :
  Ascii.compare a b = Lt -> Ascii.compare b c = Lt -> Ascii.compare a c = Lt.
Proof.
  unfold Ascii.compare. rewrite !N.compare_lt_iff. apply N.lt_trans.
Qed.

Lemma str_lt_trans (x y z : string) : str_lt x y -> str_lt y z -> str_lt x z.
Proof.
  unfold str_lt. revert y z.
  induction x as [|a x IH]; intros [|b y] [|c z]; cbn [String.compare];
    try discriminate; try reflexivity.
  destruct (Ascii.compare a b) eqn:Eab; try discriminate;
  destruct (Ascii.compare b c) eqn:Ebc; try discriminate; intros H1 H2.
  - apply Ascii.compare_eq_iff in Eab, Ebc. subst.
    rewrite ascii_compare_refl. eauto.
  - apply Ascii.compare_eq_iff in Eab. subst. now rewrite Ebc.
  - apply Ascii.compare_eq_iff in Ebc. subst. now rewrite Eab.
  - now rewrite (ascii_lt_trans a b c Eab Ebc).
Qed.

Lemma str_lt_irrefl (x : string) : ~ str_lt x x.
Proof. unfold str_lt. rewrite string_compare_refl. discriminate. Qed.

Lemma insert_uniq_in (x y : string) (l : list string) :
  In x (insert_uniq String.compare y l) <-> x = y \/ In x l.
Proof.
  induction l as [|z l IH]; cbn [insert_uniq].
  - cbn. intuition congruence.
  - destruct (String.compare y z) eqn:E.
    + apply String.compare_eq_iff in E. subst. cbn. intuition congruence.
    + cbn. intuition congruence.
    + cbn [In]. rewrite IH. intuition congruence.
Qed.

Lemma insert_uniq_sorted (y : string) (l : list string) :
  StronglySorted str_lt l -> StronglySorted str_lt (insert_uniq String.compare y l).
Proof.
  induction 1 as [|z l Hs IH Hz]; cbn [insert_uniq].
  - repeat constructor.
  - destruct (String.compare y z) eqn:E.
    + now constructor.
    + constructor; [now constructor|].
      constructor; [exact E|].
      eapply Forall_impl; [|exact Hz]. intros w Hw. eapply str_lt_trans; eauto.
    + constructor; [exact IH|].
      apply Forall_forall. intros w Hw. apply insert_uniq_in in Hw as [->|Hw].
      * unfold str_lt. rewrite String.compare_antisym, E. reflexivity.
      * rewrite Forall_forall in Hz. now apply Hz.
Qed.

Lemma sorted_unique_sorted (l : list string) :
  StronglySorted str_lt (sorted_unique String.compare l).
Proof.
  induction l as [|x l IH]; cbn; [constructor|]. now apply insert_uniq_sorted.
Qed.

Lemma sorted_unique_in (x : string) (l : list string) :
  In x (sorted_unique String.compare l) <-> In x l.
Proof.
  induction l as [|y l IH]; cbn [sorted_unique fold_right]; [tauto|].
  rewrite insert_uniq_in. fold (sorted_unique String.compare l). rewrite IH. cbn. intuition congruence.
Qed.

Lemma sorted_nodup (l : list string) : StronglySorted str_lt l -> NoDup l.
Proof.
  induction 1 as [|z l Hs IH Hz]; constructor; [|exact IH].
  intros Hin. rewrite Forall_forall in Hz. apply (str_lt_irrefl z). now apply Hz.
Qed.


Lemma group_labels_nodup (df : dataframe) : NoDup (group_labels df).
Proof. apply sorted_nodup, sorted_unique_sorted. Qed.

Lemma group_labels_in (g : string) (df : dataframe) :
  In g (group_labels df) <-> exists r, In r df /\ group r = g.
Proof.
  unfold group_labels. rewrite sorted_unique_in, in_map_iff.
  split; intros [r [H1 H2]]; exists r; tauto.
Qed.

(** C7, as claimed, fails: a table with the single label "control" is
    summarised, not rejected. *)
Lemma single_group_not_rejected :
  group_labels Demo.control_only = ["control"%string] /\
  ~ fails (calculate_click_rates Demo.control_only) /\
  calculate_click_rates Demo.control_only
  = Ok [("control"%string, GroupSummary 2 1 (round4 (1 # 2)))].
Proof.
  split; [reflexivity|]. split; [|reflexivity].
  intros [e He]. discriminate He.
Qed.

(** The sum of a column of 0 and 1 lies between 0 and its length. *)
Lemma sum_of_bits (l : list Z) :
  Forall (fun c => c = 0%Z \/ c = 1%Z) l ->
  (0 <= Scipy.sumZ l <= Z.of_nat (List.length l))%Z.
Proof.
  induction 1 as [|c l Hc Hl IH]; [cbn; lia|].
  cbn [Scipy.sumZ fold_right List.length]. fold (Scipy.sumZ l).
  destruct Hc; subst; lia.
Qed.

(** The column of a group that occurs: at least one outcome, and as many
    clicks as outcomes at most. *)
Lemma clicked_of_group (df : dataframe) (g : string) :
  (forall r, In r df -> clicked r = 0%Z \/ clicked r = 1%Z) ->
  In g (group_labels df) ->
  (0 < Z.of_nat (List.length (clicked_of df g)))%Z /\
  (0 <= Scipy.sumZ (clicked_of df g)
   <= Z.of_nat (List.length (clicked_of df g)))%Z.
Proof.
  intros Hbits Hg. split.
  - apply group_labels_in in Hg as [r [Hr Hgr]].
    unfold clicked_of. rewrite length_map.
    assert (Hf : In r (filter (fun r0 => String.eqb (group r0) g) df)).
    { apply filter_In. split; [exact Hr|]. now apply String.eqb_eq. }
    destruct (filter _ df); [contradiction | cbn [List.length]; lia].
  - apply sum_of_bits. unfold clicked_of. apply Forall_forall.
    intros c Hc. apply in_map_iff in Hc as [r [<- Hr]].
    apply filter_In in Hr as [Hr _]. now apply Hbits.
Qed.

Lemma group_mean_unit (s n : Z) :
  (0 < n)%Z -> (0 <= s <= n)%Z -> 0 <= group_mean s n <= 1.
Proof.
  intros Hn Hs. unfold group_mean.
  destruct (IntervalFacts.rate_bounds s n Hn Hs) as [H0 H1].
  unfold Spec.rate in H0, H1. split.
  - now apply DoubleFacts.double_nonneg.
  - change 1 with (inject_Z 1). apply DoubleFacts.double_le_int; [lia|].
    exact H1.
Qed.

Lemma round4_unit (q : Q) : 0 <= q <= 1 -> 0 <= round4 q <= 1.
Proof.
  intros [H0 H1]. unfold round4.
  set (y := Double.double (q * 10000)).
  assert (Hy0 : 0 <= y) by (apply DoubleFacts.double_nonneg; lra).
  assert (Hy1 : y <= inject_Z 10000).
  { apply DoubleFacts.double_le_int; [lia|].
    change (inject_Z 10000) with 10000. lra. }
  pose proof (DoubleFacts.round_half_even_ge y 0 Hy0) as K0.
  pose proof (DoubleFacts.round_half_even_le y 10000 Hy1) as K1.
  rewrite Zle_Qle in K0, K1.
  change (inject_Z 0) with 0 in K0. change (inject_Z 10000) with 10000 in K1.
  set (k := inject_Z (Double.round_half_even y)) in *.
  split.
  - apply DoubleFacts.double_nonneg.
    apply Qle_shift_div_l; [reflexivity | lra].
  - change 1 with (inject_Z 1). apply DoubleFacts.double_le_int; [lia|].
    change (inject_Z 1) with 1.
    apply Qle_shift_div_r; [reflexivity | lra].
Qed.

(** The rounded rate of a group is the double of a number of four
    decimals, within half a unit of the fourth decimal of the exact rate
    (and the [2^-50] that the roundings to doubles can add). *)
Lemma round4_fourth_decimal (s n : Z) :
  (0 < n)%Z -> (0 <= s <= n)%Z ->
  exists k : Z,
    (0 <= k <= 10000)%Z /\
    round4 (group_mean s n) = Double.double (inject_Z k / 10000) /\
    Qabs (inject_Z k / 10000 - inject_Z s / inject_Z n)
    <= (1 # 20000) + Double.pow2 (-50).
Proof.
  intros Hn Hs.
  destruct (IntervalFacts.rate_bounds s n Hn Hs) as [X0 X1].
  destruct (group_mean_unit s n Hn Hs) as [M0 M1].
  unfold Spec.rate in X0, X1. unfold round4.
  set (x := inject_Z s / inject_Z n) in *.
  assert (Em : - Double.pow2 (0 - 53) <= group_mean s n - x
               <= Double.pow2 (0 - 53)).
  { apply DoubleFacts.double_near; [lia | exact X0 | exact X1]. }
  set (m := group_mean s n) in *.
  set (y := Double.double (m * 10000)).
  assert (Ey : - Double.pow2 (14 - 53) <= y - m * 10000
               <= Double.pow2 (14 - 53)).
  { apply DoubleFacts.double_near; [lia | lra |].
    assert (E14 : Double.pow2 14 == 16384) by reflexivity. lra. }
  assert (Hy0 : 0 <= y) by (apply DoubleFacts.double_nonneg; lra).
  assert (Hy1 : y <= inject_Z 10000).
  { apply DoubleFacts.double_le_int; [lia|].
    change (inject_Z 10000) with 10000. lra. }
  pose proof (DoubleFacts.round_half_even_ge y 0 Hy0) as K0.
  pose proof (DoubleFacts.round_half_even_le y 10000 Hy1) as K1.
  pose proof (DoubleFacts.round_half_even_near y) as [N0 N1].
  exists (Double.round_half_even y).
  split; [lia|]. split; [reflexivity|].
  set (k := inject_Z (Double.round_half_even y)) in *.
  assert (E53 : Double.pow2 (0 - 53) == 1 # 9007199254740992) by reflexivity.
  assert (E39 : Double.pow2 (14 - 53) == 1 # 549755813888) by reflexivity.
  assert (E50 : Double.pow2 (-50) == 1 # 1125899906842624) by reflexivity.
  apply Qabs_Qle_condition.
  unfold Qdiv. change (/ 10000) with (1 # 10000).
  split; lra.
Qed.

(** A tie of the fourth decimal goes as the doubles decide: 17 clicks
    in 800 records are 0.02125, the double product with [1e4] lies
    above 212.5, and the rounded rate is 0.0213, where rounding the exact
    quotient to the even neighbour would give 0.0212. *)
Example rounded_rate_of_17_in_800 :
  round4 (group_mean 17 800) = Double.double (213 # 10000) /\
  Double.round_half_even ((17 # 800) * 10000) = 212%Z.
Proof. split; vm_compute; reflexivity. Qed.

(** C7, amended: the Group Aggregator has no check on the groups and
    does not fail.  For every non-empty dataset of observations with
    outcome 0 or 1, with one group label or with more,
    [calculate_click_rates] returns the summary with exactly one line per
    distinct group label that occurs; each line counts at least one
    observation and carries the number of records of its group, the sum
    of their [clicked] and their mean as pandas rounds it to four
    decimals: the double of [k/10000] for a whole [k] from 0 to 10000,
    within half a unit of the fourth decimal (and [2^-50]) of
    [clicks/count]. *)
Theorem click_rates_one_line_per_label (df : dataframe) :
  df <> [] ->
  (forall r, In r df -> clicked r = 0%Z \/ clicked r = 1%Z) ->
  exists summary,
    calculate_click_rates df = Ok summary /\
    summary <> [] /\
    NoDup (map fst summary) /\
    (forall g, In g (map fst summary) <-> exists r, In r df /\ group r = g) /\
    (forall g s, In (g, s) summary ->
       (1 <= count s)%Z /\
       count s = Z.of_nat (List.length (clicked_of df g)) /\
       clicks s = Scipy.sumZ (clicked_of df g) /\
       ctr s = round4 (group_mean (clicks s) (count s)) /\
       exists k : Z,
         (0 <= k <= 10000)%Z /\
         ctr s = Double.double (inject_Z k / 10000) /\
         Qabs (inject_Z k / 10000 - inject_Z (clicks s) / inject_Z (count s))
         <= (1 # 20000) + Double.pow2 (-50)).
Proof.
  intros Hne Hbits. eexists. split; [reflexivity|].
  split.
  { destruct df as [|r0 rest]; [contradiction|].
    assert (Hin : In (group r0) (group_labels (r0 :: rest))).
    { apply group_labels_in. exists r0. split; [now left | reflexivity]. }
    destruct (group_labels (r0 :: rest)); [contradiction | discriminate]. }
  rewrite map_map. cbn [fst]. rewrite map_id.
  split; [apply group_labels_nodup|].
  split; [intros g; apply group_labels_in|].
  intros g s Hin. apply in_map_iff in Hin as [g' [Heq Hg]].
  injection Heq as Hg1 Hs1. subst g s. cbn [count clicks ctr].
  destruct (clicked_of_group df g' Hbits Hg) as [Hpos Hsum].
  split; [lia|]. do 3 (split; [reflexivity|]).
  now apply round4_fourth_decimal.
Qed.

Lemma click_rates_one_line_per_label_witness :
  exists summary,
    calculate_click_rates Demo.control_only = Ok summary /\
    summary <> [] /\
    NoDup (map fst summary) /\
    (forall g, In g (map fst summary) <->
               exists r, In r Demo.control_only /\ group r = g) /\
    (forall g s, In (g, s) summary ->
       (1 <= count s)%Z /\
       count s = Z.of_nat (List.length (clicked_of Demo.control_only g)) /\
       clicks s = Scipy.sumZ (clicked_of Demo.control_only g) /\
       ctr s = round4 (group_mean (clicks s) (count s)) /\
       exists k : Z,
         (0 <= k <= 10000)%Z /\
         ctr s = Double.double (inject_Z k / 10000) /\
         Qabs (inject_Z k / 10000 - inject_Z (clicks s) / inject_Z (count s))
         <= (1 # 20000) + Double.pow2 (-50)).
Proof.
  apply (click_rates_one_line_per_label Demo.control_only).
  - discriminate.
  - intros r Hr. cbn in Hr.
    repeat (destruct Hr as [<-|Hr]; [cbn; auto|]). contradiction.
Defined.

End AggregatorFacts.

(* ================================================================== *)
(** * The effect size *)
(* ================================================================== *)

Module EffectSizeFacts.

Import ABTest.

(** The table square root stays in the unit interval. *)
Lemma sqrt_approx_unit (x : Q) :
  0 <= x <= 1 -> 0 <= Demo.sqrt_approx x <= 1.
Proof.
  intros [H0 H1]. unfold Demo.sqrt_approx.
  set (n := Qfloor (x * 100000000000000)).
  assert (Hn : (n <= 100000000000000)%Z).
  { assert (Hx : x * 100000000000000 <= 100000000000000) by lra.
    apply Qfloor_resp_le in Hx. exact Hx. }
  pose proof (Z.sqrt_nonneg n) as Hs0.
  assert (Hs1 : (Z.sqrt n <= 10000000)%Z).
  { change 10000000%Z with (Z.sqrt 100000000000000).
    now apply Z.sqrt_le_mono. }
  split.
  - apply Qle_shift_div_l; [reflexivity|]. rewrite Qmult_0_l.
    change 0 with (inject_Z 0). now rewrite <- Zle_Qle.
  - apply Qle_shift_div_r; [reflexivity|]. rewrite Qmult_1_l.
    change 10000000 with (inject_Z 10000000). now rewrite <- Zle_Qle.
Qed.

Section WithFloatLib.
Context {FL : FloatLib}.

(** The arcsine transform of a rate in [0, 1] is an ordinary number. *)
Lemma arcsin_sqrt_finite (p : Q) :
  (forall x, 0 <= x <= 1 -> 0 <= fsqrt x <= 1) ->
  0 <= p <= 1 ->
  np_arcsin (np_sqrt (Fin p)) = Fin (farcsin (fsqrt p)).
Proof.
  intros Hsqrt Hp. cbn [np_sqrt].
  rewrite Qlt_bool_false by tauto. cbn [np_arcsin].
  destruct (Hsqrt p Hp) as [S0 S1].
  replace (Qle_bool (Qabs (fsqrt p)) 1) with true; [reflexivity|].
  symmetry. apply Qle_bool_iff. apply Qabs_Qle_condition. split; lra.
Qed.

End WithFloatLib.

(** C8: for all rates in [0, 1], swapping the two arguments of
    [calculate_effect_size] does not change its value, and equal
    arguments give 0.  [np.sqrt] is taken to map [0, 1] into [0, 1], as
    the correctly rounded square root does. *)
Theorem effect_size_symmetric {FL : FloatLib} (p_a p_b : Q) :
  (forall x, 0 <= x <= 1 -> 0 <= fsqrt x <= 1) ->
  0 <= p_a <= 1 -> 0 <= p_b <= 1 ->
  feq (calculate_effect_size p_a p_b) (calculate_effect_size p_b p_a) /\
  feq (calculate_effect_size p_a p_a) (Fin 0) /\
  feq (calculate_effect_size p_b p_b) (Fin 0).
Proof.
  intros Hsqrt Ha Hb. unfold calculate_effect_size.
  rewrite !(arcsin_sqrt_finite p_a Hsqrt Ha), !(arcsin_sqrt_finite p_b Hsqrt Hb).
  cbn [fsub fneg fadd fmul fabs feq].
  set (u := farcsin (fsqrt p_a)). set (v := farcsin (fsqrt p_b)).
  split; [|split].
  - rewrite <- (Qabs_opp (2 * (u + - v))). apply Qabs_wd. ring.
  - assert (H : 2 * (u + - u) == 0) by ring. rewrite H. reflexivity.
  - assert (H : 2 * (v + - v) == 0) by ring. rewrite H. reflexivity.
Qed.

Lemma effect_size_symmetric_witness :
  feq (calculate_effect_size (FL := Demo.table_float) (8 # 100) (105 # 1000))
      (calculate_effect_size (FL := Demo.table_float) (105 # 1000) (8 # 100)) /\
  feq (calculate_effect_size (FL := Demo.table_float) (8 # 100) (8 # 100))
      (Fin 0) /\
  feq (calculate_effect_size (FL := Demo.table_float) (105 # 1000) (105 # 1000))
      (Fin 0).
Proof.
  apply (effect_size_symmetric (FL := Demo.table_float) (8 # 100) (105 # 1000)
           sqrt_approx_unit); split; discriminate.
Defined.

End EffectSizeFacts.

(* ================================================================== *)
(** * The data generator *)
(* ================================================================== *)

Module GeneratorFacts.

Import Frame Rand Generator.

Example user_id_format :
  user_ids 3 = ["user_000000"; "user_000001"; "user_000002"]%string.
Proof. reflexivity. Qed.

(** Two states of the generator the caller may have left behind give the
    same five records. *)
Example generated_twice :
  fst (generate_ab_test_data (RL := Demo.lcg_random) (8 # 100) (105 # 1000) 5
         2024%Z)
  = fst (generate_ab_test_data (RL := Demo.lcg_random) (8 # 100) (105 # 1000) 5
           7%Z).
Proof. reflexivity. Qed.

(** C10: [generate_ab_test_data] starts by seeding the global generator
    with 42, so the state the caller left there (a seed of the caller's
    own included) has no influence: two calls with the same arguments
    return the same outcome, the same table of user ids, timestamps,
    groups and clicks, and leave the same generator state. *)
Theorem generate_ab_test_data_deterministic
    {RL : RandomLib} (control_ctr treatment_ctr : Q) (n_users : Z)
    (g1 g2 : rng) :
  generate_ab_test_data control_ctr treatment_ctr n_users g1
  = generate_ab_test_data control_ctr treatment_ctr n_users g2.
Proof.
  unfold generate_ab_test_data, mbind, reseed. reflexivity.
Qed.

End GeneratorFacts.

(* ================================================================== *)
(** * The cleaner of the user-behaviour table *)
(* ================================================================== *)

Module CleanerFacts.

Import Cleaner.

Lemma filter_twice {A} (p : A -> bool) (l : list A) :
  filter p (filter p l) = filter p l.
Proof.
  induction l as [|x l IH]; [reflexivity|].
  cbn [filter]. destruct (p x) eqn:E; [|exact IH].
  cbn [filter]. now rewrite E, IH.
Qed.

Section Facts.
Variable record : Type.
Variable record_eq_dec : forall x y : record, {x = y} + {x <> y}.

(** The records that survive are those of the table not seen before. *)
Lemma drop_from_records (seen : list record) (df : frame record) (r : record) :
  In r (map snd (drop_duplicates_from record_eq_dec seen df)) <-> In r (map snd df) /\ ~ In r seen.
Proof.
  revert seen. induction df as [|[i r0] rest IH]; intros seen.
  - cbn. tauto.
  - cbn [drop_duplicates_from map snd In].
    destruct (in_dec record_eq_dec r0 seen) as [Hs|Hs].
    + rewrite IH. split; [tauto|].
      intros [[->|H] Hn]; [contradiction | tauto].
    + cbn [map snd In]. rewrite IH. cbn [In].
      destruct (record_eq_dec r0 r) as [->|Hne]; [tauto|].
      split; [tauto|]. intros [[E|H] Hn]; [contradiction | tauto].
Qed.

Lemma drop_from_sub (seen : list record) (df : frame record) (ir : Z * record) :
  In ir (drop_duplicates_from record_eq_dec seen df) -> In ir df.
Proof.
  revert seen. induction df as [|[i r0] rest IH]; intros seen; [auto|].
  cbn [drop_duplicates_from].
  destruct (in_dec record_eq_dec r0 seen).
  - intros H. right. eapply IH, H.
  - intros [<-|H]; [now left | right; eapply IH, H].
Qed.

Lemma drop_from_nodup (seen : list record) (df : frame record) :
  NoDup (map snd (drop_duplicates_from record_eq_dec seen df)).
Proof.
  revert seen. induction df as [|[i r0] rest IH]; intros seen.
  - constructor.
  - cbn [drop_duplicates_from].
    destruct (in_dec record_eq_dec r0 seen); [apply IH|].
    cbn [map snd]. constructor; [|apply IH].
    rewrite drop_from_records. cbn [In]. tauto.
Qed.

(** A table without duplicates, none of them seen before, is left as it
    is. *)
Lemma drop_from_fixed (seen : list record) (df : frame record) :
  NoDup (map snd df) ->
  (forall r, In r (map snd df) -> ~ In r seen) ->
  drop_duplicates_from record_eq_dec seen df = df.
Proof.
  revert seen. induction df as [|[i r0] rest IH]; intros seen Hnd Hseen;
    [reflexivity|].
  cbn [map snd] in Hnd. inversion Hnd as [|? ? Hnot Hnd']; subst.
  cbn [drop_duplicates_from].
  destruct (in_dec record_eq_dec r0 seen) as [Hs|_].
  - exfalso. apply (Hseen r0); [now left | exact Hs].
  - f_equal. apply IH; [exact Hnd'|].
    intros r Hr [<-|Hin]; [contradiction|].
    apply (Hseen r); [now right | exact Hin].
Qed.

(** Selecting lines of a table without duplicates leaves none. *)
Lemma selection_nodup (keep : Z * record -> bool) (df : frame record) :
  NoDup (map snd df) -> NoDup (map snd (filter keep df)).
Proof.
  induction df as [|[i r0] rest IH]; cbn [map filter snd]; [auto|].
  intros H. inversion H as [|? ? Hnot Hnd]; subst.
  destruct (keep (i, r0)); [|now apply IH].
  cbn [map snd]. constructor; [|now apply IH].
  intros Hin. apply Hnot.
  apply in_map_iff in Hin as [[j r1] [Hy Hin]]. cbn [snd] in Hy. subst r1.
  apply filter_In in Hin as [Hin _].
  apply in_map_iff. now exists (j, r0).
Qed.

End Facts.

Example clean_four_events :
  clean_data Demo.event_eq_dec Demo.event_read_time Demo.four_events
  = [ (0, Demo.Event "u1" 10 "fantasy" "read" 25);
      (2, Demo.Event "u2" 11 "history" "read" 40) ]%Z.
Proof. reflexivity. Qed.

(** C9: [clean_data] is idempotent.  Its output has no two equal
    records and no record with [read_time <= 0]; the records it keeps
    are exactly the records of the input with [read_time > 0], each
    once, and every line kept is a line of the input, index label and
    fields unchanged. *)
Theorem clean_data_idempotent
    (record : Type) (record_eq_dec : forall x y : record, {x = y} + {x <> y})
    (read_time : record -> fval) (df : frame record) :
  let out := clean_data record_eq_dec read_time df in
  clean_data record_eq_dec read_time out = out /\
  NoDup (map snd out) /\
  (forall ir, In ir out -> fltb (Fin 0) (read_time (snd ir)) = true) /\
  (forall r, In r (map snd out) <->
             In r (map snd df) /\ fltb (Fin 0) (read_time r) = true) /\
  (forall ir, In ir out -> In ir df).
Proof.
  cbv zeta. unfold clean_data, drop_duplicates.
  set (p := positive_read_time read_time).
  assert (Hnd : NoDup (map snd
                  (filter p (drop_duplicates_from record_eq_dec [] df)))).
  { apply selection_nodup, drop_from_nodup. }
  split; [|split; [exact Hnd|split; [|split]]].
  - rewrite drop_from_fixed; [apply filter_twice | exact Hnd | intros r _ []].
  - intros ir Hin. apply filter_In in Hin as [_ Hp]. exact Hp.
  - intros r. rewrite in_map_iff. split.
    + intros [[i r'] [Hr Hin]]. cbn [snd] in Hr. subst r'.
      apply filter_In in Hin as [Hin Hp]. split; [|exact Hp].
      assert (H : In r (map snd (drop_duplicates_from record_eq_dec [] df))).
      { apply in_map_iff. now exists (i, r). }
      apply drop_from_records in H. tauto.
    + intros [Hin Hp].
      assert (H : In r (map snd (drop_duplicates_from record_eq_dec [] df))).
      { apply drop_from_records. split; [exact Hin | auto]. }
      apply in_map_iff in H as [[i r'] [Hr H]]. cbn [snd] in Hr. subst r'.
      exists (i, r). split; [reflexivity|].
      apply filter_In. split; [exact H | exact Hp].
  - intros ir Hin. apply filter_In in Hin as [Hin _].
    eapply drop_from_sub, Hin.
Qed.

End CleanerFacts.

(* ================================================================== *)
(** * The power simulation *)
(* ================================================================== *)

Module PowerFacts.

Import Scipy Rand ABTest.

Lemma detections_cons (b : bool) (l : list bool) :
  Spec.detections (b :: l) = ((if b then 1 else 0) + Spec.detections l)%Z.
Proof.
  unfold Spec.detections. cbn [filter].
  destruct b; cbn [List.length]; lia.
Qed.

Section WithLibs.
Context {FL : FloatLib} {RL : RandomLib}.

(** The loop body does what the specification says of one trial. *)
Lemma trial_spec (control_ctr treatment_ctr : Q) (sample_size : Z) (alpha : Q)
    (g : rng) (detected : bool) (g' : rng) :
  trial control_ctr treatment_ctr sample_size alpha g = (Ok detected, g') <->
  Spec.trial_outcome control_ctr treatment_ctr sample_size alpha g detected g'.
Proof.
  unfold trial, Spec.trial_outcome, mbind, lift, ret.
  destruct (binomial sample_size control_ctr g) as [[cc|e1] g1] eqn:E1.
  - destruct (binomial sample_size treatment_ctr g1) as [[tc|e2] g2] eqn:E2.
    + destruct (chi2_contingency
                  [[cc; (sample_size - cc)%Z]; [tc; (sample_size - tc)%Z]])
        as [r|e3] eqn:Ec.
      * split.
        -- intros H. injection H as <- <-.
           exists cc, g1, tc, r. auto.
        -- intros [cc' [g1' [tc' [r' [H1 [H2 [H3 H4]]]]]]].
           injection H1 as <- <-. rewrite E2 in H2. injection H2 as <- <-.
           rewrite Ec in H3. injection H3 as <-. now subst.
      * split; [discriminate|].
        intros [cc' [g1' [tc' [r' [H1 [H2 [H3 H4]]]]]]].
        injection H1 as <- <-. rewrite E2 in H2. injection H2 as <- <-.
        rewrite Ec in H3. discriminate H3.
    + split; [discriminate|].
      intros [cc' [g1' [tc' [r' [H1 [H2 _]]]]]].
      injection H1 as <- <-. rewrite E2 in H2. discriminate H2.
  - split; [discriminate|].
    intros [cc' [g1' [tc' [r' [H1 _]]]]]. discriminate H1.
Qed.

Lemma trials_run_length c t n alpha k g outcomes g' :
  Spec.trials_run c t n alpha k g outcomes g' -> List.length outcomes = k.
Proof. induction 1; cbn [List.length]; congruence. Qed.

(** The loop returns a counter exactly when its passes are a run of
    trials, and then it has added the detections to the counter. *)
Lemma simulation_loop_spec c t n alpha (k : nat) (acc : Z) (g : rng)
    (s : Z) (g' : rng) :
  simulation_loop c t n alpha k acc g = (Ok s, g') <->
  exists outcomes,
    Spec.trials_run c t n alpha k g outcomes g' /\
    s = (acc + Spec.detections outcomes)%Z.
Proof.
  revert acc g. induction k as [|k IH]; intros acc g.
  - cbn [simulation_loop]. unfold ret. split.
    + intros H. injection H as <- <-. exists []. split; [constructor|].
      unfold Spec.detections. cbn. lia.
    + intros [outcomes [Hrun ->]]. inversion Hrun; subst.
      unfold Spec.detections. cbn. do 2 f_equal. lia.
  - cbn [simulation_loop]. unfold mbind.
    destruct (trial c t n alpha g) as [[b|e] g1] eqn:Et.
    + rewrite IH. apply trial_spec in Et. split.
      * intros [outcomes [Hrun ->]]. exists (b :: outcomes).
        split; [econstructor; eauto|].
        rewrite detections_cons. destruct b; lia.
      * intros [outcomes [Hrun ->]].
        inversion Hrun as [|? ? g1' ? b' rest Hout Hrest]; subst.
        apply trial_spec in Hout, Et. rewrite Et in Hout.
        injection Hout as <- <-.
        exists rest. split; [exact Hrest|].
        rewrite detections_cons. destruct b; lia.
    + split; [discriminate|].
      intros [outcomes [Hrun _]].
      inversion Hrun as [|? ? g1' ? b' rest Hout Hrest]; subst.
      apply trial_spec in Hout. rewrite Et in Hout. discriminate Hout.
Qed.

(** A trial whose two draws go through and whose table the test
    refuses raises what the test raises, after both draws. *)
Lemma trial_refused (c t : Q) (n : Z) (alpha : Q) (g g1 g2 : rng)
    (cc tc : Z) (e : exn) :
  binomial n c g = (Ok cc, g1) ->
  binomial n t g1 = (Ok tc, g2) ->
  chi2_contingency [[cc; (n - cc)%Z]; [tc; (n - tc)%Z]] = Raise e ->
  trial c t n alpha g = (Raise e, g2).
Proof.
  intros H1 H2 H3. unfold trial, mbind, lift. now rewrite H1, H2, H3.
Qed.

(** The loop stops at the first trial that raises. *)
Lemma simulation_loop_raises c t n alpha (k m : nat) (acc : Z)
    (g g1 g2 : rng) (outcomes : list bool) (e : exn) :
  Spec.trials_run c t n alpha k g outcomes g1 ->
  trial c t n alpha g1 = (Raise e, g2) ->
  simulation_loop c t n alpha (k + S m) acc g = (Raise e, g2).
Proof.
  intros Hrun. revert acc.
  induction Hrun as [g0|k' g0 g0' g1' b rest Hout Hrun IH]; intros acc Hfail.
  - cbn [Nat.add simulation_loop]. unfold mbind. now rewrite Hfail.
  - cbn [Nat.add simulation_loop]. unfold mbind.
    apply trial_spec in Hout. rewrite Hout. now apply IH.
Qed.

End WithLibs.

(** C6, as claimed, fails: with both rates 0, sample size 10 and one
    simulation, both groups draw no success, the table [[0, 10], [0, 10]]
    has an empty column, [chi2_contingency] raises [ValueError] and
    [manual_power_analysis] returns nothing. *)
Lemma power_analysis_degenerate_draw :
  (0 < 10)%Z /\ (0 < 1)%Z /\
  fst (trial (FL := Demo.table_float) (RL := Demo.lcg_random)
         0 0 10 (5 # 100) 7%Z) = Raise ValueError /\
  fst (manual_power_analysis (FL := Demo.table_float) (RL := Demo.lcg_random)
         0 0 10 (5 # 100) 1 7%Z) = Raise ValueError.
Proof. repeat split; vm_compute; reflexivity. Qed.

(** C6, amended: for every run of the Power Simulator with positive
    [sample_size] and positive [n_simulations], [manual_power_analysis]
    returns a result exactly when none of its [n_simulations] trials
    raises, in a draw or in the chi-square test.  It has then performed
    exactly [n_simulations] independent trials, each making its own two
    draws from the global generator in the state the draw before left
    it: the control and the treatment successes from
    [Binomial(sample_size, rate)]; each trial forms the 2x2 table of
    successes and failures, runs the chi-square test and counts as
    detected iff its p-value is below [alpha].  The result has
    [power = significant_detections / n_simulations], with
    [n_simulations] and [significant_detections] the raw counts.  The
    test of a trial with draws between 0 and [sample_size] raises, a
    [ValueError], exactly when both groups drew no success or both drew
    nothing but successes; at the first such trial
    [manual_power_analysis] raises it too and returns nothing. *)
Theorem manual_power_analysis_counts_detections
    {FL : FloatLib} {RL : RandomLib}
    (control_ctr treatment_ctr : Q) (sample_size : Z) (alpha : Q)
    (n_sim : Z) (g : rng) (r : power_estimate) (g' : rng) :
  (0 < sample_size)%Z -> (0 < n_sim)%Z ->
  let contingency_table control_clicks treatment_clicks :=
    [[control_clicks; (sample_size - control_clicks)%Z];
     [treatment_clicks; (sample_size - treatment_clicks)%Z]] in
  let same_everywhere control_clicks treatment_clicks :=
    (control_clicks = 0%Z /\ treatment_clicks = 0%Z) \/
    (control_clicks = sample_size /\ treatment_clicks = sample_size) in
  (manual_power_analysis control_ctr treatment_ctr sample_size alpha n_sim g
   = (Ok r, g') <->
   exists outcomes,
     Spec.trials_run control_ctr treatment_ctr sample_size alpha
       (Z.to_nat n_sim) g outcomes g' /\
     List.length outcomes = Z.to_nat n_sim /\
     r = PowerEstimate
           (Fin (inject_Z (Spec.detections outcomes) / inject_Z n_sim))
           n_sim (Spec.detections outcomes)) /\
  (forall control_clicks treatment_clicks,
     (0 <= control_clicks <= sample_size)%Z ->
     (0 <= treatment_clicks <= sample_size)%Z ->
     (fails (chi2_contingency
               (contingency_table control_clicks treatment_clicks)) <->
      same_everywhere control_clicks treatment_clicks) /\
     (same_everywhere control_clicks treatment_clicks ->
      chi2_contingency (contingency_table control_clicks treatment_clicks)
      = Raise ValueError)) /\
  (forall (k : nat) outcomes g1 control_clicks g2 treatment_clicks g3,
     (k < Z.to_nat n_sim)%nat ->
     Spec.trials_run control_ctr treatment_ctr sample_size alpha
       k g outcomes g1 ->
     binomial sample_size control_ctr g1 = (Ok control_clicks, g2) ->
     binomial sample_size treatment_ctr g2 = (Ok treatment_clicks, g3) ->
     same_everywhere control_clicks treatment_clicks ->
     manual_power_analysis control_ctr treatment_ctr sample_size alpha n_sim g
     = (Raise ValueError, g3)).
Proof.
  intros Hs Hn. cbv zeta. split; [|split].
  - unfold manual_power_analysis, mbind.
    destruct (simulation_loop control_ctr treatment_ctr sample_size alpha
                (Z.to_nat n_sim) 0 g) as [[s|e] g1] eqn:El.
    + apply simulation_loop_spec in El as [outcomes [Hrun Hsum]].
      rewrite Z.add_0_l in Hsum. subst s.
      assert (Hdiv : sdiv (py_int (Spec.detections outcomes)) (py_int n_sim)
                     = Ok (Scalar PyNum
                             (Fin (inject_Z (Spec.detections outcomes)
                                   / inject_Z n_sim)))).
      { rewrite IntervalFacts.sdiv_eq.
        cbn [py_int int_scalar kind val join raises_on_zero andb is_zero].
        rewrite IntervalFacts.Qeq_bool_inject_Z.
        destruct (Z.eqb_spec n_sim 0) as [|_]; [lia|].
        rewrite IntervalFacts.fdiv_by_int by lia. reflexivity. }
      unfold lift, ret. rewrite Hdiv. cbn [val]. split.
      * intros H. injection H as <- <-. exists outcomes.
        split; [exact Hrun|]. split; [|reflexivity].
        eapply trials_run_length, Hrun.
      * intros [outcomes' [Hrun' [_ ->]]].
        assert (Hl : simulation_loop control_ctr treatment_ctr sample_size
                       alpha (Z.to_nat n_sim) 0 g
                     = (Ok (0 + Spec.detections outcomes')%Z, g')).
        { apply simulation_loop_spec. now exists outcomes'. }
        assert (Hl' : simulation_loop control_ctr treatment_ctr sample_size
                        alpha (Z.to_nat n_sim) 0 g
                      = (Ok (0 + Spec.detections outcomes)%Z, g1)).
        { apply simulation_loop_spec. now exists outcomes. }
        rewrite Hl in Hl'. injection Hl' as Hd <-.
        rewrite ?Z.add_0_l in Hd. congruence.
    + split; [discriminate|].
      intros [outcomes [Hrun _]].
      assert (Hl : simulation_loop control_ctr treatment_ctr sample_size alpha
                     (Z.to_nat n_sim) 0 g
                   = (Ok (0 + Spec.detections outcomes)%Z, g')).
      { apply simulation_loop_spec. now exists outcomes. }
      rewrite El in Hl. discriminate Hl.
  - intros cc tc Hc Ht.
    destruct (Chi2Facts.trial_table_cases sample_size cc tc Hs Hc Ht)
      as [Hsame Hother].
    split; [|exact Hsame]. split.
    + intros [e He].
      assert (Hdec : ((cc = 0%Z /\ tc = 0%Z)
                      \/ (cc = sample_size /\ tc = sample_size))
                     \/ ~ ((cc = 0%Z /\ tc = 0%Z)
                           \/ (cc = sample_size /\ tc = sample_size))) by lia.
      destruct Hdec as [H|H]; [exact H|].
      destruct (Hother H) as [r0 [Hr0 _]]. rewrite Hr0 in He. discriminate He.
    + intros H. exists ValueError. now apply Hsame.
  - intros k outcomes g1 cc g2 tc g3 Hk Hrun Hb1 Hb2 Hsame.
    assert (Hc : (0 <= cc <= sample_size)%Z) by lia.
    assert (Ht : (0 <= tc <= sample_size)%Z) by lia.
    destruct (Chi2Facts.trial_table_cases sample_size cc tc Hs Hc Ht)
      as [Hraise _].
    pose proof (trial_refused control_ctr treatment_ctr sample_size alpha
                  g1 g2 g3 cc tc ValueError Hb1 Hb2 (Hraise Hsame)) as Hfail.
    unfold manual_power_analysis, mbind.
    replace (Z.to_nat n_sim) with (k + S (Z.to_nat n_sim - S k))%nat by lia.
    now rewrite (simulation_loop_raises _ _ _ _ k _ 0%Z g g1 g3 outcomes
                   ValueError Hrun Hfail).
Qed.

Lemma manual_power_analysis_counts_detections_witness :
  let contingency_table control_clicks treatment_clicks :=
    [[control_clicks; (10 - control_clicks)%Z];
     [treatment_clicks; (10 - treatment_clicks)%Z]] in
  let same_everywhere control_clicks treatment_clicks :=
    (control_clicks = 0%Z /\ treatment_clicks = 0%Z) \/
    (control_clicks = 10%Z /\ treatment_clicks = 10%Z) in
  (manual_power_analysis (FL := Demo.table_float) (RL := Demo.lcg_random)
     (1 # 10) (9 # 10) 10 (5 # 100) 5 7%Z
   = (Ok (PowerEstimate (Fin (inject_Z 5 / inject_Z 5)) 5 5), 1450707267%Z) <->
   exists outcomes,
     Spec.trials_run (FL := Demo.table_float) (RL := Demo.lcg_random)
       (1 # 10) (9 # 10) 10 (5 # 100) (Z.to_nat 5) 7%Z outcomes 1450707267%Z /\
     List.length outcomes = Z.to_nat 5 /\
     PowerEstimate (Fin (inject_Z 5 / inject_Z 5)) 5 5
     = PowerEstimate
         (Fin (inject_Z (Spec.detections outcomes) / inject_Z 5))
         5 (Spec.detections outcomes)) /\
  (forall control_clicks treatment_clicks,
     (0 <= control_clicks <= 10)%Z ->
     (0 <= treatment_clicks <= 10)%Z ->
     (fails (chi2_contingency (FL := Demo.table_float)
               (contingency_table control_clicks treatment_clicks)) <->
      same_everywhere control_clicks treatment_clicks) /\
     (same_everywhere control_clicks treatment_clicks ->
      chi2_contingency (FL := Demo.table_float)
        (contingency_table control_clicks treatment_clicks)
      = Raise ValueError)) /\
  (forall (k : nat) outcomes g1 control_clicks g2 treatment_clicks g3,
     (k < Z.to_nat 5)%nat ->
     Spec.trials_run (FL := Demo.table_float) (RL := Demo.lcg_random)
       (1 # 10) (9 # 10) 10 (5 # 100) k 7%Z outcomes g1 ->
     binomial (RandomLib := Demo.lcg_random) 10 (1 # 10) g1
     = (Ok control_clicks, g2) ->
     binomial (RandomLib := Demo.lcg_random) 10 (9 # 10) g2
     = (Ok treatment_clicks, g3) ->
     same_everywhere control_clicks treatment_clicks ->
     manual_power_analysis (FL := Demo.table_float) (RL := Demo.lcg_random)
       (1 # 10) (9 # 10) 10 (5 # 100) 5 7%Z
     = (Raise ValueError, g3)).
Proof.
  apply (manual_power_analysis_counts_detections
           (FL := Demo.table_float) (RL := Demo.lcg_random)
           (1 # 10) (9 # 10) 10 (5 # 100) 5 7%Z
           (PowerEstimate (Fin (inject_Z 5 / inject_Z 5)) 5 5) 1450707267%Z);
    lia.
Defined.

(** The run of the witness: five trials, five detections, power 1. *)
Example power_of_five_trials :
  manual_power_analysis (FL := Demo.table_float) (RL := Demo.lcg_random)
    (1 # 10) (9 # 10) 10 (5 # 100) 5 7%Z
  = (Ok (PowerEstimate (Fin (inject_Z 5 / inject_Z 5)) 5 5), 1450707267%Z).
Proof. vm_compute. reflexivity. Qed.

End PowerFacts.

(* ================================================================== *)
(** * The chi-square test on any table of records *)
(* ================================================================== *)

Module CrosstabFacts.

Import Scipy Frame ABTest.

Lemma insert_uniq_mem {A} (cmp : A -> A -> comparison)
    (Heq : forall x y, cmp x y = Eq -> x = y) (x y : A) (l : list A) :
  In x (insert_uniq cmp y l) <-> x = y \/ In x l.
Proof.
  induction l as [|z l IH]; cbn [insert_uniq].
  - cbn. intuition congruence.
  - destruct (cmp y z) eqn:E.
    + apply Heq in E. subst. cbn. intuition congruence.
    + cbn. intuition congruence.
    + cbn [In]. rewrite IH. intuition congruence.
Qed.

Lemma sorted_unique_mem {A} (cmp : A -> A -> comparison)
    (Heq : forall x y, cmp x y = Eq -> x = y) (x : A) (l : list A) :
  In x (sorted_unique cmp l) <-> In x l.
Proof.
  induction l as [|y l IH]; cbn [sorted_unique fold_right]; [tauto|].
  rewrite insert_uniq_mem by exact Heq.
  fold (sorted_unique cmp l). rewrite IH. cbn. intuition congruence.
Qed.

Lemma clicked_labels_in (c : Z) (df : dataframe) :
  In c (clicked_labels df) <-> exists r, In r df /\ clicked r = c.
Proof.
  unfold clicked_labels.
  rewrite (sorted_unique_mem Z.compare Z.compare_eq), in_map_iff.
  split; intros [r [H1 H2]]; exists r; tauto.
Qed.

Lemma count_cell_pos (df : dataframe) (r : row) :
  In r df -> (1 <= count_cell df (group r) (clicked r))%Z.
Proof.
  intros Hr. unfold count_cell.
  assert (Hf : In r (filter (fun r0 => String.eqb (group r0) (group r)
                                       && Z.eqb (clicked r0) (clicked r)) df)).
  { apply filter_In. split; [exact Hr|].
    now rewrite String.eqb_refl, Z.eqb_refl. }
  destruct (filter _ df); [contradiction | cbn [List.length]; lia].
Qed.

Lemma count_cell_nonneg (df : dataframe) (g : string) (c : Z) :
  (0 <= count_cell df g c)%Z.
Proof. unfold count_cell. lia. Qed.

(** A sum of counts with one count of at least one. *)
Lemma sumZ_pos (l : list Z) (x : Z) :
  Forall (fun y => (0 <= y)%Z) l -> In x l -> (1 <= x)%Z -> (1 <= sumZ l)%Z.
Proof.
  induction 1 as [|y l Hy Hl IH]; [contradiction|].
  assert (H0 : (0 <= sumZ l)%Z).
  { clear - Hl. induction Hl; cbn [sumZ fold_right]; [lia|].
    fold (sumZ l). lia. }
  cbn [sumZ fold_right]. fold (sumZ l).
  intros [->|Hin] Hx; [lia|]. specialize (IH Hin Hx). lia.
Qed.

Lemma zip_with_map {A} (a b : A -> Z) (l : list A) :
  zip_with Z.add (map a l) (map b l) = map (fun c => (a c + b c)%Z) l.
Proof. induction l as [|x l IH]; cbn; [reflexivity | now rewrite IH]. Qed.

(** The column totals of a table given cell by cell. *)
Lemma col_sums_cells {G C} (f : G -> C -> Z) (groups : list G) (cols : list C) :
  groups <> [] ->
  col_sums (map (fun g => map (f g) cols) groups)
  = map (fun c => sumZ (map (fun g => f g c) groups)) cols.
Proof.
  induction groups as [|g [|g' rest] IH]; intros Hne; [contradiction| |].
  - cbn [map col_sums]. apply map_ext. intros c.
    unfold sumZ. cbn [map fold_right]. lia.
  - change (col_sums (map (fun g0 => map (f g0) cols) (g :: g' :: rest)))
      with (zip_with Z.add (map (f g) cols)
              (col_sums (map (fun g0 => map (f g0) cols) (g' :: rest)))).
    rewrite IH by discriminate. rewrite zip_with_map.
    apply map_ext. intros c. reflexivity.
Qed.

Section Margins.
Variable df : dataframe.
Hypothesis nonempty : df <> [].

Lemma group_labels_nonempty : group_labels df <> [].
Proof.
  destruct df as [|r0 rest]; [contradiction|].
  assert (Hin : In (group r0) (group_labels (r0 :: rest))).
  { apply AggregatorFacts.group_labels_in. exists r0. split; [now left | reflexivity]. }
  intros E. rewrite E in Hin. contradiction.
Qed.

Lemma clicked_labels_nonempty : clicked_labels df <> [].
Proof.
  destruct df as [|r0 rest]; [contradiction|].
  assert (Hin : In (clicked r0) (clicked_labels (r0 :: rest))).
  { apply clicked_labels_in. exists r0. split; [now left | reflexivity]. }
  intros E. rewrite E in Hin. contradiction.
Qed.

Lemma row_sums_pos : Forall (fun x => (1 <= x)%Z) (row_sums (crosstab df)).
Proof.
  unfold row_sums, crosstab. rewrite map_map.
  apply Forall_forall. intros x Hx.
  apply in_map_iff in Hx as [g [<- Hg]].
  apply AggregatorFacts.group_labels_in in Hg as [r [Hr <-]].
  apply (sumZ_pos _ (count_cell df (group r) (clicked r))).
  - apply Forall_forall. intros y Hy. apply in_map_iff in Hy as [c [<- _]].
    apply count_cell_nonneg.
  - apply in_map. apply clicked_labels_in. now exists r.
  - now apply count_cell_pos.
Qed.

Lemma col_sums_pos : Forall (fun x => (1 <= x)%Z) (col_sums (crosstab df)).
Proof.
  unfold crosstab.
  rewrite (col_sums_cells (count_cell df)) by apply group_labels_nonempty.
  apply Forall_forall. intros x Hx.
  apply in_map_iff in Hx as [c [<- Hc]].
  apply clicked_labels_in in Hc as [r [Hr <-]].
  apply (sumZ_pos _ (count_cell df (group r) (clicked r))).
  - apply Forall_forall. intros y Hy. apply in_map_iff in Hy as [g [<- _]].
    apply count_cell_nonneg.
  - apply (in_map (fun g => count_cell df g (clicked r))).
    apply AggregatorFacts.group_labels_in. now exists r.
  - now apply count_cell_pos.
Qed.

Lemma total_pos : (1 <= total (crosstab df))%Z.
Proof.
  unfold total. pose proof row_sums_pos as H.
  pose proof group_labels_nonempty as Hg.
  assert (Hne : row_sums (crosstab df) <> []).
  { unfold row_sums, crosstab. rewrite map_map.
    destruct (group_labels df); [contradiction | discriminate]. }
  destruct (row_sums (crosstab df)) as [|x l]; [contradiction|].
  apply (sumZ_pos _ x).
  - eapply Forall_impl; [|exact H]. cbv beta. intros; lia.
  - now left.
  - now inversion H.
Qed.

Lemma expected_freq_pos :
  Forall (Forall (fun e => 0 < e)) (expected_freq (crosstab df)).
Proof.
  unfold expected_freq.
  pose proof row_sums_pos as Hr. pose proof col_sums_pos as Hc.
  pose proof total_pos as Hn.
  apply Forall_forall. intros line Hl.
  apply in_map_iff in Hl as [r [<- Hr']].
  apply Forall_forall. intros e He.
  apply in_map_iff in He as [c [<- Hc']].
  rewrite Forall_forall in Hr, Hc.
  specialize (Hr r Hr'). specialize (Hc c Hc'). cbv beta in Hr, Hc.
  apply (Chi2Facts.expected_pos r c (total (crosstab df))); lia.
Qed.

End Margins.

Lemma has_zero_false (e : list (list Q)) :
  Forall (Forall (fun x => 0 < x)) e -> has_zero e = false.
Proof.
  unfold has_zero. induction 1 as [|line e Hl He IH]; [reflexivity|].
  cbn [existsb]. rewrite IH, orb_false_r.
  induction Hl as [|x line Hx Hl IHl]; [reflexivity|].
  cbn [existsb]. rewrite IHl, orb_false_r.
  apply Qeq_bool_false. lra.
Qed.

Lemma has_negative_false (t : table) :
  Forall (Forall (fun x => (0 <= x)%Z)) t -> has_negative t = false.
Proof.
  unfold has_negative. induction 1 as [|line t Hl Ht IH]; [reflexivity|].
  cbn [existsb]. rewrite IH, orb_false_r.
  induction Hl as [|x line Hx Hl IHl]; [reflexivity|].
  cbn [existsb]. rewrite IHl, orb_false_r.
  destruct (Z.ltb_spec x 0); [lia | reflexivity].
Qed.

Lemma sumQ_nonneg (l : list Q) : Forall (fun x => 0 <= x) l -> 0 <= sumQ l.
Proof.
  induction 1 as [|x l Hx Hl IH]; cbn [sumQ fold_right]; [lra|].
  fold (sumQ l). lra.
Qed.

Lemma pearson_term_nonneg (o e : Q) : 0 < e -> 0 <= pearson_term o e.
Proof.
  intros He. unfold pearson_term, Qdiv.
  pose proof (Qinv_lt_0_compat e He) as Hi. set (i := / e) in *.
  set (x := o - e).
  assert (H : 0 <= x * x) by (destruct (Qlt_le_dec x 0); nra). nra.
Qed.

Lemma pearson_sum_nonneg (obs exp : list (list Q)) :
  Forall (Forall (fun e => 0 < e)) exp -> 0 <= pearson_sum obs exp.
Proof.
  unfold pearson_sum. intros He. apply sumQ_nonneg.
  revert obs. induction He as [|es exp Hes He IH]; intros [|os obs];
    cbn [zip_with map]; try constructor.
  - apply sumQ_nonneg. clear - Hes. revert os.
    induction Hes as [|e es He' Hes IH]; intros [|o os];
      cbn [zip_with]; constructor.
    + now apply pearson_term_nonneg.
    + apply IH.
  - apply IH.
Qed.

Lemma crosstab_shape (df : dataframe) :
  df <> [] ->
  n_rows (crosstab df) = Z.of_nat (List.length (group_labels df)) /\
  n_cols (crosstab df) = Z.of_nat (List.length (clicked_labels df)) /\
  (1 <= n_rows (crosstab df))%Z /\ (1 <= n_cols (crosstab df))%Z.
Proof.
  intros Hne.
  pose proof (group_labels_nonempty df Hne) as Hg.
  pose proof (clicked_labels_nonempty df Hne) as Hc.
  unfold n_rows, n_cols, crosstab. rewrite length_map.
  destruct (group_labels df) as [|g gs]; [contradiction|].
  cbn [map]. rewrite length_map.
  destruct (clicked_labels df) as [|c cs]; [contradiction|].
  cbn [List.length]. repeat split; lia.
Qed.

Section WithFloatLib.
Context {FL : FloatLib}.

(** What [chi_square_test] returns on a table with at least one record. *)
Lemma chi_square_test_nonempty (df : dataframe) :
  df <> [] ->
  let dof := ((Z.of_nat (List.length (group_labels df)) - 1)
              * (Z.of_nat (List.length (clicked_labels df)) - 1))%Z in
  exists r s p,
    chi_square_test df = Ok r /\
    chi2_statistic r = Fin s /\ 0 <= s /\
    p_value r = Fin p /\
    degrees_of_freedom r = dof /\
    (dof = 0%Z -> chi2_statistic r = Fin 0 /\ p_value r = Fin 1).
Proof.
  intros Hne dof.
  destruct (crosstab_shape df Hne) as [Hrows [Hcols [Hr1 Hc1]]].
  unfold chi_square_test, chi2_contingency.
  rewrite (has_negative_false _ (Chi2Facts.crosstab_nonneg df)).
  unfold size.
  destruct (Z.eqb_spec (n_rows (crosstab df) * n_cols (crosstab df)) 0)
    as [E|_]; [nia|].
  pose proof (total_pos df Hne) as Ht.
  destruct (Z.eqb_spec (total (crosstab df)) 0) as [E|_]; [lia|].
  rewrite (has_zero_false _ (expected_freq_pos df Hne)).
  assert (Hdof : (n_rows (crosstab df) * n_cols (crosstab df)
                  - (n_rows (crosstab df) + n_cols (crosstab df)) + 2 - 1)%Z
                 = dof).
  { subst dof. rewrite Hrows, Hcols. ring. }
  rewrite Hdof.
  destruct (Z.eqb_spec dof 0) as [E0|E0].
  - do 3 eexists. split; [reflexivity|].
    cbn [chi2_statistic p_value degrees_of_freedom].
    repeat split; try reflexivity. lra.
  - do 3 eexists. split; [reflexivity|].
    cbn [chi2_statistic p_value degrees_of_freedom].
    split; [reflexivity|]. split.
    + apply pearson_sum_nonneg, expected_freq_pos, Hne.
    + split; [reflexivity|]. split; [reflexivity|]. intros; contradiction.
Qed.

End WithFloatLib.

(** X1: [chi_square_test] raises on the empty table and on no other: a
    cross-tabulation of records has no empty line or column.  On a table
    with at least one record it returns a finite, non-negative statistic,
    a finite p-value and (groups - 1) * (outcomes - 1) degrees of
    freedom. *)
Theorem chi_square_test_fails_only_on_empty
    {FL : FloatLib} (df : dataframe) :
  (fails (chi_square_test df) <-> df = []) /\
  (df <> [] ->
   exists r s p,
     chi_square_test df = Ok r /\
     chi2_statistic r = Fin s /\ 0 <= s /\
     p_value r = Fin p /\
     degrees_of_freedom r
     = ((Z.of_nat (List.length (group_labels df)) - 1)
        * (Z.of_nat (List.length (clicked_labels df)) - 1))%Z).
Proof.
  split.
  - split.
    + intros [e He]. destruct df as [|r0 rest]; [reflexivity|].
      destruct (chi_square_test_nonempty (r0 :: rest)) as [r [s [p [Hr _]]]];
        [discriminate|].
      rewrite Hr in He. discriminate He.
    + intros ->. exists ValueError. reflexivity.
  - intros Hne.
    destruct (chi_square_test_nonempty df Hne) as [r [s [p [Hr [Hs [H0 [Hp [Hd _]]]]]]]].
    exists r, s, p. auto.
Qed.

(** X2: a table of records that all carry one group label, or that all
    carry one outcome, is not an error for [chi_square_test]: the
    cross-tabulation has a single line or column, and the result is the
    statistic 0 with p-value 1 and no degree of freedom. *)
Theorem chi_square_test_single_label
    {FL : FloatLib} (df : dataframe) (r0 : row) :
  In r0 df ->
  (forall r, In r df -> group r = group r0) \/
  (forall r, In r df -> clicked r = clicked r0) ->
  exists r,
    chi_square_test df = Ok r /\
    chi2_statistic r = Fin 0 /\ p_value r = Fin 1 /\
    degrees_of_freedom r = 0%Z.
Proof.
  intros Hin Hone.
  assert (Hne : df <> []) by (intros ->; contradiction).
  assert (Hdof : ((Z.of_nat (List.length (group_labels df)) - 1)
                  * (Z.of_nat (List.length (clicked_labels df)) - 1))%Z = 0%Z).
  { destruct Hone as [Hg|Hc].
    - assert (Hl : group_labels df = [group r0]).
      { pose proof (AggregatorFacts.group_labels_nodup df) as Hnd.
        pose proof (group_labels_nonempty df Hne) as Hg0.
        assert (Hall : forall g, In g (group_labels df) -> g = group r0).
        { intros g Hg'. apply AggregatorFacts.group_labels_in in Hg' as [r [Hr <-]].
          now apply Hg. }
        destruct (group_labels df) as [|g1 [|g2 rest]]; [contradiction| |].
        - f_equal. apply Hall. now left.
        - exfalso. inversion Hnd as [|? ? Hnot _]; subst. apply Hnot.
          rewrite (Hall g1) by (now left).
          rewrite (Hall g2) by (right; now left). now left. }
      rewrite Hl. cbn [List.length]. lia.
    - assert (Hl : List.length (clicked_labels df) = 1%nat).
      { pose proof (clicked_labels_nonempty df Hne) as Hc0.
        assert (Hall : forall c, In c (clicked_labels df) -> c = clicked r0).
        { intros c Hc'. apply clicked_labels_in in Hc' as [r [Hr <-]].
          now apply Hc. }
        unfold clicked_labels in *.
        assert (Hsame : forall l, (forall c, In c l -> c = clicked r0) ->
                  l <> [] -> sorted_unique Z.compare l = [clicked r0]).
        { induction l as [|c l IH]; intros Hcs Hl0; [contradiction|].
          cbn [sorted_unique fold_right]. fold (sorted_unique Z.compare l).
          rewrite (Hcs c) by (now left).
          destruct l as [|c' l'].
          - reflexivity.
          - rewrite IH; [|intros c0 H0; apply Hcs; now right | discriminate].
            cbn [insert_uniq]. now rewrite Z.compare_refl. }
        rewrite Hsame; [reflexivity| |].
        - intros c Hc'. apply in_map_iff in Hc' as [r [<- Hr]]. now apply Hc.
        - destruct df; [contradiction | discriminate]. }
      rewrite Hl. lia. }
  destruct (chi_square_test_nonempty df Hne)
    as [r [s [p [Hr [_ [_ [_ [Hd Hz]]]]]]]].
  cbv zeta in Hd, Hz. rewrite Hdof in Hd. destruct (Hz Hdof) as [Hs Hp].
  exists r. auto.
Qed.

Lemma chi_square_test_single_label_witness :
  exists r,
    chi_square_test (FL := Demo.table_float) Demo.control_only = Ok r /\
    chi2_statistic r = Fin 0 /\ p_value r = Fin 1 /\
    degrees_of_freedom r = 0%Z.
Proof.
  apply (chi_square_test_single_label Demo.control_only
           (Row "user_000000" 3 "control" 1)).
  - now left.
  - left. intros r [<-|[<-|[]]]; reflexivity.
Defined.

End CrosstabFacts.

(* ================================================================== *)
(** * The corrected statistic in closed form *)
(* ================================================================== *)

Module ClosedFormFacts.

Import Scipy Frame ABTest.

Lemma Qabs_over_pos (x n : Q) : 0 < n -> Qabs (x / n) == Qabs x / n.
Proof.
  intros Hn. unfold Qdiv. rewrite Qabs_Qmult.
  rewrite (Qabs_pos (/ n)); [reflexivity|].
  apply Qlt_le_weak. now apply Qinv_lt_0_compat.
Qed.

Lemma yates_statistic_closed_form (a b c d : Z) :
  (0 < a + b)%Z -> (0 < c + d)%Z -> (0 < a + c)%Z -> (0 < b + d)%Z ->
  (0 < a + b + c + d)%Z ->
  Spec.yates_statistic a b c d == Textbook.yates_closed_form a b c d.
Proof.
  intros Hr1 Hr2 Hc1 Hc2 Hn0.
  unfold Spec.yates_statistic, Spec.sum_over, Spec.cells,
    Textbook.yates_closed_form.
  cbn [fold_right fst snd]. cbv zeta.
  set (A := inject_Z a). set (B := inject_Z b).
  set (C := inject_Z c). set (D := inject_Z d).
  assert (Er1 : inject_Z (a + b) == A + B) by (rewrite inject_Z_plus; reflexivity).
  assert (Er2 : inject_Z (c + d) == C + D) by (rewrite inject_Z_plus; reflexivity).
  assert (Ec1 : inject_Z (a + c) == A + C) by (rewrite inject_Z_plus; reflexivity).
  assert (Ec2 : inject_Z (b + d) == B + D) by (rewrite inject_Z_plus; reflexivity).
  assert (En : inject_Z (a + b + c + d) == A + B + C + D).
  { rewrite !inject_Z_plus. reflexivity. }
  assert (Ex : inject_Z (a * d - b * c) == A * D - B * C).
  { unfold Z.sub. rewrite inject_Z_plus, inject_Z_opp, !inject_Z_mult.
    reflexivity. }
  pose proof (inject_Z_pos _ Hr1) as Pr1. pose proof (inject_Z_pos _ Hr2) as Pr2.
  pose proof (inject_Z_pos _ Hc1) as Pc1. pose proof (inject_Z_pos _ Hc2) as Pc2.
  pose proof (inject_Z_pos _ Hn0) as Pn.
  rewrite Er1 in Pr1. rewrite Er2 in Pr2. rewrite Ec1 in Pc1.
  rewrite Ec2 in Pc2. rewrite En in Pn.
  set (n := A + B + C + D) in *.
  set (X := Qabs (A * D - B * C)).
  assert (HX : Qabs (inject_Z (a * d - b * c)) == X).
  { subst X. now apply Qabs_wd. }
  assert (HX0 : 0 <= X) by apply Qabs_nonneg.
  set (e11 := Spec.expected (a + b) (a + c) (a + b + c + d)).
  set (e12 := Spec.expected (a + b) (b + d) (a + b + c + d)).
  set (e21 := Spec.expected (c + d) (a + c) (a + b + c + d)).
  set (e22 := Spec.expected (c + d) (b + d) (a + b + c + d)).
  assert (E11 : e11 == (A + B) * (A + C) / n).
  { subst e11. unfold Spec.expected. now rewrite Er1, Ec1, En. }
  assert (E12 : e12 == (A + B) * (B + D) / n).
  { subst e12. unfold Spec.expected. now rewrite Er1, Ec2, En. }
  assert (E21 : e21 == (C + D) * (A + C) / n).
  { subst e21. unfold Spec.expected. now rewrite Er2, Ec1, En. }
  assert (E22 : e22 == (C + D) * (B + D) / n).
  { subst e22. unfold Spec.expected. now rewrite Er2, Ec2, En. }
  assert (Hn : ~ n == 0) by lra.
  assert (R11 : Qabs (A - e11) == X / n).
  { unfold X. rewrite <- Qabs_over_pos by exact Pn. apply Qabs_wd.
    rewrite E11. subst n. field. exact Hn. }
  assert (R12 : Qabs (B - e12) == X / n).
  { unfold X. rewrite <- Qabs_over_pos by exact Pn. rewrite <- Qabs_opp. apply Qabs_wd.
    rewrite E12. subst n. field. exact Hn. }
  assert (R21 : Qabs (C - e21) == X / n).
  { unfold X. rewrite <- Qabs_over_pos by exact Pn. rewrite <- Qabs_opp. apply Qabs_wd.
    rewrite E21. subst n. field. exact Hn. }
  assert (R22 : Qabs (D - e22) == X / n).
  { unfold X. rewrite <- Qabs_over_pos by exact Pn. apply Qabs_wd.
    rewrite E22. subst n. field. exact Hn. }
  set (Y := X / n) in *.
  assert (HY : X == Y * n) by (subst Y; field; exact Hn).
  unfold Spec.corrected_distance.
  destruct (Qle_bool (1 # 2) (Qabs (A - e11))) eqn:B11;
  destruct (Qle_bool (1 # 2) (Qabs (B - e12))) eqn:B12;
  destruct (Qle_bool (1 # 2) (Qabs (C - e21))) eqn:B21;
  destruct (Qle_bool (1 # 2) (Qabs (D - e22))) eqn:B22;
  destruct (Qle_bool (inject_Z (a + b + c + d) / 2)
              (Qabs (inject_Z (a * d - b * c)))) eqn:B0;
  try (apply Qle_bool_iff in B11); try (apply Qle_bool_false in B11);
  try (apply Qle_bool_iff in B12); try (apply Qle_bool_false in B12);
  try (apply Qle_bool_iff in B21); try (apply Qle_bool_false in B21);
  try (apply Qle_bool_iff in B22); try (apply Qle_bool_false in B22);
  try (apply Qle_bool_iff in B0); try (apply Qle_bool_false in B0);
  rewrite ?R11, ?R12, ?R21, ?R22 in *;
  rewrite HX, En in B0; fold n in B0;
  unfold Qdiv in B0; change (/ 2) with (1 # 2) in B0;
  try (exfalso; nra).
  - rewrite HX, En, Er1, Er2, Ec1, Ec2, E11, E12, E21, E22. fold n.
    rewrite HY. subst n. field. repeat split; lra.
  - rewrite Er1, Er2, Ec1, Ec2, E11, E12, E21, E22, En. fold n.
    subst n. field. repeat split; lra.
Qed.

(** X3: on a 2x2 cross-tabulation [[a, b], [c, d]] with positive margins
    the statistic of [chi_square_test] is the textbook expression
    [n (|ad - bc| - n/2)^2 / ((a+b)(c+d)(a+c)(b+d))], and zero when
    [|ad - bc| < n/2]. *)
Theorem chi_square_test_closed_form
    {FL : FloatLib} (df : dataframe) (a b c d : Z) :
  crosstab df = [[a; b]; [c; d]] ->
  (0 < a + b)%Z -> (0 < c + d)%Z -> (0 < a + c)%Z -> (0 < b + d)%Z ->
  exists r s,
    chi_square_test df = Ok r /\
    chi2_statistic r = Fin s /\
    s == Textbook.yates_closed_form a b c d.
Proof.
  intros Ht Hr1 Hr2 Hc1 Hc2.
  destruct (Chi2Facts.chi_square_test_2x2 df a b c d Ht Hr1 Hr2 Hc1 Hc2)
    as [r [s [Hr [Hs [_ [_ Hy]]]]]].
  exists r, s. split; [exact Hr|]. split; [exact Hs|].
  rewrite Hy. apply yates_statistic_closed_form; lia.
Qed.

Lemma chi_square_test_closed_form_witness :
  exists r s,
    chi_square_test (FL := Demo.table_float) Demo.eight_users = Ok r /\
    chi2_statistic r = Fin s /\
    s == Textbook.yates_closed_form 3 1 1 3.
Proof.
  apply (chi_square_test_closed_form Demo.eight_users 3 1 1 3);
    [reflexivity | lia | lia | lia | lia].
Defined.

End ClosedFormFacts.

(* ================================================================== *)
(** * More on the power simulation, the effect size and the interval *)
(* ================================================================== *)

Module EngineFacts.

Import Scipy Frame Rand ABTest.

Lemma detections_bounds (l : list bool) :
  (0 <= Spec.detections l <= Z.of_nat (List.length l))%Z.
Proof.
  unfold Spec.detections. split; [lia|].
  apply inj_le. induction l as [|b l IH]; cbn [filter List.length]; [lia|].
  destruct b; cbn [List.length]; lia.
Qed.

Lemma fadd_nan_r (x : fval) : fadd x NaN = NaN.
Proof. destruct x; reflexivity. Qed.

Lemma fsub_nan_r (x : fval) : fsub x NaN = NaN.
Proof. destruct x; reflexivity. Qed.

Lemma fmul_nan_r (x : fval) : fmul x NaN = NaN.
Proof. destruct x; reflexivity. Qed.

Lemma fdiv_nan_r (x : fval) : fdiv x NaN = NaN.
Proof. destruct x; reflexivity. Qed.

Lemma sqrt_approx_nonneg (x : Q) : 0 <= Demo.sqrt_approx x.
Proof.
  unfold Demo.sqrt_approx.
  pose proof (Z.sqrt_nonneg (Qfloor (x * 100000000000000))) as Hs.
  apply Qle_shift_div_l; [reflexivity|]. rewrite Qmult_0_l.
  change 0 with (inject_Z 0). now rewrite <- Zle_Qle.
Qed.

Lemma ppf_table_nonneg (q : Q) : 1 # 2 <= q -> 0 <= Demo.ppf_table q.
Proof.
  intros Hq. unfold Demo.ppf_table.
  apply Qle_bool_iff in Hq. rewrite Hq. unfold Demo.ppf_upper.
  repeat match goal with
         | |- context [if ?b then _ else _] => destruct b
         end; discriminate.
Qed.

(** X4: whenever [manual_power_analysis] returns, with a positive number
    of simulations, the count of detections lies between 0 and
    [n_simulations], which is reported unchanged, and the power is a
    number between 0 and 1. *)
Theorem power_estimate_within_bounds
    {FL : FloatLib} {RL : RandomLib}
    (control_ctr treatment_ctr : Q) (sample_size : Z) (alpha : Q)
    (n_sim : Z) (g : rng) (r : power_estimate) (g' : rng) :
  (0 < n_sim)%Z ->
  manual_power_analysis control_ctr treatment_ctr sample_size alpha n_sim g
  = (Ok r, g') ->
  n_simulations r = n_sim /\
  (0 <= significant_detections r <= n_sim)%Z /\
  exists q, power r = Fin q /\ 0 <= q <= 1.
Proof.
  intros Hn. unfold manual_power_analysis, mbind.
  destruct (simulation_loop control_ctr treatment_ctr sample_size alpha
              (Z.to_nat n_sim) 0 g) as [[s|e] g1] eqn:El; [|discriminate].
  apply PowerFacts.simulation_loop_spec in El as [outcomes [Hrun Hs]].
  apply PowerFacts.trials_run_length in Hrun.
  pose proof (detections_bounds outcomes) as Hb.
  rewrite Hrun, Z2Nat.id in Hb by lia.
  rewrite Z.add_0_l in Hs. subst s.
  unfold lift, ret. rewrite IntervalFacts.sdiv_eq.
  cbn [py_int int_scalar kind val join raises_on_zero andb is_zero].
  rewrite IntervalFacts.Qeq_bool_inject_Z.
  destruct (Z.eqb_spec n_sim 0) as [|_]; [lia|].
  rewrite IntervalFacts.fdiv_by_int by lia.
  intros H. injection H as <- <-.
  cbn [n_simulations significant_detections power val].
  split; [reflexivity|]. split; [exact Hb|].
  eexists. split; [reflexivity|].
  apply (IntervalFacts.rate_bounds (Spec.detections outcomes) n_sim Hn Hb).
Qed.

Lemma power_estimate_within_bounds_witness :
  n_simulations (PowerEstimate (Fin (inject_Z 5 / inject_Z 5)) 5 5) = 5%Z /\
  (0 <= significant_detections
          (PowerEstimate (Fin (inject_Z 5 / inject_Z 5)) 5 5) <= 5)%Z /\
  exists q, power (PowerEstimate (Fin (inject_Z 5 / inject_Z 5)) 5 5) = Fin q /\
            0 <= q <= 1.
Proof.
  apply (power_estimate_within_bounds
           (FL := Demo.table_float) (RL := Demo.lcg_random)
           (1 # 10) (9 # 10) 10 (5 # 100) 5 7%Z
           (PowerEstimate (Fin (inject_Z 5 / inject_Z 5)) 5 5) 1450707267%Z).
  - lia.
  - vm_compute. reflexivity.
Defined.

(** X5: with [n_simulations <= 0] no trial is run and the generator is
    left as it was: zero simulations end in [ZeroDivisionError] (0/0), a
    negative number comes back as a result with no detection and power
    zero. *)
Theorem power_analysis_without_trials
    {FL : FloatLib} {RL : RandomLib}
    (control_ctr treatment_ctr : Q) (sample_size : Z) (alpha : Q)
    (n_sim : Z) (g : rng) :
  (n_sim <= 0)%Z ->
  (n_sim = 0%Z ->
   manual_power_analysis control_ctr treatment_ctr sample_size alpha n_sim g
   = (Raise ZeroDivisionError, g)) /\
  ((n_sim < 0)%Z ->
   exists q,
     manual_power_analysis control_ctr treatment_ctr sample_size alpha n_sim g
     = (Ok (PowerEstimate (Fin q) n_sim 0), g) /\ q == 0).
Proof.
  intros Hn. unfold manual_power_analysis, mbind.
  replace (Z.to_nat n_sim) with O by lia.
  cbn [simulation_loop]. unfold ret, lift.
  rewrite IntervalFacts.sdiv_eq.
  cbn [py_int int_scalar kind val join raises_on_zero andb is_zero].
  rewrite IntervalFacts.Qeq_bool_inject_Z.
  split.
  - intros ->. reflexivity.
  - intros Hneg. destruct (Z.eqb_spec n_sim 0) as [|_]; [lia|].
    rewrite IntervalFacts.fdiv_by_int by lia. cbn [val].
    eexists. split; [reflexivity|].
    unfold Qdiv. change (inject_Z 0) with 0. ring.
Qed.

Lemma power_analysis_without_trials_witness :
  (0%Z = 0%Z ->
   manual_power_analysis (FL := Demo.table_float) (RL := Demo.lcg_random)
     (8 # 100) (105 # 1000) 5000 (5 # 100) 0 7%Z
   = (Raise ZeroDivisionError, 7%Z)) /\
  ((0 < 0)%Z ->
   exists q,
     manual_power_analysis (FL := Demo.table_float) (RL := Demo.lcg_random)
       (8 # 100) (105 # 1000) 5000 (5 # 100) 0 7%Z
     = (Ok (PowerEstimate (Fin q) 0 0), 7%Z) /\ q == 0).
Proof.
  apply (power_analysis_without_trials
           (FL := Demo.table_float) (RL := Demo.lcg_random)
           (8 # 100) (105 # 1000) 5000 (5 # 100) 0 7%Z).
  lia.
Defined.

(** X6: [calculate_effect_size] does not reject a negative rate: the
    square root of it is [nan], and so is the effect size, whichever
    argument is negative and whatever the other one is. *)
Theorem effect_size_of_negative_rate
    {FL : FloatLib} (control_ctr treatment_ctr : Q) :
  control_ctr < 0 \/ treatment_ctr < 0 ->
  calculate_effect_size control_ctr treatment_ctr = NaN.
Proof.
  intros H. unfold calculate_effect_size.
  destruct H as [H|H].
  - assert (E : np_arcsin (np_sqrt (Fin control_ctr)) = NaN).
    { cbn [np_sqrt]. now rewrite Qlt_bool_true. }
    rewrite E, fsub_nan_r. reflexivity.
  - assert (E : np_arcsin (np_sqrt (Fin treatment_ctr)) = NaN).
    { cbn [np_sqrt]. now rewrite Qlt_bool_true. }
    rewrite E. reflexivity.
Qed.

Lemma effect_size_of_negative_rate_witness :
  calculate_effect_size (FL := Demo.table_float) (- (1 # 10)) (105 # 1000) = NaN.
Proof.
  apply (effect_size_of_negative_rate (FL := Demo.table_float)
           (- (1 # 10)) (105 # 1000)).
  left. reflexivity.
Defined.

Section WithFloatLib.
Context {FL : FloatLib}.

(** With NumPy click counts no division of the interval raises. *)
Lemma cci_numpy_clicks (ca ta cb tb : Z) (alpha : Q) :
  exists r,
    calculate_confidence_interval (np_int ca) (py_int ta) (np_int cb)
      (py_int tb) alpha = Ok r.
Proof.
  unfold calculate_confidence_interval.
  rewrite !IntervalFacts.sdiv_eq.
  cbn [np_int py_int int_scalar kind val join raises_on_zero andb bind].
  rewrite !IntervalFacts.sdiv_eq.
  cbn [kind val ssub smul sadd py_int int_scalar join raises_on_zero andb bind].
  eexists. reflexivity.
Qed.

End WithFloatLib.

(** X7: the call that [comprehensive_analysis] and
    [plot_confidence_intervals] make raises on one table only, the one
    without records as [read_csv] returns it: its columns are
    object-typed, the sums of clicks are the built-in 0 and [0 / 0] is a
    [ZeroDivisionError].  On a table with records, and on any table whose
    ['clicked'] column is [int64], the clicks are NumPy integers and no
    division raises; when the table has no control record, or no
    treatment record, all five values of the result are [nan]. *)
Theorem confidence_interval_of_raises_on_empty_only
    {FL : FloatLib} (df : dataframe) :
  (df = [] -> confidence_interval_of df = Raise ZeroDivisionError) /\
  (df <> [] -> confidence_interval_of df = confidence_interval_as int64 df) /\
  exists r,
    confidence_interval_as int64 df = Ok r /\
    (clicked_of df "control" = [] \/ clicked_of df "treatment" = [] ->
     difference r = NaN /\ ci_lower r = NaN /\ ci_upper r = NaN /\
     margin_of_error r = NaN /\ relative_improvement r = NaN).
Proof.
  split; [intros ->; reflexivity|].
  split; [destruct df; [contradiction | reflexivity]|].
  unfold confidence_interval_as, calculate_confidence_interval.
  rewrite !IntervalFacts.sdiv_eq.
  cbn [sum_kind py_int int_scalar kind val join raises_on_zero andb bind].
  rewrite !IntervalFacts.sdiv_eq.
  cbn [kind val ssub smul sadd py_int int_scalar join raises_on_zero andb bind].
  eexists. split; [reflexivity|].
  cbn [difference ci_lower ci_upper margin_of_error relative_improvement].
  intros [E|E]; rewrite E; cbn [List.length sumZ fold_right Z.of_nat].
  - assert (Hnan : fdiv (Fin (inject_Z 0)) (Fin (inject_Z 0)) = NaN)
      by reflexivity.
    rewrite Hnan.
    rewrite ?fsub_nan_r, ?fdiv_nan_r, ?fadd_nan_r, ?fmul_nan_r.
    cbn [fmul fsub fadd fdiv fneg np_sqrt].
    rewrite ?fsub_nan_r, ?fdiv_nan_r, ?fadd_nan_r, ?fmul_nan_r.
    repeat split; reflexivity.
  - assert (Hnan : fdiv (Fin (inject_Z 0)) (Fin (inject_Z 0)) = NaN)
      by reflexivity.
    rewrite Hnan.
    cbn [fmul fsub fadd fdiv fneg np_sqrt].
    rewrite ?fsub_nan_r, ?fdiv_nan_r, ?fadd_nan_r, ?fmul_nan_r.
    cbn [fmul fsub fadd fdiv fneg np_sqrt].
    rewrite ?fsub_nan_r, ?fdiv_nan_r, ?fadd_nan_r, ?fmul_nan_r.
    repeat split; reflexivity.
Qed.

(** X8: for the call the pipeline makes, with positive totals, click
    counts between 0 and their totals and [alpha] above [2^-53] and
    below 1, the result is a finite interval in the right order,
    [ci_lower <= difference <= ci_upper], with a non-negative margin and
    a difference between -1 and 1.  (A smaller [alpha] makes the double
    [1 - alpha/2] equal to 1.0 and the margin infinite or [nan].)  The
    square root and the normal quantile are taken non-negative where the
    exact functions are. *)
Theorem confidence_interval_ordered
    {FL : FloatLib} (ca ta cb tb : Z) (alpha : Q) :
  (forall x, 0 <= x -> 0 <= fsqrt x) ->
  (forall q, 1 # 2 <= q -> q < 1 -> 0 <= norm_ppf_fn q) ->
  (0 < ta)%Z -> (0 < tb)%Z -> Double.pow2 (-53) < alpha -> alpha < 1 ->
  (0 <= ca <= ta)%Z -> (0 <= cb <= tb)%Z ->
  exists r d m l u,
    calculate_confidence_interval (np_int ca) (py_int ta) (np_int cb)
      (py_int tb) alpha = Ok r /\
    difference r = Fin d /\ margin_of_error r = Fin m /\
    ci_lower r = Fin l /\ ci_upper r = Fin u /\
    0 <= m /\ l <= d <= u /\ - (1) <= d <= 1.
Proof.
  intros Hsqrt Hppf Hta Htb Ha0 Ha1 Hca Hcb.
  assert (Hta' : ta <> 0%Z) by lia. assert (Htb' : tb <> 0%Z) by lia.
  unfold np_int, py_int.
  rewrite (IntervalFacts.cci_nonzero_totals NpNum PyNum NpNum PyNum
             ca ta cb tb alpha Hta' Htb').
  cbv zeta. cbn [join raises_on_zero andb].
  pose proof (IntervalFacts.rate_bounds ca ta Hta Hca) as Pa.
  pose proof (IntervalFacts.rate_bounds cb tb Htb Hcb) as Pb.
  pose proof (IntervalFacts.variance_term_nonneg _ ta Hta Pa) as Va.
  pose proof (IntervalFacts.variance_term_nonneg _ tb Htb Pb) as Vb.
  set (variance := Spec.rate ca ta * (inject_Z 1 + - Spec.rate ca ta)
                   / inject_Z ta
                   + Spec.rate cb tb * (inject_Z 1 + - Spec.rate cb tb)
                     / inject_Z tb) in *.
  assert (Hv : 0 <= variance) by (subst variance; lra).
  assert (Es : np_sqrt (Fin variance) = Fin (fsqrt variance)).
  { cbn [np_sqrt]. now rewrite Qlt_bool_false. }
  destruct (IntervalFacts.z_score_argument alpha Ha0 Ha1) as [Hq0 Hq1].
  rewrite Es, IntervalFacts.norm_ppf_inside by lra.
  cbn [fmul fsub fadd fneg].
  pose proof (Hsqrt variance Hv) as Hs.
  pose proof (Hppf _ Hq0 Hq1) as Hz.
  set (z := norm_ppf_fn (Double.double (1 - alpha / 2))) in *.
  set (se := fsqrt variance) in *.
  assert (Hm : 0 <= z * se) by nra.
  do 5 eexists. split; [reflexivity|].
  cbn [difference margin_of_error ci_lower ci_upper].
  repeat (split; [reflexivity|]).
  split; [exact Hm|]. split; lra.
Qed.

Lemma confidence_interval_ordered_witness :
  exists r d m l u,
    calculate_confidence_interval (FL := Demo.table_float)
      (np_int 400) (py_int 5000) (np_int 525) (py_int 5000) (5 # 100) = Ok r /\
    difference r = Fin d /\ margin_of_error r = Fin m /\
    ci_lower r = Fin l /\ ci_upper r = Fin u /\
    0 <= m /\ l <= d <= u /\ - (1) <= d <= 1.
Proof.
  apply (confidence_interval_ordered (FL := Demo.table_float)
           400 5000 525 5000 (5 # 100));
    first [ exact (fun x _ => sqrt_approx_nonneg x)
          | exact (fun q H _ => ppf_table_nonneg q H)
          | lia | reflexivity ].
Defined.

End EngineFacts.

(* ================================================================== *)
(** * More on the per-group summary *)
(* ================================================================== *)

Module SummaryFacts.

Import Scipy Frame ABTest.

Lemma sumZ_ones {A} (l : list A) :
  sumZ (map (fun _ => 1%Z) l) = Z.of_nat (List.length l).
Proof.
  induction l as [|x l IH]; [reflexivity|].
  cbn [map sumZ fold_right List.length]. fold (sumZ (map (fun _ => 1%Z) l)).
  rewrite IH. lia.
Qed.

Lemma filter_all {A} (p : A -> bool) (l : list A) :
  (forall x, In x l -> p x = true) -> filter p l = l.
Proof.
  induction l as [|x l IH]; intros H; [reflexivity|].
  cbn [filter]. rewrite (H x) by (now left).
  f_equal. apply IH. intros y Hy. apply H. now right.
Qed.

(** A weighted count over two selections that exclude each other. *)
Lemma sum_filter_or (w : row -> Z) (p q : row -> bool) (df : dataframe) :
  (forall r, p r = true -> q r = false) ->
  sumZ (map w (filter (fun r => p r || q r) df))
  = (sumZ (map w (filter p df)) + sumZ (map w (filter q df)))%Z.
Proof.
  intros Hpq. induction df as [|r df IH]; [reflexivity|].
  cbn [filter]. destruct (p r) eqn:Ep.
  - rewrite (Hpq r Ep). cbn [orb map sumZ fold_right].
    fold (sumZ (map w (filter (fun r0 => p r0 || q r0) df))).
    fold (sumZ (map w (filter p df))). lia.
  - cbn [orb]. destruct (q r).
    + cbn [map sumZ fold_right].
      fold (sumZ (map w (filter (fun r0 => p r0 || q r0) df))).
      fold (sumZ (map w (filter q df))). lia.
    + exact IH.
Qed.

(** Summing group by group, over distinct labels, is summing over the
    records whose label is one of them. *)
Lemma sum_by_group (w : row -> Z) (df : dataframe) (labels : list string) :
  NoDup labels ->
  sumZ (map (fun g =>
               sumZ (map w (filter (fun r => String.eqb (group r) g) df)))
            labels)
  = sumZ (map w (filter (fun r => existsb (String.eqb (group r)) labels) df)).
Proof.
  induction 1 as [|g labels Hnot Hnd IH].
  - cbn [map existsb sumZ fold_right].
    replace (filter (fun _ : row => false) df) with (@nil row); [reflexivity|].
    induction df; [reflexivity | assumption].
  - cbn [map existsb sumZ fold_right].
    rewrite sum_filter_or.
    + fold (sumZ (map (fun g0 =>
               sumZ (map w (filter (fun r => String.eqb (group r) g0) df)))
               labels)).
      now rewrite IH.
    + intros r Hr. apply String.eqb_eq in Hr. subst g.
      destruct (existsb (String.eqb (group r)) labels) eqn:E; [|reflexivity].
      apply existsb_exists in E as [g' [Hin Hg']].
      apply String.eqb_eq in Hg'. subst g'. contradiction.
Qed.

Lemma sum_by_group_labels (w : row -> Z) (df : dataframe) :
  sumZ (map (fun g =>
               sumZ (map w (filter (fun r => String.eqb (group r) g) df)))
            (group_labels df))
  = sumZ (map w df).
Proof.
  rewrite sum_by_group by apply AggregatorFacts.group_labels_nodup.
  rewrite filter_all; [reflexivity|].
  intros r Hr. apply existsb_exists. exists (group r).
  split; [|apply String.eqb_refl].
  apply AggregatorFacts.group_labels_in. now exists r.
Qed.

(** X9: the groups of [calculate_click_rates] partition the table: the
    counts of the summary add up to the number of records and its clicks
    to the sum of the ['clicked'] column, the totals that
    [plot_click_rates_comparison] takes from it. *)
Theorem click_rates_partition (df : dataframe) :
  df <> [] ->
  exists summary,
    calculate_click_rates df = Ok summary /\
    sumZ (map (fun line => count (snd line)) summary)
    = Z.of_nat (List.length df) /\
    sumZ (map (fun line => clicks (snd line)) summary)
    = sumZ (map clicked df).
Proof.
  intros _. eexists. split; [reflexivity|].
  rewrite !map_map. cbn [snd count clicks]. unfold clicked_of. split.
  - rewrite <- (sumZ_ones df), <- (sum_by_group_labels (fun _ => 1%Z) df).
    f_equal. apply map_ext. intros g. now rewrite length_map, sumZ_ones.
  - rewrite <- (sum_by_group_labels clicked df). reflexivity.
Qed.

Lemma click_rates_partition_witness :
  exists summary,
    calculate_click_rates Demo.six_users = Ok summary /\
    sumZ (map (fun line => count (snd line)) summary)
    = Z.of_nat (List.length Demo.six_users) /\
    sumZ (map (fun line => clicks (snd line)) summary)
    = sumZ (map clicked Demo.six_users).
Proof.
  apply (click_rates_partition Demo.six_users). discriminate.
Defined.

(** X10: on a table whose ['clicked'] column holds only 0 and 1, every
    line of the summary has between 0 and [count] clicks and a rate,
    after rounding, between 0 and 1. *)
Theorem click_rates_within_range (df : dataframe) :
  df <> [] ->
  (forall r, In r df -> clicked r = 0%Z \/ clicked r = 1%Z) ->
  exists summary,
    calculate_click_rates df = Ok summary /\
    (forall g s, In (g, s) summary ->
       (0 <= clicks s <= count s)%Z /\ 0 <= ctr s <= 1).
Proof.
  intros _ Hbits. eexists. split; [reflexivity|].
  intros g s Hin. apply in_map_iff in Hin as [g' [Heq Hg]].
  injection Heq as _ Hs. subst s. cbn [count clicks ctr].
  destruct (AggregatorFacts.clicked_of_group df g' Hbits Hg) as [Hpos Hb].
  split; [exact Hb|].
  apply AggregatorFacts.round4_unit.
  now apply AggregatorFacts.group_mean_unit.
Qed.

Lemma click_rates_within_range_witness :
  exists summary,
    calculate_click_rates Demo.six_users = Ok summary /\
    (forall g s, In (g, s) summary ->
       (0 <= clicks s <= count s)%Z /\ 0 <= ctr s <= 1).
Proof.
  apply (click_rates_within_range Demo.six_users).
  - discriminate.
  - intros r Hr. cbn in Hr.
    repeat (destruct Hr as [<-|Hr]; [cbn; auto|]). contradiction.
Defined.

End SummaryFacts.

(* ================================================================== *)
(** * More on the data generator *)
(* ================================================================== *)

Module GeneratorShape.

Import Frame Rand Generator Pipeline.

Lemma zeros_succ (k : nat) :
  String.concat "" (repeat "0"%string (S k))
  = String "0" (String.concat "" (repeat "0"%string k)).
Proof. destruct k; reflexivity. Qed.

Lemma read_digits_zero (s : string) :
  read_digits (String "0" s) = read_digits s.
Proof.
  unfold read_digits. cbn [NilEmpty.uint_of_string].
  destruct (NilEmpty.uint_of_string s) as [d|]; reflexivity.
Qed.

Lemma read_digits_padded (k : nat) (s : string) :
  read_digits (String.append (String.concat "" (repeat "0"%string k)) s)
  = read_digits s.
Proof.
  induction k as [|k IH]; [reflexivity|].
  rewrite zeros_succ. cbn [String.append]. now rewrite read_digits_zero.
Qed.

Lemma read_format_06d (i : nat) : read_digits (format_06d i) = Some i.
Proof.
  unfold format_06d. rewrite read_digits_padded.
  unfold read_digits, NilZero.string_of_uint.
  pose proof (DecimalNat.Unsigned.of_to i) as Hi.
  destruct (Nat.to_uint i) as [|u|u|u|u|u|u|u|u|u|u];
    try (rewrite NilEmpty.usu; cbn [option_map]; now rewrite Hi).
  cbn in Hi. subst i. reflexivity.
Qed.

Lemma format_06d_inj (i j : nat) : format_06d i = format_06d j -> i = j.
Proof.
  intros H. apply (f_equal read_digits) in H.
  rewrite !read_format_06d in H. now injection H.
Qed.

Lemma user_ids_nodup (n_users : Z) : NoDup (user_ids n_users).
Proof.
  unfold user_ids. generalize (seq_NoDup (Z.to_nat n_users) 0).
  generalize (seq 0 (Z.to_nat n_users)) as l.
  induction l as [|i l IH]; intros Hnd; cbn [map]; constructor.
  - inversion Hnd as [|? ? Hnot _]; subst. intros Hin.
    apply in_map_iff in Hin as [j [Hj Hin]].
    cbn [String.append] in Hj. injection Hj as Hj.
    apply format_06d_inj in Hj. subst j. contradiction.
  - apply IH. now inversion Hnd.
Qed.

Lemma make_frame_columns (ids : list string) (ts : list Z)
    (gs : list string) (cs : list Z) (df : dataframe) :
  make_frame ids ts gs cs = Ok df ->
  map user_id df = ids /\ map timestamp df = ts /\
  map group df = gs /\ map clicked df = cs.
Proof.
  revert ts gs cs df.
  induction ids as [|i ids IH]; intros [|t ts] [|g gs] [|c cs] df;
    cbn [make_frame]; try discriminate.
  - intros H. injection H as <-. auto.
  - destruct (make_frame ids ts gs cs) as [rest|e] eqn:E;
      cbn [Py.bind]; [|discriminate].
    intros H. injection H as <-.
    destruct (IH ts gs cs rest E) as [H1 [H2 [H3 H4]]].
    cbn [map user_id timestamp group clicked].
    now rewrite H1, H2, H3, H4.
Qed.

Section WithRandomLib.
Context {RL : RandomLib}.

(** The steps behind a table that [generate_ab_test_data] returned. *)
Lemma generate_steps (control_ctr treatment_ctr : Q) (n_users : Z)
    (g : rng) (df : dataframe) (g' : rng) :
  generate_ab_test_data control_ctr treatment_ctr n_users g = (Ok df, g') ->
  exists groups g1 clicks g2 timestamps,
    choice ["control"; "treatment"]%string n_users [1 # 2; 1 # 2] (seed 42)
    = (Ok groups, g1) /\
    draw_clicks control_ctr treatment_ctr groups g1 = (Ok clicks, g2) /\
    draw_timestamps (Z.to_nat n_users) g2 = (Ok timestamps, g') /\
    make_frame (user_ids n_users) timestamps groups clicks = Ok df.
Proof.
  unfold generate_ab_test_data, mbind, reseed, lift.
  destruct (choice _ n_users _ (seed 42)) as [[groups|e] g1]; [|discriminate].
  destruct (draw_clicks control_ctr treatment_ctr groups g1)
    as [[clicks|e] g2] eqn:Ec; [|discriminate].
  destruct (draw_timestamps (Z.to_nat n_users) g2)
    as [[timestamps|e] g3] eqn:Et; [|discriminate].
  intros H. injection H as Hf <-.
  exists groups, g1, clicks, g2, timestamps. auto.
Qed.

Lemma draw_clicks_bits (control_ctr treatment_ctr : Q) (groups : list string)
    (g : rng) (clicks : list Z) (g' : rng) :
  (forall n p g0 k g1, binomial n p g0 = (Ok k, g1) -> (0 <= k <= n)%Z) ->
  draw_clicks control_ctr treatment_ctr groups g = (Ok clicks, g') ->
  Forall (fun c => c = 0%Z \/ c = 1%Z) clicks.
Proof.
  intros Hbin. revert g clicks g'.
  induction groups as [|grp rest IH]; intros g clicks g'; cbn [draw_clicks].
  - unfold ret. intros H. injection H as <- _. constructor.
  - unfold mbind, ret.
    assert (Hstep : forall p,
              match binomial 1 p g with
              | (Ok a, g1) =>
                  match draw_clicks control_ctr treatment_ctr rest g1 with
                  | (Ok a0, g2) => (@Ok (list Z) (a :: a0), g2)
                  | (Raise e, g2) => (Raise e, g2)
                  end
              | (Raise e, g1) => (Raise e, g1)
              end = (Ok clicks, g') ->
              Forall (fun c => c = 0%Z \/ c = 1%Z) clicks).
    { intros p. destruct (binomial 1 p g) as [[k|e] g1] eqn:Ek;
        [|intros H0; discriminate H0].
      destruct (draw_clicks control_ctr treatment_ctr rest g1)
        as [[ks|e] g2] eqn:Er; [|intros H0; discriminate H0].
      intros H. injection H as <- <-. constructor; [|eapply IH, Er].
      apply Hbin in Ek. lia. }
    destruct (String.eqb grp "control"); apply Hstep.
Qed.

Lemma draw_timestamps_week (n : nat) (g : rng) (ts : list Z) (g' : rng) :
  (forall lo hi g0 v g1, randint lo hi g0 = (Ok v, g1) -> (lo <= v < hi)%Z) ->
  draw_timestamps n g = (Ok ts, g') ->
  Forall (fun t => (0 <= t / 24 < 7 /\ 0 <= t mod 24 < 24)%Z) ts.
Proof.
  intros Hrand. revert g ts g'.
  induction n as [|n IH]; intros g ts g'; cbn [draw_timestamps].
  - unfold ret. intros H. injection H as <- _. constructor.
  - unfold mbind, ret.
    destruct (randint 0 7 g) as [[d|e] g1] eqn:Ed; [|intros H0; discriminate H0].
    destruct (randint 0 24 g1) as [[h|e] g2] eqn:Eh; [|intros H0; discriminate H0].
    destruct (draw_timestamps n g2) as [[rest|e] g3] eqn:Er; [|intros H0; discriminate H0].
    apply Hrand in Ed, Eh.
    assert (Hts : (0 <= (24 * d + h) / 24 < 7
                   /\ 0 <= (24 * d + h) mod 24 < 24)%Z).
    { assert (Hdiv : ((24 * d + h) / 24 = d)%Z).
      { rewrite Z.mul_comm, Z.div_add_l by lia. rewrite Z.div_small; lia. }
      assert (Hmod : ((24 * d + h) mod 24 = h)%Z).
      { rewrite Z.add_comm, Z.mul_comm, Z.mod_add by lia.
        apply Z.mod_small. lia. }
      rewrite Hdiv, Hmod. lia. }
    intros H. injection H as <- <-.
    constructor; [exact Hts | eapply IH, Er].
Qed.

End WithRandomLib.

(** The sample generator keeps the ranges of its draws. *)
Lemma bernoulli_sum_bounds (n : nat) (p : Q) (s : Z) :
  (0 <= fst (Demo.bernoulli_sum n p s) <= Z.of_nat n)%Z.
Proof.
  revert s. induction n as [|n IH]; intros s; [cbn; lia|].
  cbn [Demo.bernoulli_sum]. destruct (Demo.uniform s) as [u s'].
  specialize (IH s'). destruct (Demo.bernoulli_sum n p s') as [k s''].
  cbn [fst] in *. destruct (Qlt_bool u p); lia.
Qed.

Lemma lcg_binomial_range (n : Z) (p : Q) (g : Z) (k : Z) (g' : Z) :
  Demo.lcg_binomial n p g = (Ok k, g') -> (0 <= k <= n)%Z.
Proof.
  unfold Demo.lcg_binomial.
  destruct (Z.ltb_spec n 0) as [|Hn]; [intros H0; discriminate H0|].
  cbn [orb].
  destruct (Qlt_bool p 0); cbn [orb]; [intros H0; discriminate H0|].
  destruct (Qlt_bool 1 p); [intros H0; discriminate H0|].
  pose proof (bernoulli_sum_bounds (Z.to_nat n) p g) as Hb.
  destruct (Demo.bernoulli_sum (Z.to_nat n) p g) as [k0 s'].
  intros H. injection H as <- _. cbn [fst] in Hb. lia.
Qed.

Lemma lcg_randint_range (lo hi : Z) (g : Z) (v : Z) (g' : Z) :
  Demo.lcg_randint lo hi g = (Ok v, g') -> (lo <= v < hi)%Z.
Proof.
  unfold Demo.lcg_randint.
  destruct (Z.leb_spec hi lo) as [|Hlt]; [intros H0; discriminate H0|].
  intros H. injection H as <- _.
  pose proof (Z.mod_pos_bound (Demo.lcg_next g) (hi - lo)). lia.
Qed.

Lemma pick_in (labels : list string) (probs : list Q) (u : Q) (l : string) :
  Demo.pick labels probs u = Some l -> In l labels.
Proof.
  revert probs u. induction labels as [|x labels IH]; intros probs u;
    cbn [Demo.pick]; [discriminate|].
  destruct labels as [|y labels'].
  - intros H. injection H as <-. now left.
  - destruct probs as [|p probs]; [discriminate|].
    destruct (Qlt_bool u p).
    + intros H. injection H as <-. now left.
    + intros H. right. eapply IH, H.
Qed.

Lemma lcg_choice_in (labels : list string) (n : Z) (probs : list Q) (g : Z)
    (ls : list string) (g' : Z) :
  Demo.lcg_choice labels n probs g = (Ok ls, g') ->
  Forall (fun l => In l labels) ls.
Proof.
  unfold Demo.lcg_choice. destruct (n <? 0)%Z; [intros H0; discriminate H0|].
  generalize (Z.to_nat n) as k. intros k.
  destruct (Demo.lcg_choices labels probs k g) as [[ls0|] s'] eqn:E;
    [|discriminate].
  intros H. injection H as <- _.
  revert g ls0 s' E. induction k as [|k IH]; intros g ls0 s';
    cbn [Demo.lcg_choices].
  - intros H. injection H as <- _. constructor.
  - destruct (Demo.uniform g) as [u s1].
    destruct (Demo.pick labels probs u) as [l|] eqn:Ep.
    + destruct (Demo.lcg_choices labels probs k s1) as [[rest|] s2] eqn:Er;
        [|discriminate].
      intros H. injection H as <- _. constructor.
      * eapply pick_in, Ep.
      * eapply IH, Er.
    + destruct (Demo.lcg_choices labels probs k s1) as [o s2]. discriminate.
Qed.

(** X11: a table that [generate_ab_test_data] returns has [n_users]
    records, in the order of the user ids [user_000000], [user_000001],
    ..., and no two records share a user id. *)
Theorem generated_user_ids_distinct
    {RL : RandomLib} (control_ctr treatment_ctr : Q) (n_users : Z)
    (g : rng) (df : dataframe) (g' : rng) :
  generate_ab_test_data control_ctr treatment_ctr n_users g = (Ok df, g') ->
  List.length df = Z.to_nat n_users /\
  map user_id df = user_ids n_users /\
  NoDup (map user_id df).
Proof.
  intros H.
  apply generate_steps in H as [gs [g1 [cs [g2 [ts [_ [_ [_ Hf]]]]]]]].
  apply make_frame_columns in Hf as [Hid _].
  split; [|split].
  - rewrite <- (length_map user_id), Hid. unfold user_ids.
    now rewrite length_map, length_seq.
  - exact Hid.
  - rewrite Hid. apply user_ids_nodup.
Qed.

Lemma generated_user_ids_distinct_witness :
  List.length Samples.five_generated = Z.to_nat 5 /\
  map user_id Samples.five_generated = user_ids 5 /\
  NoDup (map user_id Samples.five_generated).
Proof.
  apply (generated_user_ids_distinct (RL := Demo.lcg_random)
           (8 # 100) (105 # 1000) 5 2024%Z Samples.five_generated
           1440974758%Z).
  vm_compute. reflexivity.
Defined.

(** X12: when the draws of the generator keep their ranges (a binomial
    count between 0 and its number of trials, [randint] between its
    bounds, [choice] among the labels it is given), every record of the
    generated table is in the control or the treatment group, has
    [clicked] 0 or 1, and a timestamp in the seven days from the start
    date; the ['date'] and ['hour'] columns that [save_data] adds are the
    day (0 to 6) and the hour (0 to 23) that were drawn. *)
Theorem generated_records_well_formed
    {RL : RandomLib} (control_ctr treatment_ctr : Q) (n_users : Z)
    (g : rng) (df : dataframe) (g' : rng) :
  (forall n p g0 k g1, binomial n p g0 = (Ok k, g1) -> (0 <= k <= n)%Z) ->
  (forall lo hi g0 v g1, randint lo hi g0 = (Ok v, g1) -> (lo <= v < hi)%Z) ->
  (forall labels n probs g0 ls g1,
     choice labels n probs g0 = (Ok ls, g1) ->
     Forall (fun l => In l labels) ls) ->
  generate_ab_test_data control_ctr treatment_ctr n_users g = (Ok df, g') ->
  Forall (fun r =>
            (group r = "control"%string \/ group r = "treatment"%string) /\
            (clicked r = 0%Z \/ clicked r = 1%Z) /\
            (0 <= timestamp r < 168)%Z) df /\
  Forall (fun p =>
            (0 <= date p < 7)%Z /\ (0 <= hour p < 24)%Z /\
            timestamp (raw p) = (24 * date p + hour p)%Z) (save_data df).
Proof.
  intros Hbin Hrand Hchoice H.
  apply generate_steps in H as [gs [g1 [cs [g2 [ts [Hc [Hk [Ht Hf]]]]]]]].
  apply Hchoice in Hc.
  apply (draw_clicks_bits _ _ _ _ _ _ Hbin) in Hk.
  apply (draw_timestamps_week _ _ _ _ Hrand) in Ht.
  apply make_frame_columns in Hf as [_ [Hts [Hgs Hcs]]].
  subst ts gs cs.
  rewrite Forall_forall in Hc, Hk, Ht.
  assert (Hrow : forall r, In r df ->
            (0 <= timestamp r / 24 < 7 /\ 0 <= timestamp r mod 24 < 24)%Z).
  { intros r Hr. apply Ht. now apply in_map. }
  split.
  - apply Forall_forall. intros r Hr. split; [|split].
    + specialize (Hc (group r) (in_map group df r Hr)).
      cbn [In] in Hc. intuition congruence.
    + apply Hk. now apply in_map.
    + specialize (Hrow r Hr).
      pose proof (Z.div_mod (timestamp r) 24). lia.
  - unfold save_data. apply Forall_forall. intros p Hp.
    apply in_map_iff in Hp as [r [<- Hr]]. cbn [date hour raw].
    specialize (Hrow r Hr).
    pose proof (Z.div_mod (timestamp r) 24). lia.
Qed.

Lemma generated_records_well_formed_witness :
  Forall (fun r =>
            (group r = "control"%string \/ group r = "treatment"%string) /\
            (clicked r = 0%Z \/ clicked r = 1%Z) /\
            (0 <= timestamp r < 168)%Z) Samples.five_generated /\
  Forall (fun p =>
            (0 <= date p < 7)%Z /\ (0 <= hour p < 24)%Z /\
            timestamp (raw p) = (24 * date p + hour p)%Z)
         (save_data Samples.five_generated).
Proof.
  apply (generated_records_well_formed (RL := Demo.lcg_random)
           (8 # 100) (105 # 1000) 5 2024%Z Samples.five_generated
           1440974758%Z).
  - exact lcg_binomial_range.
  - exact lcg_randint_range.
  - exact lcg_choice_in.
  - vm_compute. reflexivity.
Defined.

End GeneratorShape.

(* ================================================================== *)
(** * comprehensive_analysis *)
(* ================================================================== *)

Module PipelineFacts.

Import Scipy Frame Rand ABTest Pipeline.

Section WithLibs.
Context {FL : FloatLib} {RL : RandomLib}.

Lemma loc_ctr_missing (summary : list (string * group_summary)) (l : string) :
  ~ In l (map fst summary) -> loc_ctr summary l = Raise KeyError.
Proof.
  induction summary as [|[l0 s] rest IH]; intros Hnot; [reflexivity|].
  cbn [loc_ctr]. destruct (String.eqb_spec l0 l) as [->|Hne].
  - exfalso. apply Hnot. now left.
  - apply IH. intros Hin. apply Hnot. now right.
Qed.

Lemma loc_ctr_present (summary : list (string * group_summary)) (l : string) :
  In l (map fst summary) ->
  exists s, In (l, s) summary /\ loc_ctr summary l = Ok (ctr s).
Proof.
  induction summary as [|[l0 s] rest IH]; intros Hin; [contradiction|].
  cbn [loc_ctr]. destruct (String.eqb_spec l0 l) as [->|Hne].
  - exists s. split; [now left | reflexivity].
  - destruct Hin as [E|Hin]; [contradiction|].
    destruct (IH Hin) as [s' [H1 H2]]. exists s'. split; [now right | exact H2].
Qed.

Lemma summary_labels (df : dataframe) (summary : list (string * group_summary)) :
  calculate_click_rates df = Ok summary ->
  forall l, In l (map fst summary) <-> In l (map group df).
Proof.
  unfold calculate_click_rates. intros H. injection H as <-. intros l.
  rewrite map_map. cbn [fst]. rewrite map_id.
  rewrite AggregatorFacts.group_labels_in, in_map_iff.
  split; intros [r [H1 H2]]; exists r; tauto.
Qed.

End WithLibs.

(** X13: on a table with records but without a control record, or
    without a treatment record, [comprehensive_analysis] ends in
    [KeyError] at the lookup of the group's rate: the summary, the
    chi-square test and the interval before it all go through, and no
    simulation has drawn from the generator. *)
Theorem comprehensive_analysis_missing_group
    {FL : FloatLib} {RL : RandomLib} (df : dataframe) (g : rng) :
  df <> [] ->
  ~ In "control"%string (map group df) \/
  ~ In "treatment"%string (map group df) ->
  comprehensive_analysis df g = (Raise KeyError, g).
Proof.
  intros Hne Hmiss. unfold comprehensive_analysis, mbind, lift.
  destruct (calculate_click_rates df) as [summary|e] eqn:Es;
    [|discriminate Es].
  destruct (CrosstabFacts.chi_square_test_nonempty df Hne)
    as [r [s [p [Hr _]]]].
  rewrite Hr.
  destruct (EngineFacts.cci_numpy_clicks
              (sumZ (clicked_of df "control"))
              (Z.of_nat (List.length (clicked_of df "control")))
              (sumZ (clicked_of df "treatment"))
              (Z.of_nat (List.length (clicked_of df "treatment")))
              (5 # 100)) as [ci Hci].
  assert (Ed : clicked_dtype df = int64)
    by (destruct df; [contradiction | reflexivity]).
  unfold confidence_interval_of, confidence_interval_as.
  rewrite Ed. cbn [sum_kind]. unfold np_int in Hci. rewrite Hci.
  pose proof (summary_labels df summary Es) as Hl.
  destruct (in_dec string_dec "control"%string (map fst summary)) as [Hc|Hc].
  - destruct (loc_ctr_present summary _ Hc) as [sc [_ Ec]]. rewrite Ec.
    rewrite loc_ctr_missing; [reflexivity|].
    intros Ht. destruct Hmiss as [Hm|Hm]; apply Hm; now apply Hl.
  - now rewrite loc_ctr_missing.
Qed.

Lemma comprehensive_analysis_missing_group_witness :
  comprehensive_analysis (FL := Demo.table_float) (RL := Demo.lcg_random)
    Demo.control_only 7%Z
  = (Raise KeyError, 7%Z).
Proof.
  apply (comprehensive_analysis_missing_group
           (FL := Demo.table_float) (RL := Demo.lcg_random)
           Demo.control_only 7%Z).
  - discriminate.
  - right. cbn. intros [H|[H|[]]]; discriminate H.
Defined.

(** X14: whenever [comprehensive_analysis] returns, the table holds
    records of both groups; the sample sizes it reports are the two
    group sizes, both positive and the counts of the summary; the power
    estimate rests on 5000 simulations, and the effect size is the one
    of the two rates of the summary. *)
Theorem comprehensive_analysis_results
    {FL : FloatLib} {RL : RandomLib} (df : dataframe) (g : rng) :
  match fst (comprehensive_analysis df g) with
  | Raise _ => True
  | Ok res =>
      calculate_click_rates df = Ok (r_click_rates res) /\
      exists sc st,
        In ("control"%string, sc) (r_click_rates res) /\
        In ("treatment"%string, st) (r_click_rates res) /\
        r_sample_sizes res = (count sc, count st) /\
        (1 <= count sc)%Z /\ (1 <= count st)%Z /\
        n_simulations (r_power_analysis res) = 5000%Z /\
        r_effect_size res = calculate_effect_size (ctr sc) (ctr st)
  end.
Proof.
  unfold comprehensive_analysis, mbind, lift, ret.
  destruct (calculate_click_rates df) as [summary|e] eqn:Es; [|exact I].
  destruct (chi_square_test df) as [chi|e]; [|exact I].
  destruct (confidence_interval_of df) as [ci|e]; [|exact I].
  destruct (loc_ctr summary "control") as [cc|e] eqn:Ec; [|exact I].
  destruct (loc_ctr summary "treatment") as [tc|e] eqn:Et; [|exact I].
  destruct (manual_power_analysis cc tc
              (Z.min (Z.of_nat (List.length (clicked_of df "control")))
                     (Z.of_nat (List.length (clicked_of df "treatment"))))
              (5 # 100) 5000 g) as [[pw|e] g1] eqn:Ep; [|exact I].
  cbn [fst r_click_rates r_sample_sizes r_power_analysis r_effect_size].
  split; [reflexivity|].
  assert (Hc : In "control"%string (map fst summary)).
  { destruct (in_dec string_dec "control"%string (map fst summary)); [assumption|].
    rewrite loc_ctr_missing in Ec by assumption. discriminate Ec. }
  assert (Ht : In "treatment"%string (map fst summary)).
  { destruct (in_dec string_dec "treatment"%string (map fst summary)); [assumption|].
    rewrite loc_ctr_missing in Et by assumption. discriminate Et. }
  destruct (loc_ctr_present summary _ Hc) as [sc [Hsc Esc]].
  destruct (loc_ctr_present summary _ Ht) as [st [Hst Est]].
  rewrite Ec in Esc. rewrite Et in Est.
  injection Esc as ->. injection Est as ->.
  exists sc, st. split; [exact Hsc|]. split; [exact Hst|].
  assert (Hline : forall l s, In (l, s) summary ->
            count s = Z.of_nat (List.length (clicked_of df l))
            /\ (1 <= count s)%Z).
  { unfold calculate_click_rates in Es. injection Es as <-.
    intros l s Hin. apply in_map_iff in Hin as [l' [Heq Hl']].
    injection Heq as Hl1 Hs1. subst l s. cbn [count]. split; [reflexivity|].
    apply AggregatorFacts.group_labels_in in Hl' as [r [Hr Hgr]].
    unfold clicked_of. rewrite length_map.
    assert (Hf : In r (filter (fun r0 => String.eqb (group r0) l') df)).
    { apply filter_In. split; [exact Hr|]. now apply String.eqb_eq. }
    destruct (filter _ df); [contradiction | cbn [List.length]; lia]. }
  destruct (Hline _ _ Hsc) as [Nc Pc]. destruct (Hline _ _ Hst) as [Nt Pt].
  rewrite Nc, Nt. split; [reflexivity|].
  rewrite <- Nc, <- Nt. split; [exact Pc|]. split; [exact Pt|].
  split; [|reflexivity].
  unfold manual_power_analysis, mbind, lift, ret in Ep.
  destruct (simulation_loop _ _ _ _ _ _ g) as [[k|e] g2];
    [|discriminate Ep].
  destruct (sdiv (py_int k) (py_int 5000)) as [q|e]; [|discriminate Ep].
  injection Ep as <- _. reflexivity.
Qed.

End PipelineFacts.

(* ================================================================== *)
(** * The script runner of the user-behaviour project *)
(* ================================================================== *)

Module RunnerFacts.

Import Runner.

(** X15: [main.py] launches the scripts in order and stops at the first
    one that fails.  Either every script of the list succeeded, each in
    the world the one before had left, all were launched and the closing
    notice is the success banner; or the list splits into the scripts
    before the failing one, which succeeded in turn, the failing one,
    which is the last one launched and the one named in the notice, and
    the rest, which was never launched.  The world is left as the last
    launched script left it. *)
Theorem run_all_stops_at_first_failure
    (world : Type) (run_script : string -> world -> bool * world)
    (scripts : list string) (w : world) :
  let '(launched, n, w') := run_all run_script scripts w in
  (succeed_in_turn run_script scripts w w' /\
   launched = scripts /\ n = AllCompleted) \/
  (exists before failing rest w1,
     scripts = before ++ failing :: rest /\
     succeed_in_turn run_script before w w1 /\
     run_script failing w1 = (false, w') /\
     launched = before ++ [failing] /\
     n = Stopping failing).
Proof.
  revert w. induction scripts as [|s rest IH]; intros w; cbn [run_all].
  - left. split; [constructor | auto].
  - destruct (run_script s w) as [[|] w1] eqn:Es.
    + specialize (IH w1).
      destruct (run_all run_script rest w1) as [[l n] w2] eqn:E.
      destruct IH as [[Hall [-> ->]]
                     |[before [failing [rest' [w3 [H1 [H2 [H3 [H4 H5]]]]]]]]].
      * left. split; [econstructor; eassumption | auto].
      * right. exists (s :: before), failing, rest', w3.
        subst. cbn [app]. split; [reflexivity|].
        split; [econstructor; eassumption | auto].
    + right. exists [], s, rest, w. cbn [app].
      split; [reflexivity|]. split; [constructor | auto].
Qed.

(** In a world where the cleaner fails, the analyzer is never launched. *)
Example cleaner_failure_stops_the_run :
  run_all Samples.cleaner_fails scripts []
  = (["data_generator.py"; "data_cleaner.py"]%string,
     Stopping "data_cleaner.py",
     ["data_cleaner.py"; "data_generator.py"]%string).
Proof. reflexivity. Qed.

End RunnerFacts.

(* ================================================================== *)
(** * analyze_user_activity *)
(* ================================================================== *)

Module ActivityFacts.

Import Frame Analyzer.

Lemma insert_uniq_increasing (y : Z) (l : list Z) :
  StronglySorted Z.lt l -> StronglySorted Z.lt (insert_uniq Z.compare y l).
Proof.
  induction 1 as [|z l Hs IH Hz]; cbn [insert_uniq].
  - repeat constructor.
  - destruct (Z.compare_spec y z) as [E|E|E].
    + now constructor.
    + constructor; [now constructor|].
      constructor; [exact E|].
      eapply Forall_impl; [|exact Hz]. cbv beta. intros; lia.
    + constructor; [exact IH|].
      apply Forall_forall. intros w Hw.
      rewrite (CrosstabFacts.insert_uniq_mem Z.compare Z.compare_eq) in Hw.
      destruct Hw as [->|Hw]; [exact E|].
      rewrite Forall_forall in Hz. now apply Hz.
Qed.

Lemma sorted_unique_increasing (l : list Z) :
  StronglySorted Z.lt (sorted_unique Z.compare l).
Proof.
  induction l as [|x l IH]; cbn; [constructor|].
  now apply insert_uniq_increasing.
Qed.

(** [idxmax] picks the first of the largest values. *)
Lemma idxmax_from_first_max (best : Z * Z) (s : list (Z * Z)) :
  exists pre v post,
    best :: s = pre ++ (idxmax_from best s, v) :: post /\
    Forall (fun x => (snd x < v)%Z) pre /\
    Forall (fun x => (snd x <= v)%Z) post.
Proof.
  revert best. induction s as [|[h v'] rest IH]; intros best.
  - exists [], (snd best), []. cbn [idxmax_from app].
    destruct best; cbn. repeat constructor.
  - cbn [idxmax_from snd]. destruct (Z.ltb_spec (snd best) v') as [Hlt|Hge].
    + destruct (IH (h, v')) as [pre [v [post [E [Hpre Hpost]]]]].
      assert (Hv : (v' <= v)%Z).
      { destruct pre as [|x pre'].
        - cbn [app] in E. injection E as _ <-. lia.
        - cbn [app] in E. injection E as <- _.
          inversion Hpre; subst. cbn [snd] in *. lia. }
      exists (best :: pre), v, post. cbn [app]. rewrite <- E.
      split; [reflexivity|]. split; [|exact Hpost].
      constructor; [lia | exact Hpre].
    + destruct (IH best) as [pre [v [post [E [Hpre Hpost]]]]].
      destruct pre as [|x pre'].
      * cbn [app] in E. injection E as Eb Er.
        exists [], v, ((h, v') :: post). cbn [app].
        assert (Hbv : snd best = v) by (rewrite Eb; reflexivity).
        split; [now rewrite <- Eb, Er|]. split; [constructor|].
        constructor; [cbn [snd]; lia | exact Hpost].
      * cbn [app] in E. injection E as <- E'.
        exists (best :: (h, v') :: pre'), v, post. cbn [app].
        split; [do 2 f_equal; exact E'|]. split; [|exact Hpost].
        inversion Hpre as [|? ? Hb Hpre']; subst.
        constructor; [exact Hb|]. constructor; [cbn [snd]; lia | exact Hpre'].
Qed.

Section Activity.
Variable record : Type.
Variable date : record -> string.
Variable hour : record -> Z.
Variable user_id : record -> string.

(** The number of records of one hour. *)
Let events_at (df : list record) (h : Z) : Z :=
  Z.of_nat (List.length (filter (fun r => Z.eqb (hour r) h) df)).

Lemma hourly_activity_keys (df : list record) :
  map fst (hourly_activity hour df) = sorted_unique Z.compare (map hour df).
Proof.
  unfold hourly_activity. rewrite map_map. cbn [fst]. apply map_id.
Qed.

Lemma hourly_activity_in (df : list record) (h v : Z) :
  In (h, v) (hourly_activity hour df) ->
  v = events_at df h /\ exists r, In r df /\ hour r = h.
Proof.
  unfold hourly_activity. intros Hin.
  apply in_map_iff in Hin as [h' [Heq Hh]]. injection Heq as -> <-.
  split; [reflexivity|].
  rewrite (CrosstabFacts.sorted_unique_mem Z.compare Z.compare_eq) in Hh.
  apply in_map_iff in Hh as [r [Hr Hin]]. now exists r.
Qed.

Lemma hourly_activity_has (df : list record) (r : record) :
  In r df -> In (hour r, events_at df (hour r)) (hourly_activity hour df).
Proof.
  intros Hr. unfold hourly_activity.
  apply (in_map (fun h => (h, Z.of_nat (List.length
                                (filter (fun r0 => Z.eqb (hour r0) h) df))))).
  rewrite (CrosstabFacts.sorted_unique_mem Z.compare Z.compare_eq).
  now apply in_map.
Qed.

(** The bar chart of a table with at least one record has a bar to
    draw. *)
Lemma plot_bar_some (df : list record) :
  df <> [] -> plot_bar (hourly_activity hour df) = Ok tt.
Proof.
  intros Hne. destruct (hourly_activity hour df) eqn:Eh; [|reflexivity].
  exfalso. destruct df as [|r0 df']; [contradiction|].
  pose proof (hourly_activity_has (r0 :: df') r0 (or_introl eq_refl)) as H.
  rewrite Eh in H. contradiction.
Qed.

(** The peak hour of a table with at least one record. *)
Lemma peak_hour_spec (df : list record) :
  df <> [] ->
  exists peak,
    idxmax (hourly_activity hour df) = Ok peak /\
    (exists r, In r df /\ hour r = peak) /\
    (forall r, In r df ->
       (events_at df (hour r) <= events_at df peak)%Z /\
       (events_at df (hour r) = events_at df peak -> peak <= hour r)%Z).
Proof.
  intros Hne.
  destruct (hourly_activity hour df) as [|first rest] eqn:Eh.
  { exfalso. destruct df as [|r0 df']; [contradiction|].
    pose proof (hourly_activity_has (r0 :: df') r0 (or_introl eq_refl)) as H.
    rewrite Eh in H. contradiction. }
  cbn [idxmax]. eexists. split; [reflexivity|].
  destruct (idxmax_from_first_max first rest) as [pre [v [post [E [Hpre Hpost]]]]].
  set (peak := idxmax_from first rest) in *.
  assert (Hpk : In (peak, v) (hourly_activity hour df)).
  { rewrite Eh, E. apply in_or_app. right. now left. }
  destruct (hourly_activity_in df peak v Hpk) as [Hv Hex].
  split; [exact Hex|].
  pose proof (sorted_unique_increasing (map hour df)) as Hsorted.
  rewrite <- hourly_activity_keys, Eh, E, map_app in Hsorted.
  cbn [map fst] in Hsorted.
  intros r Hr.
  pose proof (hourly_activity_has df r Hr) as Hin.
  rewrite Eh, E in Hin. rewrite Forall_forall in Hpre, Hpost.
  apply in_app_or in Hin as [Hin|[Hin|Hin]].
  - specialize (Hpre _ Hin). cbn [snd] in Hpre. split; lia.
  - injection Hin as Hk Hc. split; lia.
  - specialize (Hpost _ Hin). cbn [snd] in Hpost. split; [lia|].
    intros _.
    assert (Hlt : (peak < hour r)%Z).
    { clear - Hsorted Hin. induction pre as [|x pre IH].
      - cbn [app] in Hsorted. inversion Hsorted as [|? ? _ Hall]; subst.
        rewrite Forall_forall in Hall. apply Hall.
        apply (in_map fst) in Hin. exact Hin.
      - cbn [map app] in Hsorted. inversion Hsorted; subst. now apply IH. }
    lia.
Qed.

(** The users of the records of one date are users of the table. *)
Lemma nunique_of_date (df : list record) (d : string) :
  In d (map date df) ->
  (1 <= nunique (map user_id (filter (fun r => String.eqb (date r) d) df))
   <= nunique (map user_id df))%Z.
Proof.
  intros Hd. unfold nunique. split.
  - apply in_map_iff in Hd as [r [Hr Hin]].
    assert (Hu : In (user_id r)
                   (nodup string_dec
                      (map user_id (filter (fun r0 => String.eqb (date r0) d) df)))).
    { apply nodup_In. apply in_map. apply filter_In.
      split; [exact Hin|]. now apply String.eqb_eq. }
    destruct (nodup string_dec _); [contradiction | cbn [List.length]; lia].
  - apply inj_le. apply NoDup_incl_length; [apply NoDup_nodup|].
    intros u Hu. apply nodup_In. apply nodup_In in Hu.
    apply in_map_iff in Hu as [r [<- Hr]]. apply filter_In in Hr as [Hr _].
    now apply in_map.
Qed.

Lemma mean_bounds (values : list Z) (lo hi : Z) :
  values <> [] ->
  Forall (fun v => (lo <= v <= hi)%Z) values ->
  exists q, mean values = Fin q /\ inject_Z lo <= q <= inject_Z hi.
Proof.
  intros Hne Hall.
  assert (Hsum : (lo * Z.of_nat (List.length values) <= Scipy.sumZ values
                  <= hi * Z.of_nat (List.length values))%Z).
  { clear Hne. induction Hall as [|v l Hv Hl IH]; [cbn; lia|].
    cbn [Scipy.sumZ fold_right List.length]. fold (Scipy.sumZ l). nia. }
  destruct values as [|v0 rest]; [contradiction|].
  unfold mean. eexists. split; [reflexivity|].
  set (l := v0 :: rest) in *.
  assert (Hn : (0 < Z.of_nat (List.length l))%Z) by (subst l; cbn; lia).
  pose proof (inject_Z_pos _ Hn) as Hq.
  split.
  - apply Qle_shift_div_l; [exact Hq|].
    rewrite <- inject_Z_mult, <- Zle_Qle. lia.
  - apply Qle_shift_div_r; [exact Hq|].
    rewrite <- inject_Z_mult, <- Zle_Qle. lia.
Qed.

End Activity.

(** X16: on a cleaned table with at least one record
    [analyze_user_activity] reports as peak hour an hour of the table
    with the most records, and among the hours with as many records the
    earliest. *)
Theorem peak_hour_is_first_busiest
    (record : Type) (date : record -> string) (hour : record -> Z)
    (user_id : record -> string) (df : list record) :
  df <> [] ->
  let events_at h :=
    Z.of_nat (List.length (filter (fun r => Z.eqb (hour r) h) df)) in
  exists a,
    analyze_user_activity date hour user_id df = Ok a /\
    (exists r, In r df /\ hour r = peak_hour a) /\
    (forall r, In r df ->
       (events_at (hour r) <= events_at (peak_hour a))%Z /\
       (events_at (hour r) = events_at (peak_hour a) ->
        peak_hour a <= hour r)%Z).
Proof.
  intros Hne events_at.
  destruct (peak_hour_spec record hour df Hne) as [peak [Hp [Hex Hmax]]].
  unfold analyze_user_activity.
  rewrite (plot_bar_some record hour df Hne), Hp. cbn [Py.bind].
  eexists. split; [reflexivity|]. cbn [peak_hour]. split; [exact Hex|exact Hmax].
Qed.

Lemma peak_hour_is_first_busiest_witness :
  let events_at h :=
    Z.of_nat (List.length
      (filter (fun r => Z.eqb (Samples.event_hour r) h) Samples.six_events)) in
  exists a,
    analyze_user_activity Samples.event_date Samples.event_hour Demo.ev_user
      Samples.six_events = Ok a /\
    (exists r, In r Samples.six_events /\ Samples.event_hour r = peak_hour a) /\
    (forall r, In r Samples.six_events ->
       (events_at (Samples.event_hour r) <= events_at (peak_hour a))%Z /\
       (events_at (Samples.event_hour r) = events_at (peak_hour a) ->
        peak_hour a <= Samples.event_hour r)%Z).
Proof.
  apply (peak_hour_is_first_busiest Demo.event Samples.event_date
           Samples.event_hour Demo.ev_user Samples.six_events).
  discriminate.
Defined.

(** X17: on a cleaned table with at least one record the average of the
    daily active users that [analyze_user_activity] reports is a number
    between 1 and the number of distinct users of the table. *)
Theorem avg_dau_within_bounds
    (record : Type) (date : record -> string) (hour : record -> Z)
    (user_id : record -> string) (df : list record) :
  df <> [] ->
  exists a q,
    analyze_user_activity date hour user_id df = Ok a /\
    avg_dau a = Fin q /\
    1 <= q <= inject_Z (nunique (map user_id df)).
Proof.
  intros Hne.
  destruct (peak_hour_spec record hour df Hne) as [peak [Hp _]].
  unfold analyze_user_activity.
  rewrite (plot_bar_some record hour df Hne), Hp. cbn [Py.bind].
  destruct (mean_bounds (map snd (dau date user_id df)) 1
              (nunique (map user_id df))) as [q [Hq Hb]].
  - unfold dau. rewrite map_map. cbn [snd].
    destruct df as [|r0 df']; [contradiction|].
    assert (Hin : In (date r0)
                    (sorted_unique String.compare (map date (r0 :: df')))).
    { rewrite (CrosstabFacts.sorted_unique_mem String.compare
                 String.compare_eq_iff). now left. }
    destruct (sorted_unique String.compare (map date (r0 :: df')));
      [contradiction | discriminate].
  - unfold dau. rewrite map_map. cbn [snd].
    apply Forall_forall. intros v Hv.
    apply in_map_iff in Hv as [d [<- Hd]].
    rewrite (CrosstabFacts.sorted_unique_mem String.compare
               String.compare_eq_iff) in Hd.
    now apply nunique_of_date.
  - eexists. exists q. split; [reflexivity|]. cbn [avg_dau].
    split; [exact Hq | exact Hb].
Qed.

Lemma avg_dau_within_bounds_witness :
  exists a q,
    analyze_user_activity Samples.event_date Samples.event_hour Demo.ev_user
      Samples.six_events = Ok a /\
    avg_dau a = Fin q /\
    1 <= q <= inject_Z (nunique (map Demo.ev_user Samples.six_events)).
Proof.
  apply (avg_dau_within_bounds Demo.event Samples.event_date
           Samples.event_hour Demo.ev_user Samples.six_events).
  discriminate.
Defined.

(** On a table without records the bar chart of the hours fails before
    anything is returned. *)
Example activity_of_no_event :
  analyze_user_activity Samples.event_date Samples.event_hour Demo.ev_user []
  = Raise IndexError.
Proof. reflexivity. Qed.

Example activity_of_six_events :
  analyze_user_activity Samples.event_date Samples.event_hour Demo.ev_user
    Samples.six_events
  = Ok (UserActivity (Fin (inject_Z 4 / inject_Z 2)) 9).
Proof. reflexivity. Qed.

End ActivityFacts.

(* ================================================================== *)
(** * The table of a simulated trial, and duplicates in the cleaner *)
(* ================================================================== *)

Module TrialTableFacts.

Import Scipy ABTest.

(** X18: the table [manual_power_analysis] builds in a trial, from two
    draws between 0 and [sample_size], is refused by the chi-square test
    exactly when the sample size is positive and both groups drew no
    success or both drew nothing but successes, and [ValueError] is the
    only way it is refused; a table that is accepted has one degree of
    freedom.  With [sample_size = 0] the table of four zeros is accepted:
    its p-value is [nan], below no [alpha], so the trial does not count
    as detected. *)
Theorem trial_table_refused_iff
    {FL : FloatLib} (sample_size control_clicks treatment_clicks : Z) :
  (0 <= control_clicks <= sample_size)%Z ->
  (0 <= treatment_clicks <= sample_size)%Z ->
  let contingency_table :=
    [[control_clicks; (sample_size - control_clicks)%Z];
     [treatment_clicks; (sample_size - treatment_clicks)%Z]] in
  let same_everywhere :=
    (control_clicks = 0%Z /\ treatment_clicks = 0%Z) \/
    (control_clicks = sample_size /\ treatment_clicks = sample_size) in
  (fails (chi2_contingency contingency_table) <->
   (0 < sample_size)%Z /\ same_everywhere) /\
  (forall e, chi2_contingency contingency_table = Raise e -> e = ValueError) /\
  (forall r, chi2_contingency contingency_table = Ok r ->
     degrees_of_freedom r = 1%Z /\
     (sample_size = 0%Z ->
      p_value r = NaN /\ forall alpha, fltb (p_value r) (Fin alpha) = false)).
Proof.
  intros Hc Ht. cbv zeta.
  destruct (Z.eq_dec sample_size 0) as [E0|Hn0].
  - assert (control_clicks = 0%Z) by lia. assert (treatment_clicks = 0%Z) by lia.
    subst. cbn [Z.sub Z.opp Z.add]. split; [|split].
    + split; [intros [e He]; discriminate He | intros [H _]; lia].
    + intros e He. discriminate He.
    + intros r Hr. injection Hr as <-. cbn [degrees_of_freedom p_value].
      split; [reflexivity|]. intros _. split; reflexivity.
  - assert (Hn : (0 < sample_size)%Z) by lia.
    destruct (Chi2Facts.trial_table_cases sample_size control_clicks
                treatment_clicks Hn Hc Ht) as [Hsame Hother].
    assert (Hdec :
      ((control_clicks = 0%Z /\ treatment_clicks = 0%Z) \/
       (control_clicks = sample_size /\ treatment_clicks = sample_size)) \/
      ~ ((control_clicks = 0%Z /\ treatment_clicks = 0%Z) \/
         (control_clicks = sample_size /\ treatment_clicks = sample_size)))
      by lia.
    destruct Hdec as [Hs|Hs].
    + rewrite (Hsame Hs). split; [|split].
      * split; [intros _; split; assumption | intros _; eexists; reflexivity].
      * intros e He. now injection He as <-.
      * intros r Hr. discriminate Hr.
    + destruct (Hother Hs) as [r [Hr Hd]]. rewrite Hr. split; [|split].
      * split; [intros [e He]; discriminate He | intros [_ H]; contradiction].
      * intros e He. discriminate He.
      * intros r' Hr'. injection Hr' as <-. split; [exact Hd | lia].
Qed.

Lemma trial_table_refused_iff_witness :
  let contingency_table := [[0; (10 - 0)%Z]; [0; (10 - 0)%Z]]%Z in
  let same_everywhere :=
    (0%Z = 0%Z /\ 0%Z = 0%Z) \/ (0%Z = 10%Z /\ 0%Z = 10%Z) in
  (fails (chi2_contingency (FL := Demo.table_float) contingency_table) <->
   (0 < 10)%Z /\ same_everywhere) /\
  (forall e,
     chi2_contingency (FL := Demo.table_float) contingency_table = Raise e ->
     e = ValueError) /\
  (forall r,
     chi2_contingency (FL := Demo.table_float) contingency_table = Ok r ->
     degrees_of_freedom r = 1%Z /\
     (10%Z = 0%Z ->
      p_value r = NaN /\ forall alpha, fltb (p_value r) (Fin alpha) = false)).
Proof.
  apply (trial_table_refused_iff (FL := Demo.table_float) 10 0 0); lia.
Defined.

End TrialTableFacts.

Module FirstOccurrenceFacts.

Import Cleaner.

Section Facts.
Variable record : Type.
Variable record_eq_dec : forall x y : record, {x = y} + {x <> y}.

(** A line that survives [drop_duplicates] has no equal record before
    it, in the table or among the records seen already. *)
Lemma drop_from_first (seen : list record) (df : frame record)
    (i : Z) (r : record) :
  In (i, r) (drop_duplicates_from record_eq_dec seen df) ->
  ~ In r seen /\
  exists before after,
    df = before ++ (i, r) :: after /\ ~ In r (map snd before).
Proof.
  revert seen. induction df as [|[j r0] rest IH]; intros seen; [contradiction|].
  cbn [drop_duplicates_from].
  destruct (in_dec record_eq_dec r0 seen) as [Hs|Hs].
  - intros H. destruct (IH seen H) as [Hn [before [after [E Hb]]]].
    split; [exact Hn|].
    exists ((j, r0) :: before), after. split; [now rewrite E|].
    cbn [map snd]. intros [->|Hin]; contradiction.
  - intros [H|H].
    + injection H as -> ->. split; [exact Hs|].
      exists [], rest. split; [reflexivity | auto].
    + destruct (IH (r0 :: seen) H) as [Hn [before [after [E Hb]]]].
      split; [intros Hin; apply Hn; now right|].
      exists ((j, r0) :: before), after. split; [now rewrite E|].
      cbn [map snd]. intros [->|Hin]; [apply Hn; now left | contradiction].
Qed.

End Facts.

(** X19: of equal records [clean_data] keeps the first: a line of its
    output stands in the input with no equal record anywhere before it,
    so it carries the index label of the first occurrence. *)
Theorem clean_data_keeps_first_occurrence
    (record : Type) (record_eq_dec : forall x y : record, {x = y} + {x <> y})
    (read_time : record -> fval) (df : frame record) (i : Z) (r : record) :
  In (i, r) (clean_data record_eq_dec read_time df) ->
  exists before after,
    df = before ++ (i, r) :: after /\ ~ In r (map snd before).
Proof.
  unfold clean_data, drop_duplicates. intros H.
  apply filter_In in H as [H _].
  now apply drop_from_first in H as [_ H].
Qed.

Lemma clean_data_keeps_first_occurrence_witness :
  exists before after,
    Demo.four_events
    = before ++ (0%Z, Demo.Event "u1" 10 "fantasy" "read" 25) :: after /\
    ~ In (Demo.Event "u1" 10 "fantasy" "read" 25) (map snd before).
Proof.
  apply (clean_data_keeps_first_occurrence Demo.event Demo.event_eq_dec
           Demo.event_read_time Demo.four_events 0
           (Demo.Event "u1" 10 "fantasy" "read" 25)).
  vm_compute. now left.
Defined.

End FirstOccurrenceFacts.
